(** * RailDataset (model/wcid_keras/dataset/dataset.py)

    A shallow embedding of the batch-indexable dataset class [RailDataset]
    and the properties of its construction, length, batch fetch and
    epoch-end reshuffle.

    Python objects are modelled as follows.
    - [int] is [Z]; [str] is [string] (its bytes, so that the order of
      [sorted] is the lexicographic order of [String.leb]).
    - Exceptions are values of [exn]; a call that may raise returns a
      [result].
    - Code that touches process-wide state runs in the monad [M]: the state
      [world] holds the state of the [random] module, the heap of [dict]
      objects (dicts are passed by reference) and a trace of the files
      opened and the augmentations applied.
    - numpy arrays are a shape, a dtype tag and the row-major list of
      their elements.  An element is a rational number, an infinity or
      NaN; comparisons, [np.max] and [np.min] treat NaN as IEEE 754 does.
      [astype(np.float32)] and the division by 255.0 round to the nearest
      float32, ties to even; the sign of zero is not kept.
    - The file system, PIL's decoder and resampling filter, the
      background-swap function [augment_images] of the sibling module
      [augment] and the albumentations transform chain are the fields
      of a record [externals], a parameter of the model. *)

From Stdlib Require Import ZArith QArith Lia List String Ascii Permutation.
From stdpp Require Import base option list gmap strings fin_maps sorting.

Set Warnings "-register-all".
Local Open Scope Z_scope.

(** ** Array elements *)

(** An element of an array: a finite value, an infinity or NaN.  Arrays
    of integers and of booleans hold finite values only. *)
Inductive scalar : Type :=
| Num (q : Q)
| PosInf
| NegInf
| NaN.

(** ** Exceptions and results *)

(** The [ValueError]s that the class and the library calls it makes can
    raise, named after their message. *)
Inductive value_error : Type :=
| UnpackExpected2Got0
    (* unpacking [zip] of no pairs into two names, lines 76 and 230 *)
| ResolutionTooSmall (res : Z * Z)            (* line 80 *)
| AmountMismatch (n_imgs n_msks : nat)        (* line 84 *)
| StemMismatch (img_stem msk_stem : string)   (* line 94 *)
| BackgroundPathNone                          (* line 174 *)
| ExpectedTwoClasses (classes : list scalar)  (* line 195 *)
| ResizeNonPositive       (* PIL: height and width must be > 0 *)
| ZeroSizeReduction       (* numpy: max or min of an empty array *)
| AxesMismatch            (* numpy: axes don't match array *)
| StackEmpty              (* numpy: need at least one array to stack *)
| StackShapeMismatch.     (* numpy: all input arrays must have the same shape *)

Inductive exn : Type :=
| ValueError (e : value_error)
| IndexError
| ZeroDivisionError
| KeyError (key : string)
| OSError (path : string)      (* a file that cannot be opened or decoded *)
| AugmentationError.           (* a failure inside an augmentation call *)

Inductive result (A : Type) : Type :=
| Ok (a : A)
| Raise (e : exn).

Arguments Ok {A} a.
Arguments Raise {A} e.

(** ** Values stored in the transform-probability dict *)

Inductive pyval : Type :=
| PyFloat (q : Q)
| PyInt (z : Z)
| PyBool (b : bool)
| PyStr (s : string)
| PyNone
| PyTuple (items : list pyval).

(** ** numpy arrays and PIL images *)

Inductive dtype : Type := Bool8 | UInt8 | Int32 | Float32 | Float64.

Record ndarray : Type := mk_ndarray {
  shape : list nat;
  arr_dtype : dtype;
  data : list scalar
}.

(** A decoded raster: number of bands, element type, (width, height) and
    the value of band [c] at column [x] and row [y]. *)
Record pil_image : Type := mk_image {
  im_bands : positive;
  im_dtype : dtype;
  im_size : nat * nat;
  im_pixel : nat -> nat -> nat -> scalar
}.

(** ** The process-wide state *)

(** The state of the [random] module: a fixed sequence of draws and the
    position of the next one. *)
Record rng_state : Type := mk_rng {
  oracle : nat -> nat;
  cursor : nat
}.

Inductive event : Type :=
| EvOpen (path : string)     (* Image.open(path) *)
| EvBackgroundSwap           (* a call of augment_images *)
| EvTransform.               (* a call of the albumentations chain *)

Definition loc : Type := positive.

Record world : Type := mk_world {
  w_rng : rng_state;
  w_heap : gmap loc (gmap string pyval);
  w_trace : list event
}.

(** The parameters of the albumentations chain built at lines 145-169. *)
Record chain : Type := mk_chain {
  crop_height : Z;
  crop_width : Z;
  crop_p : Q;
  crop_scale : Q * Q;
  flip_p : pyval;
  brightness_p : pyval;
  rotate_limit : pyval;
  rotate_p : pyval;
  blur_always_apply : bool;
  blur_p : pyval;
  blur_limit : Z * Z
}.

(** What the model takes from outside the class. *)
Record externals : Type := mk_externals {
  (* glob.glob(pattern): the files that match, in directory order *)
  glob : string -> list string;
  (* Image.open(path) with its pixels; None when the file cannot be opened
     or decoded (PIL decodes on first use, the model when it opens) *)
  pil_open : string -> option pil_image;
  (* the pixels of Image.resize((w, h)) *)
  pil_resample : pil_image -> nat -> nat -> (nat -> nat -> nat -> scalar);
  (* augment_images(image, mask, bg_dir_pth, bg_ext, p) of module augment *)
  augment_images :
    ndarray -> ndarray -> string -> string -> pyval -> rng_state ->
    option ndarray * rng_state;
  (* transform(image=..., mask=...) of the composed chain *)
  albumentations :
    chain -> ndarray -> ndarray -> rng_state ->
    option (ndarray * ndarray) * rng_state
}.

(** ** The monad of state and exceptions *)

Definition M (A : Type) : Type := world -> result A * world.

Definition ret {A} (a : A) : M A := fun w => (Ok a, w).

Definition bind {A B} (m : M A) (k : A -> M B) : M B :=
  fun w =>
    match m w with
    | (Ok a, w') => k a w'
    | (Raise e, w') => (Raise e, w')
    end.

Definition raise {A} (e : exn) : M A := fun w => (Raise e, w).

Definition lift {A} (r : result A) : M A := fun w => (r, w).

#[global] Instance M_ret : MRet M := @ret.
#[global] Instance M_bind : MBind M := fun A B k m => bind m k.

Definition log (ev : event) : M unit :=
  fun w => (Ok tt, mk_world (w_rng w) (w_heap w) (w_trace w ++ [ev])).

(** ** Python built-ins *)

(** [range(a, b)] *)
Definition py_range (a b : Z) : list Z :=
  map (fun k => a + Z.of_nat k) (seq 0 (Z.to_nat (b - a))).

(** [t[i]] on a tuple, with Python's negative indices. *)
Definition tuple_getitem {A} (t : list A) (i : Z) : result A :=
  let n := Z.of_nat (length t) in
  let j := if i <? 0 then i + n else i in
  if (j <? 0) || (n <=? j) then Raise IndexError
  else match t !! Z.to_nat j with
       | Some x => Ok x
       | None => Raise IndexError
       end.

(** [sorted(l)] on strings: insertion into a sorted list. *)
Fixpoint insert_sorted (s : string) (l : list string) : list string :=
  match l with
  | [] => [s]
  | t :: l' => if String.leb s t then s :: l else t :: insert_sorted s l'
  end.

Definition sorted (l : list string) : list string :=
  foldr insert_sorted [] l.

(** [a, b = zip( *pairs )]: two tuples when there is at least one pair,
    and nothing to unpack otherwise.  ([list(zip(a, b))] itself is [zip a
    b], which stops at the shorter list.) *)
Definition unzip_assign {A B} (pairs : list (A * B)) : result (list A * list B) :=
  match pairs with
  | [] => Raise (ValueError UnpackExpected2Got0)
  | _ :: _ => Ok (pairs.*1, pairs.*2)
  end.

(** [randbelow(n)] of the [random] module for [n > 0]: the next draw,
    reduced below [n]. *)
Definition randbelow (n : nat) : M nat :=
  fun w =>
    let r := w_rng w in
    (Ok (oracle r (cursor r) mod n)%nat,
     mk_world (mk_rng (oracle r) (S (cursor r))) (w_heap w) (w_trace w)).

(** [x[i], x[j] = x[j], x[i]] *)
Definition swap {A} (i j : nat) (x : list A) : list A :=
  match x !! i, x !! j with
  | Some a, Some b => <[j:=a]> (<[i:=b]> x)
  | _, _ => x
  end.

(** [random.shuffle(x)]: for i from len(x)-1 down to 1, swap x[i] with
    x[randbelow(i+1)]. *)
Fixpoint shuffle_from {A} (i : nat) (x : list A) : M (list A) :=
  match i with
  | O => ret x
  | S i' => j ← randbelow (S i); shuffle_from i' (swap i j x)
  end.

Definition random_shuffle {A} (x : list A) : M (list A) :=
  shuffle_from (length x - 1)%nat x.

(** [os.path.join(dir, name)] for a relative [name]. *)
Definition ends_with_slash (s : string) : bool :=
  match rev (list_ascii_of_string s) with
  | c :: _ => Ascii.eqb c "/"
  | [] => false
  end.

Definition path_join (dir name : string) : string :=
  if String.eqb dir "" then name
  else if ends_with_slash dir then dir +:+ name
  else dir +:+ "/" +:+ name.

(** [pathlib.Path(p).name]: what follows the last separator. *)
Fixpoint path_name_aux (cs acc : list ascii) : list ascii :=
  match cs with
  | [] => acc
  | c :: cs' =>
      if Ascii.eqb c "/" then path_name_aux cs' [] else path_name_aux cs' (acc ++ [c])
  end.

Definition path_name (p : string) : string :=
  string_of_list_ascii (path_name_aux (list_ascii_of_string p) []).

(** [name.rfind('.')] *)
Fixpoint rfind_dot (cs : list ascii) (pos : nat) (found : option nat) : option nat :=
  match cs with
  | [] => found
  | c :: cs' =>
      rfind_dot cs' (S pos) (if Ascii.eqb c "." then Some pos else found)
  end.

(** [pathlib.Path(p).stem]: the name without its last suffix; a dot that
    starts or ends the name does not begin a suffix. *)
Definition stem (p : string) : string :=
  let name := list_ascii_of_string (path_name p) in
  match rfind_dot name 0%nat None with
  | Some i =>
      if ((0 <? i)%nat && (i <? length name - 1)%nat)%bool
      then string_of_list_ascii (take i name)
      else string_of_list_ascii name
  | None => string_of_list_ascii name
  end.

(** ** dict objects on the heap *)

(** The dict at a location; a location that the heap does not hold reads
    as the empty dict (no reference of a running program is like that). *)
Definition deref (w : world) (l : loc) : gmap string pyval :=
  default ∅ (w_heap w !! l).

(** [k in d] *)
Definition dict_contains (l : loc) (k : string) : M bool :=
  fun w => (Ok (bool_decide (is_Some (deref w l !! k))), w).

(** [d[k] = v] *)
Definition dict_setitem (l : loc) (k : string) (v : pyval) : M unit :=
  fun w =>
    (Ok tt, mk_world (w_rng w) (<[l := <[k := v]> (deref w l)]> (w_heap w)) (w_trace w)).

(** [d[k]] *)
Definition dict_getitem (l : loc) (k : string) : M pyval :=
  fun w =>
    match deref w l !! k with
    | Some v => (Ok v, w)
    | None => (Raise (KeyError k), w)
    end.

(** [if not k in d: d[k] = v] *)
Definition set_if_absent (l : loc) (k : string) (v : pyval) : M unit :=
  present ← dict_contains l k;
  if (present : bool) then ret tt else dict_setitem l k v.

(** The dict object that the [def] statement of [__init__] creates once
    for the default value of [tfs_prb] (line 34). *)
Definition tfs_prb_default : loc := 1%positive.

(** ** numpy *)

(** [np.asarray(img)]: (height, width) for one band, (height, width,
    bands) otherwise. *)
Definition np_asarray (img : pil_image) : ndarray :=
  let '(w, h) := im_size img in
  let bands := Pos.to_nat (im_bands img) in
  mk_ndarray
    (if (bands =? 1)%nat then [h; w] else [h; w; bands])
    (im_dtype img)
    (y ← seq 0 h; x ← seq 0 w; c ← seq 0 bands; [im_pixel img x y c]).

(** The order of sorting: -inf, the finite values, +inf, NaN. *)
Definition rank (v : scalar) : Z :=
  match v with
  | NegInf => 0
  | Num _ => 1
  | PosInf => 2
  | NaN => 3
  end.

Definition sc_compare (a b : scalar) : comparison :=
  match a, b with
  | Num p, Num q => (p ?= q)%Q
  | _, _ => rank a ?= rank b
  end.

(** [a < b] on array elements: false as soon as one of them is NaN. *)
Definition sc_ltb (a b : scalar) : bool :=
  match a, b with
  | NaN, _ | _, NaN => false
  | _, _ => match sc_compare a b with Lt => true | _ => false end
  end.

(** [np.maximum] and [np.minimum] of two elements: NaN wins. *)
Definition sc_max (a b : scalar) : scalar :=
  match a, b with
  | NaN, _ | _, NaN => NaN
  | _, _ => if sc_ltb a b then b else a
  end.

Definition sc_min (a b : scalar) : scalar :=
  match a, b with
  | NaN, _ | _, NaN => NaN
  | _, _ => if sc_ltb b a then b else a
  end.

(** [np.max(a)] and [np.min(a)]: NaN as soon as the array holds one. *)
Definition np_max (a : ndarray) : result scalar :=
  match data a with
  | [] => Raise (ValueError ZeroSizeReduction)
  | x :: xs => Ok (foldl sc_max x xs)
  end.

Definition np_min (a : ndarray) : result scalar :=
  match data a with
  | [] => Raise (ValueError ZeroSizeReduction)
  | x :: xs => Ok (foldl sc_min x xs)
  end.

(** [np.unique(a)]: the distinct values, ascending, NaN last. *)
Fixpoint insert_unique (v : scalar) (l : list scalar) : list scalar :=
  match l with
  | [] => [v]
  | r :: l' =>
      match sc_compare v r with
      | Eq => l
      | Lt => v :: l
      | Gt => r :: insert_unique v l'
      end
  end.

Definition np_unique (a : ndarray) : list scalar :=
  foldr insert_unique [] (data a).

(** *** float32 *)

(** [N / D = (n / d) / 2 ^ k] *)
Definition scale (n d k : Z) : Z * Z :=
  if 0 <=? k then (n, d * 2 ^ k) else (n * 2 ^ (- k), d).

(** The integer nearest to [n / d] for [d > 0], ties to even. *)
Definition round_half_even (n d : Z) : Z :=
  let f := n / d in
  match 2 * (n mod d) ?= d with
  | Lt => f
  | Gt => f + 1
  | Eq => if Z.even f then f else f + 1
  end.

(** [floor (log2 (n / d))] for positive [n] and [d]. *)
Definition exponent (n d : Z) : Z :=
  let e0 := Z.log2 n - Z.log2 d in
  let '(N, D) := scale n d e0 in
  if D <=? N then e0 else e0 - 1.

(** The float32 nearest to [n / d] for positive [n] and [d]: a
    significand of 24 bits, exponents from -126 (subnormal numbers below)
    to 127, ties to even; [None] is the overflow to infinity. *)
Definition round_f32_pos (n d : Z) : option Q :=
  let k := Z.max (exponent n d) (-126) - 23 in
  let '(N, D) := scale n d k in
  let r := round_half_even N D in
  if 0 <=? k then
    if 2 ^ 128 <=? r * 2 ^ k then None else Some (inject_Z (r * 2 ^ k))
  else Some (Qred (r # Z.to_pos (2 ^ (- k)))).

Definition round_f32 (q : Q) : scalar :=
  match Qnum q with
  | Z0 => Num 0
  | Zpos n =>
      match round_f32_pos (Zpos n) (Zpos (Qden q)) with
      | Some r => Num r
      | None => PosInf
      end
  | Zneg n =>
      match round_f32_pos (Zpos n) (Zpos (Qden q)) with
      | Some r => Num (- r)
      | None => NegInf
      end
  end.

(** The conversion of an element to float32. *)
Definition f32 (v : scalar) : scalar :=
  match v with
  | Num q => round_f32 q
  | _ => v
  end.

(** The float32 division of a float32 by 255. *)
Definition f32_div_255 (v : scalar) : scalar :=
  match v with
  | Num q => round_f32 (q / 255)
  | _ => v
  end.


(** [np.expand_dims(a, axis=0)] *)
Definition np_expand_dims0 (a : ndarray) : ndarray :=
  mk_ndarray (1%nat :: shape a) (arr_dtype a) (data a).

(** [a.astype(np.float32)] *)
Definition astype_float32 (a : ndarray) : ndarray :=
  mk_ndarray (shape a) Float32 (map f32 (data a)).

(** [a /= 255.0] on an array of float32 *)
Definition div_255 (a : ndarray) : ndarray :=
  mk_ndarray (shape a) (arr_dtype a) (map f32_div_255 (data a)).

(** [a.transpose((0, 1, 2))]: the identity on three axes. *)
Definition transpose_012 (a : ndarray) : result ndarray :=
  match shape a with
  | [_; _; _] => Ok a
  | _ => Raise (ValueError AxesMismatch)
  end.

(** [a.transpose((1, 2, 0))]: element (i, j, k) of the result is element
    (k, i, j) of [a]. *)
Definition transpose_120 (a : ndarray) : result ndarray :=
  match shape a with
  | [d0; d1; d2] =>
      Ok (mk_ndarray [d1; d2; d0] (arr_dtype a)
            (i ← seq 0 d1; j ← seq 0 d2; k ← seq 0 d0;
             option_list (data a !! (k * (d1 * d2) + i * d2 + j)%nat)))
  | _ => Raise (ValueError AxesMismatch)
  end.

(** [np.stack(arrays)]: a new leading axis. *)
Definition np_stack (arrays : list ndarray) : result ndarray :=
  match arrays with
  | [] => Raise (ValueError StackEmpty)
  | a :: rest =>
      if forallb (fun b => bool_decide (shape b = shape a)) rest
      then Ok (mk_ndarray (length arrays :: shape a) (arr_dtype a)
                 (concat (map data arrays)))
      else Raise (ValueError StackShapeMismatch)
  end.

(** ** The class RailDataset *)

(** The attributes of an instance.  [tfs_prb] is a reference to a dict on
    the heap; [img_pths] and [msk_pths] are tuples. *)
Record RailDataset : Type := mk_RailDataset {
  imgs_pth : string;
  msks_pth : string;
  bg_dir_pth : option string;
  res : Z * Z;
  img_ftype : string;
  msk_ftype : string;
  batch_size : Z;
  transforms : bool;
  tfs_prb : loc;
  img_pths : list string;
  msk_pths : list string
}.

(** The arguments of the constructor; [None] for [a_tfs_prb] is a call
    that leaves the argument out. *)
Record init_args : Type := mk_init_args {
  a_imgs_pth : string;
  a_msks_pth : string;
  a_res : Z * Z;
  a_img_ftype : string;
  a_msk_ftype : string;
  a_batch_size : Z;
  a_transforms : bool;
  a_tfs_prb : option loc;
  a_bg_dir_pth : option string
}.

(** A call [RailDataset(imgs_pth, msks_pth)] with every default. *)
Definition default_args (imgs msks : string) : init_args :=
  mk_init_args imgs msks (8, 8) "png" "png" 1 true None None.

(** The defaults of lines 100-111, in the order they are written. *)
Definition tfs_defaults : list (string * pyval) :=
  [ ("HorizontalFlip", PyFloat (1 # 2));
    ("RandomBrightnessContrast", PyFloat (1 # 5));
    ("Rotate", PyFloat (9 # 10));
    ("RotateLimit", PyTuple [PyFloat (- 5 # 2); PyFloat (5 # 2)]);
    ("MotionBlur", PyFloat (1 # 10));
    ("BackgroundSwap", PyFloat (9 # 10)) ].

(** Lines 91-97: the first pair whose stems differ raises. *)
Fixpoint check_stems (pairs : list (string * string)) : result unit :=
  match pairs with
  | [] => Ok tt
  | (img_pth, msk_pth) :: rest =>
      if String.eqb (stem img_pth) (stem msk_pth) then check_stems rest
      else Raise (ValueError (StemMismatch (stem img_pth) (stem msk_pth)))
  end.

(** Lines 145-169: the chain reads five entries of the dict. *)
Definition compose (ds : RailDataset) : M chain :=
  p_flip ← dict_getitem (tfs_prb ds) "HorizontalFlip";
  p_brightness ← dict_getitem (tfs_prb ds) "RandomBrightnessContrast";
  limit ← dict_getitem (tfs_prb ds) "RotateLimit";
  p_rotate ← dict_getitem (tfs_prb ds) "Rotate";
  p_blur ← dict_getitem (tfs_prb ds) "MotionBlur";
  ret (mk_chain (res ds).2 (res ds).1 0%Q (4 # 5, 1)%Q
         p_flip p_brightness limit p_rotate false p_blur (15, 21)).

(** Lines 190-196: the bound check on the mask. *)
Definition validate_mask (mask_arr : ndarray) : result unit :=
  match np_max mask_arr with
  | Raise e => Raise e
  | Ok highest_class =>
      match np_min mask_arr with
      | Raise e => Raise e
      | Ok lowest_class =>
          if (sc_ltb (Num 1) highest_class || sc_ltb lowest_class (Num 0))%bool
          then Raise (ValueError (ExpectedTwoClasses (np_unique mask_arr)))
          else Ok tt
      end
  end.

(** Lines 190-214 of the loop body: validation and packaging of the
    image and mask arrays of one sample. *)
Definition package (arrs : ndarray * ndarray) : result (ndarray * ndarray) :=
  let '(image_arr, mask_arr) := arrs in
  (* Make sure only 2 classes *)
  match validate_mask mask_arr with
  | Raise e => Raise e
  | Ok _ =>
      (* Expand Mask dimension *)
      let mask_arr := np_expand_dims0 mask_arr in
      (* Cast datatype and normalize Image *)
      let image_arr := astype_float32 image_arr in
      let mask_arr := astype_float32 mask_arr in
      (* Scale images *)
      let image_arr := div_255 image_arr in
      (* Height width channels to channel height width *)
      match transpose_012 image_arr with
      | Raise e => Raise e
      | Ok img_trans =>
          match transpose_120 mask_arr with
          | Raise e => Raise e
          | Ok mask_arr => Ok (img_trans, mask_arr)
          end
      end
  end.

Section Dataset.

Variable E : externals.

(** [Image.open(path)] *)
Definition image_open (path : string) : M pil_image :=
  log (EvOpen path);;
  match pil_open E path with
  | Some img => ret img
  | None => raise (OSError path)
  end.

(** [img.resize(res)] *)
Definition image_resize (img : pil_image) (size : Z * Z) : result pil_image :=
  if (size.1 <? 1) || (size.2 <? 1) then Raise (ValueError ResizeNonPositive)
  else
    let w := Z.to_nat size.1 in
    let h := Z.to_nat size.2 in
    Ok (mk_image (im_bands img) (im_dtype img) (w, h) (pil_resample E img w h)).

Definition call_augment_images
    (image_arr mask_arr : ndarray) (bg : string) (bg_ext : string) (p : pyval)
  : M ndarray :=
  fun w =>
    let '(r, rng') := augment_images E image_arr mask_arr bg bg_ext p (w_rng w) in
    let w' := mk_world rng' (w_heap w) (w_trace w ++ [EvBackgroundSwap]) in
    match r with
    | Some a => (Ok a, w')
    | None => (Raise AugmentationError, w')
    end.

Definition call_transform (t : chain) (image_arr mask_arr : ndarray)
  : M (ndarray * ndarray) :=
  fun w =>
    let '(r, rng') := albumentations E t image_arr mask_arr (w_rng w) in
    let w' := mk_world rng' (w_heap w) (w_trace w ++ [EvTransform]) in
    match r with
    | Some p => (Ok p, w')
    | None => (Raise AugmentationError, w')
    end.

(** Lines 25-111. *)
Definition __init__ (a : init_args) : M RailDataset :=
  let tfs := default tfs_prb_default (a_tfs_prb a) in
  let res := a_res a in
  (* Collect and sort image and mask paths *)
  let img_pths := sorted (glob E (path_join (a_imgs_pth a) ("*." +:+ a_img_ftype a))) in
  let msk_pths := sorted (glob E (path_join (a_msks_pth a) ("*." +:+ a_msk_ftype a))) in
  (* Shuffle lists in the same way *)
  shuffled_list ← random_shuffle (zip img_pths msk_pths);
  '(img_pths, msk_pths) ← lift (unzip_assign shuffled_list);
  (* Sanity checks *)
  if (res.1 <? 1) || (res.2 <? 1)
  then raise (ValueError (ResolutionTooSmall res))
  else if negb (length img_pths =? length msk_pths)%nat
  then raise (ValueError (AmountMismatch (length img_pths) (length msk_pths)))
  else
    lift (check_stems (zip img_pths msk_pths));;
    (* Set standard transformation parameters if not present. *)
    set_if_absent tfs "HorizontalFlip" (PyFloat (1 # 2));;
    set_if_absent tfs "RandomBrightnessContrast" (PyFloat (1 # 5));;
    set_if_absent tfs "Rotate" (PyFloat (9 # 10));;
    set_if_absent tfs "RotateLimit" (PyTuple [PyFloat (- 5 # 2); PyFloat (5 # 2)]);;
    set_if_absent tfs "MotionBlur" (PyFloat (1 # 10));;
    set_if_absent tfs "BackgroundSwap" (PyFloat (9 # 10));;
    ret (mk_RailDataset (a_imgs_pth a) (a_msks_pth a) (a_bg_dir_pth a) res
           (a_img_ftype a) (a_msk_ftype a) (a_batch_size a) (a_transforms a)
           tfs img_pths msk_pths).

(** Lines 113-119: [len(self.img_pths) // self.batch_size]. *)
Definition __len__ (self : RailDataset) : result Z :=
  if batch_size self =? 0 then Raise ZeroDivisionError
  else Ok (Z.of_nat (length (img_pths self)) / batch_size self).

(** Lines 132-188 of the loop body, for one file index: the two arrays
    of the sample, augmented when [transforms] is set. *)
Definition acquire (self : RailDataset) (file_idx : Z) : M (ndarray * ndarray) :=
  (* Open images and masks *)
  img_pth ← lift (tuple_getitem (img_pths self) file_idx);
  image_img ← image_open img_pth;
  msk_pth ← lift (tuple_getitem (msk_pths self) file_idx);
  mask_img ← image_open msk_pth;
  (* Resize images and masks *)
  image_img ← lift (image_resize image_img (res self));
  mask_img ← lift (image_resize mask_img (res self));
  (* Convert images and mask to array *)
  let image_arr := np_asarray image_img in
  let mask_arr := np_asarray mask_img in
  (* List transformations *)
  transform ← compose self;
  (* Augment Images *)
  if transforms self
  then match bg_dir_pth self with
       | None => raise (ValueError BackgroundPathNone)
       | Some bg =>
           p ← dict_getitem (tfs_prb self) "BackgroundSwap";
           image_arr ← call_augment_images image_arr mask_arr bg "jpg" p;
           call_transform transform image_arr mask_arr
       end
  else ret (image_arr, mask_arr).

(** Lines 131-214: the body of the loop. *)
Definition load_sample (self : RailDataset) (file_idx : Z) : M (ndarray * ndarray) :=
  arrs ← acquire self file_idx;
  lift (package arrs).

(** The [for] loop of line 131 over the remaining file indices, with the
    two accumulators. *)
Fixpoint for_file_idx (self : RailDataset) (idxs : list Z)
    (img_list msk_list : list ndarray) : M (list ndarray * list ndarray) :=
  match idxs with
  | [] => ret (img_list, msk_list)
  | file_idx :: rest =>
      '(img_trans, mask_arr) ← load_sample self file_idx;
      for_file_idx self rest (img_list ++ [img_trans]) (msk_list ++ [mask_arr])
  end.

(** The file indices of batch [batch_idx] (line 131). *)
Definition file_indices (self : RailDataset) (batch_idx : Z) : list Z :=
  py_range batch_idx (batch_idx + batch_size self).

(** Lines 121-219. *)
Definition __getitem__ (self : RailDataset) (batch_idx : Z) : M (ndarray * ndarray) :=
  '(img_list, msk_list) ← for_file_idx self (file_indices self batch_idx) [] [];
  img_batch ← lift (np_stack img_list);
  msk_batch ← lift (np_stack msk_list);
  ret (img_batch, msk_batch).

(** Lines 221-230; the instance is updated in place, here returned. *)
Definition on_epoch_end (self : RailDataset) : M RailDataset :=
  shuffled_list ← random_shuffle (zip (img_pths self) (msk_pths self));
  '(new_img_pths, new_msk_pths) ← lift (unzip_assign shuffled_list);
  ret (mk_RailDataset (imgs_pth self) (msks_pth self) (bg_dir_pth self) (res self)
         (img_ftype self) (msk_ftype self) (batch_size self) (transforms self)
         (tfs_prb self) new_img_pths new_msk_pths).

End Dataset.

(** ** Vocabulary of the properties *)

(** The instances a program can hold: what a constructor call returned,
    after any number of calls of [on_epoch_end]. *)
Inductive reachable (E : externals) : RailDataset -> Prop :=
| reachable_init a w self w' :
    __init__ E a w = (Ok self, w') -> reachable E self
| reachable_epoch self w self' w' :
    reachable E self -> on_epoch_end self w = (Ok self', w') -> reachable E self'.

(** The number of stored sample pairs. *)
Definition corpus_size (self : RailDataset) : Z :=
  Z.of_nat (length (img_pths self)).

(** The stored sample pairs, in order. *)
Definition sample_pairs (self : RailDataset) : list (string * string) :=
  zip (img_pths self) (msk_pths self).

(** Both path tuples have one length and equal stems at every position. *)
Definition aligned (self : RailDataset) : Prop :=
  length (img_pths self) = length (msk_pths self) /\
  Forall2 (fun img_pth msk_pth => stem img_pth = stem msk_pth)
    (img_pths self) (msk_pths self).

(** [q] is the floor of the quotient [a / b]; no [q] is when [b = 0]. *)
Definition floor_quotient (a b q : Z) : Prop :=
  (0 < b /\ q * b <= a < (q + 1) * b) \/
  (b < 0 /\ (q + 1) * b < a <= q * b).

(** The files a trace opened, in order, and its augmentation calls. *)
Definition opened (t : list event) : list string :=
  flat_map (fun ev => match ev with EvOpen p => [p] | _ => [] end) t.

Definition augmentation_calls (t : list event) : list event :=
  flat_map (fun ev => match ev with EvOpen _ => [] | _ => [ev] end) t.

(** The world after the two files of a sample were opened. *)
Definition after_open (w : world) (img_pth msk_pth : string) : world :=
  mk_world (w_rng w) (w_heap w) (w_trace w ++ [EvOpen img_pth; EvOpen msk_pth]).

(** The image and mask path at a file index. *)
Definition sample_paths (self : RailDataset) (file_idx : Z) : list string :=
  match tuple_getitem (img_pths self) file_idx,
        tuple_getitem (msk_pths self) file_idx with
  | Ok img_pth, Ok msk_pth => [img_pth; msk_pth]
  | _, _ => []
  end.

(** The dict of the instance holds the six keys of the defaults. *)
Definition tfs_ready (w : world) (self : RailDataset) : Prop :=
  forall k, k ∈ tfs_defaults.*1 -> is_Some (deref w (tfs_prb self) !! k).


(** A finite value from [lo] to [hi]. *)
Definition between (lo hi : Q) (v : scalar) : Prop :=
  match v with
  | Num q => (lo <= q <= hi)%Q
  | _ => False
  end.









(** The loop body runs on the file indices [idxs] one after the other,
    from the world [w] to the world [w'], and returns [outs]. *)
Inductive loads (E : externals) (self : RailDataset) :
    list Z -> world -> list (ndarray * ndarray) -> world -> Prop :=
| loads_nil w : loads E self [] w [] w
| loads_cons file_idx idxs w out w1 outs w' :
    load_sample E self file_idx w = (Ok out, w1) ->
    loads E self idxs w1 outs w' ->
    loads E self (file_idx :: idxs) w (out :: outs) w'.

(** The pairs that the constructor finds: the sorted image paths with the
    sorted mask paths, up to the shorter list (lines 62-74). *)
Definition discovered_pairs (E : externals) (a : init_args) : list (string * string) :=
  zip (sorted (glob E (path_join (a_imgs_pth a) ("*." +:+ a_img_ftype a))))
      (sorted (glob E (path_join (a_msks_pth a) ("*." +:+ a_msk_ftype a)))).

(** The keys that the chain of lines 145-169 reads, in the order it reads
    them. *)
Definition chain_keys : list string :=
  ["HorizontalFlip"; "RandomBrightnessContrast"; "RotateLimit"; "Rotate";
   "MotionBlur"].

(** The dict of the instance holds the five keys that the chain reads. *)
Definition chain_ready (w : world) (self : RailDataset) : Prop :=
  forall k, k ∈ chain_keys -> is_Some (deref w (tfs_prb self) !! k).

(** The events of one sample that loads: its two files and, with
    augmentation, the background swap and the transform chain. *)
Definition sample_events (self : RailDataset) (file_idx : Z) : list event :=
  map EvOpen (sample_paths self file_idx) ++
  (if transforms self then [EvBackgroundSwap; EvTransform] else []).

(** [np.asarray(Image.open(path).resize(self.res))]: the array of a file
    at the resolution of the instance, when the file loads. *)
Definition raster (E : externals) (self : RailDataset) (path : string) : option ndarray :=
  match pil_open E path with
  | Some img =>
      match image_resize E img (res self) with
      | Ok resized => Some (np_asarray resized)
      | Raise _ => None
      end
  | None => None
  end.

(** The values of the image and of the mask at a file index. *)
Definition image_values (E : externals) (self : RailDataset) (file_idx : Z)
  : list scalar :=
  match sample_paths self file_idx with
  | [img_pth; _] => from_option data [] (raster E self img_pth)
  | _ => []
  end.

Definition mask_values (E : externals) (self : RailDataset) (file_idx : Z)
  : list scalar :=
  match sample_paths self file_idx with
  | [_; msk_pth] => from_option data [] (raster E self msk_pth)
  | _ => []
  end.

(** Every file that opens resamples to values of 8 bits. *)
Definition pixels_8bit (E : externals) : Prop :=
  forall path img, pil_open E path = Some img ->
    forall w h x y c : nat,
      (x < w)%nat -> (y < h)%nat -> (c < Pos.to_nat (im_bands img))%nat ->
      between 0 255 (pil_resample E img w h x y c).

(** ** A small file system, used to run the model *)

Module Demo.

(** Four images with three 8-bit bands and their one-band masks, plus
    a directory pair of three images and two masks, three masks of which
    the one named a holds the value 2, a mask that holds the value 2, a
    floating-point mask that holds 1/2 and a file named corrupt/a.png that
    does not decode.  Every raster is 3 pixels wide and 2 high. *)
Definition demo_glob (pattern : string) : list string :=
  if String.eqb pattern "imgs/*.png" then
    ["imgs/2.png"; "imgs/0.png"; "imgs/3.png"; "imgs/1.png"]
  else if String.eqb pattern "msks/*.png" then
    ["msks/1.png"; "msks/3.png"; "msks/0.png"; "msks/2.png"]
  else if String.eqb pattern "three/*.png" then
    ["three/a.png"; "three/b.png"; "three/c.png"]
  else if String.eqb pattern "two/*.png" then
    ["two/a.png"; "two/b.png"]
  else if String.eqb pattern "one/*.png" then
    ["one/a.png"]
  else if String.eqb pattern "bad/*.png" then
    ["bad/a.png"]
  else if String.eqb pattern "half/*.tiff" then
    ["half/a.tiff"]
  else if String.eqb pattern "marks/*.png" then
    ["marks/a.png"; "marks/b.png"; "marks/c.png"]
  else if String.eqb pattern "corrupt/*.png" then
    ["corrupt/a.png"]
  else [].

Definition rgb_image : pil_image :=
  mk_image 3 UInt8 (3%nat, 2%nat)
    (fun x y c => Num (inject_Z (Z.of_nat (40 * x + 100 * y + 7 * c)))).

(** A mask of zeros and ones. *)
Definition binary_mask : pil_image :=
  mk_image 1 UInt8 (3%nat, 2%nat)
    (fun x y _ => Num (inject_Z (Z.of_nat ((x + y) mod 2)))).

(** A mask with the class 2 in its first column. *)
Definition mask_with_2 : pil_image :=
  mk_image 1 UInt8 (3%nat, 2%nat)
    (fun x y _ => if (x =? 0)%nat then Num 2 else Num 0).

(** A floating-point mask with the value 1/2 in its first column. *)
Definition mask_with_half : pil_image :=
  mk_image 1 Float32 (3%nat, 2%nat)
    (fun x y _ => if (x =? 0)%nat then Num (1 # 2) else Num 1).

(** A floating-point mask with a NaN in its first column and the value 2
    in its second. *)
Definition mask_with_nan : pil_image :=
  mk_image 1 Float32 (3%nat, 2%nat)
    (fun x y _ =>
       if (x =? 0)%nat then NaN else if (x =? 1)%nat then Num 2 else Num 0).

Definition has_prefix (p s : string) : bool := String.prefix p s.

Definition demo_open (path : string) : option pil_image :=
  if has_prefix "imgs/" path then Some rgb_image
  else if has_prefix "msks/" path then Some binary_mask
  else if has_prefix "three/" path then Some rgb_image
  else if has_prefix "two/" path then Some binary_mask
  else if String.eqb path "one/a.png" then Some rgb_image
  else if String.eqb path "bad/a.png" then Some mask_with_2
  else if String.eqb path "half/a.tiff" then Some mask_with_half
  else if String.eqb path "marks/a.png" then Some mask_with_2
  else if has_prefix "marks/" path then Some binary_mask
  else None.

(** [Image.resize] returns a copy of a raster that already has the size
    asked for, whatever the filter.  Every raster above has the size
    (3, 2) at which the instances below fetch it, so that no filter is
    applied on this file system; a raster of another size would be
    resampled to its nearest pixels, which is not the bicubic filter that
    [resize] applies by default. *)
Definition demo_resample (img : pil_image) (w h : nat)
  : nat -> nat -> nat -> scalar :=
  if bool_decide ((w, h) = im_size img) then im_pixel img
  else
    fun x y c =>
      im_pixel img (x * fst (im_size img) / w)%nat (y * snd (im_size img) / h)%nat c.

(** Augmentations that leave the arrays as they are and use one draw. *)
Definition demo_augment_images
    (image_arr mask_arr : ndarray) (bg ext : string) (p : pyval) (r : rng_state)
  : option ndarray * rng_state :=
  (Some image_arr, mk_rng (oracle r) (S (cursor r))).

Definition demo_albumentations
    (t : chain) (image_arr mask_arr : ndarray) (r : rng_state)
  : option (ndarray * ndarray) * rng_state :=
  (Some (image_arr, mask_arr), mk_rng (oracle r) (S (cursor r))).

Definition fs : externals :=
  mk_externals demo_glob demo_open demo_resample
    demo_augment_images demo_albumentations.

(** The state of a fresh interpreter: the default dict of [__init__]
    exists and is empty, nothing was opened. *)
Definition world0 : world :=
  mk_world (mk_rng (fun n => (3 * n + 1)%nat) 0) {[ tfs_prb_default := ∅ ]} [].

(** A caller's dict at location 2, with one recognized and one extra key. *)
Definition caller_dict : gmap string pyval :=
  {[ "Rotate" := PyFloat (1 # 4); "Sharpen" := PyFloat (3 # 4) ]}.

Definition world1 : world :=
  mk_world (mk_rng (fun n => (3 * n + 1)%nat) 0)
    {[ tfs_prb_default := ∅; 2%positive := caller_dict ]} [].

Definition args (imgs msks : string) (size : Z * Z) (bs : Z) (tf : bool)
    (tfs : option loc) (bg : option string) : init_args :=
  mk_init_args imgs msks size "png" "png" bs tf tfs bg.

(** The value of a call that returned. *)
Definition returned {A} (d : A) (r : result A * world) : A :=
  match r.1 with
  | Ok a => a
  | Raise _ => d
  end.

Definition no_dataset : RailDataset :=
  mk_RailDataset "" "" None (0, 0) "" "" 0 false tfs_prb_default [] [].

Definition no_array : ndarray := mk_ndarray [] Float32 [].

(** Four pairs in batches of two at resolution 3 x 2, augmentation off. *)
Definition plain_args : init_args :=
  args "imgs" "msks" (3, 2) 2 false None None.

Definition plain_ds : RailDataset :=
  Eval vm_compute in returned no_dataset (__init__ fs plain_args world0).

Definition plain_world : world := (__init__ fs plain_args world0).2.

(** The same corpus with augmentation on and no background directory. *)
Definition nobg_args : init_args :=
  args "imgs" "msks" (3, 2) 2 true None None.

Definition nobg_ds : RailDataset :=
  Eval vm_compute in returned no_dataset (__init__ fs nobg_args world0).

Definition nobg_world : world := (__init__ fs nobg_args world0).2.

(** One pair whose image file does not decode. *)
Definition corrupt_args : init_args :=
  args "corrupt" "bad" (3, 2) 1 true None None.

Definition corrupt_ds : RailDataset :=
  Eval vm_compute in returned no_dataset (__init__ fs corrupt_args world0).

Definition corrupt_world : world := (__init__ fs corrupt_args world0).2.





Definition plain_batch : ndarray * ndarray :=
  Eval vm_compute in
    returned (no_array, no_array) (__getitem__ fs plain_ds 0 plain_world).

(** Three images and two masks. *)
Definition mismatch_args : init_args :=
  args "three" "two" (8, 8) 1 false None None.

(** The same file system with one more directory, whose only file is a
    floating-point mask with a NaN and a 2. *)
Definition nan_glob (pattern : string) : list string :=
  if String.eqb pattern "nan/*.tiff" then ["nan/a.tiff"] else demo_glob pattern.

Definition nan_open (path : string) : option pil_image :=
  if String.eqb path "nan/a.tiff" then Some mask_with_nan else demo_open path.

Definition fs_nan : externals :=
  mk_externals nan_glob nan_open demo_resample
    demo_augment_images demo_albumentations.












(** Batch 1 of the four pairs. *)
Definition plain_batch1 : ndarray * ndarray :=
  Eval vm_compute in
    returned (no_array, no_array) (__getitem__ fs plain_ds 1 plain_world).

(** The world of [nobg_world] after the caller has deleted the entry
    "BackgroundSwap" of the shared dict. *)
Definition noswap_world : world :=
  mk_world (w_rng nobg_world)
    (<[tfs_prb_default := delete "BackgroundSwap" (deref nobg_world tfs_prb_default)]>
       (w_heap nobg_world))
    (w_trace nobg_world).

(** A call that passes the caller's dict at location 2. *)
Definition caller_args : init_args :=
  args "imgs" "msks" (3, 2) 2 false (Some 2%positive) None.

Definition caller_ds : RailDataset :=
  Eval vm_compute in returned no_dataset (__init__ fs caller_args world1).

Definition caller_world : world := (__init__ fs caller_args world1).2.

(** A directory pair whose image directory holds no file. *)
Definition empty_args : init_args :=
  args "void" "msks" (3, 2) 2 false None None.


(** The images 0 .. 3 against the masks a and b. *)
Definition stems_args : init_args :=
  args "imgs" "two" (3, 2) 2 false None None.

(** A second instance that is handed the dict of [plain_ds]. *)
Definition shared_args : init_args :=
  args "imgs" "msks" (3, 2) 2 false (Some tfs_prb_default) None.

Definition shared_ds : RailDataset :=
  Eval vm_compute in returned no_dataset (__init__ fs shared_args plain_world).

Definition shared_world : world := (__init__ fs shared_args plain_world).2.

(** A batch size of zero. *)
Definition zero_args : init_args :=
  args "imgs" "msks" (3, 2) 0 false None None.

Definition zero_ds : RailDataset :=
  Eval vm_compute in returned no_dataset (__init__ fs zero_args world0).

Definition zero_world : world := (__init__ fs zero_args world0).2.

(** The world of [plain_world] after other work: the same heap, a later
    position of the random state and a longer trace. *)
Definition later_world : world :=
  mk_world (mk_rng (oracle (w_rng plain_world)) 40) (w_heap plain_world)
    (w_trace plain_world ++ [EvOpen "imgs/3.png"; EvTransform]).

End Demo.

(** * Properties *)

(** ** The monad *)

Lemma bind_eq {A B} (m : M A) (k : A -> M B) (w : world) :
  (m ≫= k) w =
  match m w with
  | (Ok a, w') => k a w'
  | (Raise e, w') => (Raise e, w')
  end.
Proof. reflexivity. Qed.

Lemma bind_Ok_inv {A B} (m : M A) (k : A -> M B) w b w2 :
  (m ≫= k) w = (Ok b, w2) ->
  exists a w1, m w = (Ok a, w1) /\ k a w1 = (Ok b, w2).
Proof.
  rewrite bind_eq. destruct (m w) as [[a|e] w1]; [eauto | discriminate].
Qed.

Lemma bind_Ok {A B} (m : M A) (k : A -> M B) w a w1 :
  m w = (Ok a, w1) -> (m ≫= k) w = k a w1.
Proof. intros H. rewrite bind_eq, H. reflexivity. Qed.

Lemma bind_Raise {A B} (m : M A) (k : A -> M B) w e w1 :
  m w = (Raise e, w1) -> (m ≫= k) w = (Raise e, w1).
Proof. intros H. rewrite bind_eq, H. reflexivity. Qed.

Lemma lift_Ok_inv {A} (r : result A) w a w1 :
  lift r w = (Ok a, w1) -> r = Ok a /\ w1 = w.
Proof. unfold lift. intros H. inversion H. auto. Qed.

(** ** Python built-ins *)

Lemma swap_Permutation {A} (i j : nat) (x : list A) : swap i j x ≡ₚ x.
Proof.
  unfold swap.
  destruct (x !! i) as [a|] eqn:Hi; [|reflexivity].
  destruct (x !! j) as [b|] eqn:Hj; [|reflexivity].
  by apply Permutation_insert_swap.
Qed.

(** [random.shuffle] returns, uses one draw per position above the
    first, and leaves a permutation of its argument. *)
Lemma shuffle_from_spec {A} (i : nat) (x : list A) (w : world) :
  exists x',
    shuffle_from i x w =
      (Ok x', mk_world (mk_rng (oracle (w_rng w)) (cursor (w_rng w) + i))
                (w_heap w) (w_trace w)) /\
    x' ≡ₚ x.
Proof.
  revert x w. induction i as [|i IH]; intros x w.
  - exists x. split; [|reflexivity]. cbn. unfold ret.
    destruct w as [[o c] h t]. cbn. do 3 f_equal. lia.
  - cbn [shuffle_from]. rewrite bind_eq. cbn [randbelow].
    destruct (IH (swap (S i) (oracle (w_rng w) (cursor (w_rng w)) `mod` S (S i))%nat x)
                (mk_world (mk_rng (oracle (w_rng w)) (S (cursor (w_rng w))))
                   (w_heap w) (w_trace w))) as (x' & Hrun & Hperm).
    exists x'. split.
    + rewrite Hrun. cbn. do 4 f_equal. lia.
    + rewrite Hperm. apply swap_Permutation.
Qed.

Lemma random_shuffle_spec {A} (x : list A) (w : world) :
  exists x' w',
    random_shuffle x w = (Ok x', w') /\ x' ≡ₚ x /\
    w_heap w' = w_heap w /\ w_trace w' = w_trace w.
Proof.
  destruct (shuffle_from_spec (length x - 1) x w) as (x' & Hrun & Hperm).
  unfold random_shuffle. rewrite Hrun. eauto 10.
Qed.

Lemma unzip_assign_Ok_inv {A B} (pairs : list (A * B)) a b :
  unzip_assign pairs = Ok (a, b) ->
  pairs <> [] /\ a = pairs.*1 /\ b = pairs.*2.
Proof.
  destruct pairs; cbn; [discriminate|]. intros H. by inversion H.
Qed.

Lemma insert_sorted_Permutation (s : string) (l : list string) :
  insert_sorted s l ≡ₚ s :: l.
Proof.
  induction l as [|t l IH]; cbn; [done|].
  destruct (String.leb s t); [done|]. rewrite IH. apply Permutation_swap.
Qed.

Lemma sorted_Permutation (l : list string) : sorted l ≡ₚ l.
Proof.
  induction l as [|s l IH]; cbn; [done|].
  by rewrite insert_sorted_Permutation, IH.
Qed.

Lemma length_sorted (l : list string) : length (sorted l) = length l.
Proof. by rewrite sorted_Permutation. Qed.

Lemma leb_false_leb (s t : string) : String.leb s t = false -> String.leb t s = true.
Proof.
  intros H. destruct (String.leb_total s t) as [Hst|Hts]; [congruence | done].
Qed.

Lemma insert_sorted_Sorted (s : string) (l : list string) :
  Sorted (fun a b => String.leb a b = true) l ->
  Sorted (fun a b => String.leb a b = true) (insert_sorted s l).
Proof.
  induction 1 as [|t l Hsorted IH Hhd]; cbn.
  - by repeat constructor.
  - destruct (String.leb s t) eqn:Hst.
    + constructor; [by constructor | by constructor].
    + constructor; [done|].
      apply leb_false_leb in Hst.
      destruct l as [|u l]; cbn; [by constructor|].
      inversion Hhd; subst. destruct (String.leb s u); by constructor.
Qed.

(** [sorted] returns its argument in ascending order. *)
Lemma sorted_Sorted (l : list string) :
  Sorted (fun a b => String.leb a b = true) (sorted l).
Proof.
  induction l as [|s l IH]; cbn; [constructor | by apply insert_sorted_Sorted].
Qed.

(** ** The transform-probability dict *)

Lemma union_singleton_absent (d : gmap string pyval) k v :
  d !! k = None -> <[k:=v]> d = d ∪ {[k := v]}.
Proof. intros H. by apply insert_union_singleton_r. Qed.

Lemma union_singleton_present (d : gmap string pyval) k v :
  is_Some (d !! k) -> d = d ∪ {[k := v]}.
Proof.
  intros [x Hx]. apply map_eq. intros i. symmetry.
  destruct (d !! i) as [y|] eqn:Hi.
  - by apply lookup_union_Some_l.
  - rewrite lookup_union_r by done. apply lookup_singleton_ne. congruence.
Qed.

Lemma defaults_as_unions :
  ((((({[ "HorizontalFlip" := PyFloat (1 # 2) ]} : gmap string pyval)
        ∪ {[ "RandomBrightnessContrast" := PyFloat (1 # 5) ]})
       ∪ {[ "Rotate" := PyFloat (9 # 10) ]})
      ∪ {[ "RotateLimit" := PyTuple [PyFloat (- 5 # 2); PyFloat (5 # 2)] ]})
     ∪ {[ "MotionBlur" := PyFloat (1 # 10) ]})
    ∪ {[ "BackgroundSwap" := PyFloat (9 # 10) ]}
  = list_to_map tfs_defaults.
Proof. vm_compute. reflexivity. Qed.

Lemma set_if_absent_spec l k v w :
  exists w',
    set_if_absent l k v w = (Ok tt, w') /\
    deref w' l = deref w l ∪ {[k := v]} /\
    (forall l', l' <> l -> w_heap w' !! l' = w_heap w !! l') /\
    (is_Some (w_heap w !! l) -> is_Some (w_heap w' !! l)) /\
    w_trace w' = w_trace w /\ w_rng w' = w_rng w.
Proof.
  unfold set_if_absent. rewrite bind_eq. cbn [dict_contains].
  case_bool_decide as Hk.
  - exists w. split; [reflexivity|]. split; [by apply union_singleton_present|]. done.
  - eexists. split; [reflexivity|]. cbn. unfold deref at 1. cbn.
    rewrite lookup_insert_eq. cbn.
    split. { apply union_singleton_absent. by apply eq_None_not_Some. }
    split. { intros l' Hl. by rewrite lookup_insert_ne. }
    done.
Qed.

Ltac inv_bind H :=
  let a := fresh "a" in
  let w1 := fresh "w" in
  let H1 := fresh "Hstep" in
  apply bind_Ok_inv in H as (a & w1 & H1 & H).

Lemma check_stems_Ok (pairs : list (string * string)) :
  check_stems pairs = Ok tt <-> Forall (fun p => stem p.1 = stem p.2) pairs.
Proof.
  induction pairs as [|[i m] pairs IH]; cbn.
  - split; [constructor | done].
  - destruct (String.eqb_spec (stem i) (stem m)) as [Heq|Hne].
    + rewrite IH. split; [by constructor | by inversion 1].
    + split; [discriminate | inversion 1; done].
Qed.

Lemma init_Ok_inv E a w self w' :
  __init__ E a w = (Ok self, w') ->
  let l := default tfs_prb_default (a_tfs_prb a) in
  exists shuffled,
    shuffled ≡ₚ
      zip (sorted (glob E (path_join (a_imgs_pth a) ("*." +:+ a_img_ftype a))))
          (sorted (glob E (path_join (a_msks_pth a) ("*." +:+ a_msk_ftype a)))) /\
    shuffled <> [] /\
    check_stems shuffled = Ok tt /\
    1 <= (a_res a).1 /\ 1 <= (a_res a).2 /\
    self = mk_RailDataset (a_imgs_pth a) (a_msks_pth a) (a_bg_dir_pth a) (a_res a)
             (a_img_ftype a) (a_msk_ftype a) (a_batch_size a) (a_transforms a)
             l shuffled.*1 shuffled.*2 /\
    deref w' l = deref w l ∪ list_to_map tfs_defaults /\
    (forall l', l' <> l -> w_heap w' !! l' = w_heap w !! l') /\
    (is_Some (w_heap w !! l) -> is_Some (w_heap w' !! l)) /\
    w_trace w' = w_trace w.
Proof.
  intros H l. unfold __init__ in H. fold l in H.
  inv_bind H.
  destruct (random_shuffle_spec
    (zip (sorted (glob E (path_join (a_imgs_pth a) ("*." +:+ a_img_ftype a))))
         (sorted (glob E (path_join (a_msks_pth a) ("*." +:+ a_msk_ftype a))))) w)
    as (x' & w1 & Hrun & Hperm & Hheap & Htrace).
  rewrite Hrun in Hstep. inversion Hstep; subst a0 w0. clear Hstep.
  inv_bind H. destruct a0 as [imgs msks].
  apply lift_Ok_inv in Hstep as [Hunzip ->].
  apply unzip_assign_Ok_inv in Hunzip as (Hne & -> & ->).
  destruct ((a_res a).1 <? 1) eqn:Hr1; [discriminate|].
  destruct ((a_res a).2 <? 1) eqn:Hr2; [discriminate|].
  cbn [orb] in H.
  destruct (negb (length x'.*1 =? length x'.*2)%nat); [discriminate|].
  inv_bind H. apply lift_Ok_inv in Hstep as [Hstems ->].
  rewrite zip_fst_snd in Hstems. destruct a0.
  assert (Hderef1 : deref w1 l = deref w l) by (unfold deref; by rewrite Hheap).
  repeat
    (let w2 := fresh "w" in
     let Hs := fresh "Hset" in
     let Hd := fresh "Hd" in
     let Ho := fresh "Ho" in
     let Hi := fresh "Hi" in
     let Ht := fresh "Ht" in
     let Hr := fresh "Hr" in
     match type of H with
     | (set_if_absent ?l0 ?k ?v ≫= _) ?w0 = _ =>
         destruct (set_if_absent_spec l0 k v w0) as (w2 & Hs & Hd & Ho & Hi & Ht & Hr);
         rewrite (bind_Ok _ _ _ _ _ Hs) in H
     end).
  inversion H; subst self w'. clear H.
  exists x'. repeat split; try done; try lia.
  - rewrite Hd4, Hd3, Hd2, Hd1, Hd0, Hd, Hderef1.
    rewrite <- defaults_as_unions.
    by rewrite !(assoc_L (∪)).
  - intros l' Hl. rewrite Ho4, Ho3, Ho2, Ho1, Ho0, Ho by done. by rewrite Hheap.
  - intros Hsome. rewrite <- Hheap in Hsome. auto 10.
  - rewrite Ht4, Ht3, Ht2, Ht1, Ht0, Ht. done.
Qed.

(** ** Alignment of the path tuples *)

Lemma Forall2_fst_snd {A B} (P : A -> B -> Prop) (l : list (A * B)) :
  Forall (fun p => P p.1 p.2) l -> Forall2 P l.*1 l.*2.
Proof. induction 1; cbn; by constructor. Qed.

Lemma Forall2_zip {A B} (P : A -> B -> Prop) (l : list A) (k : list B) :
  Forall2 P l k -> Forall (fun p => P p.1 p.2) (zip l k).
Proof. induction 1; cbn; by constructor. Qed.

(** What the unpacking of a shuffled, non-empty list of aligned pairs
    stores is aligned. *)
Lemma aligned_of_pairs (self : RailDataset) (pairs : list (string * string)) :
  img_pths self = pairs.*1 -> msk_pths self = pairs.*2 ->
  Forall (fun p => stem p.1 = stem p.2) pairs ->
  aligned self /\ sample_pairs self = pairs.
Proof.
  intros Hi Hm HF. unfold aligned, sample_pairs. rewrite Hi, Hm.
  rewrite !length_fmap, zip_fst_snd. auto using Forall2_fst_snd.
Qed.

Lemma on_epoch_end_spec (self : RailDataset) (w : world) :
  img_pths self <> [] -> aligned self ->
  exists self' w',
    on_epoch_end self w = (Ok self', w') /\
    sample_pairs self' ≡ₚ sample_pairs self /\
    aligned self' /\ img_pths self' <> [] /\
    res self' = res self /\ batch_size self' = batch_size self /\
    transforms self' = transforms self /\ bg_dir_pth self' = bg_dir_pth self /\
    tfs_prb self' = tfs_prb self /\
    w_heap w' = w_heap w /\ w_trace w' = w_trace w.
Proof.
  intros Hne [Hlen Hstems]. unfold on_epoch_end.
  destruct (random_shuffle_spec (zip (img_pths self) (msk_pths self)) w)
    as (x' & w1 & Hrun & Hperm & Hheap & Htrace).
  rewrite (bind_Ok _ _ _ _ _ Hrun).
  assert (Hx' : x' <> []).
  { intros ->. apply Permutation_nil_l in Hperm.
    destruct (img_pths self), (msk_pths self); cbn in *; congruence. }
  destruct x' as [|p x']; [done|].
  eexists _, w1. split; [reflexivity|].
  assert (HF : Forall (fun p => stem p.1 = stem p.2) (p :: x')).
  { rewrite Hperm.
    exact (Forall2_zip (fun i m => stem i = stem m) _ _ Hstems). }
  edestruct (aligned_of_pairs
     (mk_RailDataset (imgs_pth self) (msks_pth self) (bg_dir_pth self) (res self)
        (img_ftype self) (msk_ftype self) (batch_size self) (transforms self)
        (tfs_prb self) (p :: x').*1 (p :: x').*2) (p :: x')) as [Hal Hpairs];
    [reflexivity | reflexivity | exact HF |].
  split. { rewrite Hpairs. exact Hperm. }
  split; [exact Hal|]. cbn. done.
Qed.

(** The invariant of the instances a program can hold. *)
Lemma reachable_inv (E : externals) (self : RailDataset) :
  reachable E self ->
  img_pths self <> [] /\ aligned self /\ 1 <= (res self).1 /\ 1 <= (res self).2.
Proof.
  induction 1 as [a w self w' Hinit | self w self' w' Hreach IH Hepoch].
  - apply init_Ok_inv in Hinit as (sh & _ & Hne & Hstems & Hr1 & Hr2 & -> & _).
    apply check_stems_Ok in Hstems.
    edestruct (aligned_of_pairs
      (mk_RailDataset (a_imgs_pth a) (a_msks_pth a) (a_bg_dir_pth a) (a_res a)
         (a_img_ftype a) (a_msk_ftype a) (a_batch_size a) (a_transforms a)
         (default tfs_prb_default (a_tfs_prb a)) sh.*1 sh.*2) sh) as [Hal _];
      [reflexivity | reflexivity | exact Hstems |].
    cbn [img_pths res]. split; [by destruct sh|]. split; [exact Hal | done].
  - destruct IH as (Hne & Hal & Hr1 & Hr2).
    destruct (on_epoch_end_spec self w Hne Hal)
      as (s2 & w2 & Hrun & _ & Hal' & Hne' & Hres & _).
    rewrite Hrun in Hepoch. inversion Hepoch; subst s2 w2.
    rewrite Hres. done.
Qed.

(** ** Ranges, tuple indexing and floor division *)

Lemma elem_of_py_range (a b i : Z) : i ∈ py_range a b <-> a <= i < b.
Proof.
  unfold py_range. rewrite list_elem_of_fmap. split.
  - intros (k & -> & Hk). apply elem_of_seq in Hk. lia.
  - intros Hi. exists (Z.to_nat (i - a)). split; [lia|].
    apply elem_of_seq. lia.
Qed.

Lemma length_py_range (a b : Z) : length (py_range a b) = Z.to_nat (b - a).
Proof. unfold py_range. by rewrite length_map, length_seq. Qed.

Lemma py_range_cons (a b : Z) :
  a < b -> py_range a b = a :: py_range (a + 1) b.
Proof.
  intros Hab. unfold py_range.
  replace (Z.to_nat (b - a)) with (S (Z.to_nat (b - (a + 1)))) by lia.
  cbn [seq map]. f_equal; [lia|].
  rewrite <- seq_shift, map_map. apply map_ext. intros k. lia.
Qed.

Lemma py_range_nil (a b : Z) : b <= a -> py_range a b = [].
Proof.
  intros Hab. unfold py_range. by replace (Z.to_nat (b - a)) with 0%nat by lia.
Qed.

Lemma tuple_getitem_Ok {A} (t : list A) (i : Z) :
  0 <= i < Z.of_nat (length t) ->
  exists x, tuple_getitem t i = Ok x /\ t !! Z.to_nat i = Some x.
Proof.
  intros Hi. unfold tuple_getitem.
  destruct (Z.ltb_spec i 0); [lia|].
  destruct (Z.ltb_spec i 0); [lia|].
  destruct (Z.leb_spec (Z.of_nat (length t)) i); [lia|]. cbn.
  destruct (lookup_lt_is_Some_2 t (Z.to_nat i)) as [x Hx]; [lia|].
  rewrite Hx. eauto.
Qed.

Lemma tuple_getitem_Raise {A} (t : list A) (i : Z) e :
  tuple_getitem t i = Raise e -> e = IndexError.
Proof.
  unfold tuple_getitem.
  repeat (case_match; try discriminate); by inversion 1.
Qed.

(** Indexing two tuples of one length at one index fails on both or on
    neither. *)
Lemma tuple_getitem_same_length {A B} (s : list A) (t : list B) (i : Z) x :
  length s = length t -> tuple_getitem s i = Ok x ->
  exists y, tuple_getitem t i = Ok y.
Proof.
  unfold tuple_getitem. intros Hlen. rewrite <- Hlen.
  destruct ((_ <? 0) || _); [discriminate|].
  destruct (s !! _) eqn:Hs; [|discriminate]. intros _.
  apply lookup_lt_Some in Hs.
  destruct (lookup_lt_is_Some_2 t (Z.to_nat (if i <? 0 then i + Z.of_nat (length s) else i)))
    as [y Hy]; [lia|].
  rewrite Hy. eauto.
Qed.

Lemma floor_quotient_div (a b : Z) :
  b <> 0 -> floor_quotient a b (a / b).
Proof.
  intros Hb. unfold floor_quotient.
  pose proof (Z.div_mod a b Hb) as Hdm.
  destruct (Z.lt_trichotomy b 0) as [Hneg|[->|Hpos]]; [right | done | left].
  - pose proof (Z.mod_neg_bound a b Hneg). split; [done|]. nia.
  - pose proof (Z.mod_pos_bound a b Hpos). split; [done|]. nia.
Qed.

Lemma floor_quotient_unique (a b q : Z) :
  floor_quotient a b q -> b <> 0 /\ q = a / b.
Proof.
  intros [[Hb Hq]|[Hb Hq]]; (split; [lia|]).
  - apply (Z.div_unique_pos a b q (a - b * q)); lia.
  - apply (Z.div_unique_neg a b q (a - b * q)); lia.
Qed.

Lemma len_spec (self : RailDataset) (n : Z) :
  __len__ self = Ok n <-> floor_quotient (corpus_size self) (batch_size self) n.
Proof.
  unfold __len__, corpus_size. destruct (Z.eqb_spec (batch_size self) 0) as [H0|Hne].
  - split; [discriminate|]. intros H. apply floor_quotient_unique in H. tauto.
  - split.
    + intros H. inversion H. by apply floor_quotient_div.
    + intros H. apply floor_quotient_unique in H as [_ ->]. done.
Qed.

(** With at least one sample per batch, the file indices of a batch
    below [len] are inside the path tuples. *)
Lemma file_indices_in_bounds (self : RailDataset) (b n : Z) :
  1 <= batch_size self -> __len__ self = Ok n -> 0 <= b < n ->
  Forall (fun i => 0 <= i < corpus_size self) (file_indices self b).
Proof.
  intros Hbs Hlen Hb. apply len_spec in Hlen as [[_ Hq]|[Hneg _]]; [|lia].
  apply Forall_forall. intros i Hi. apply elem_of_py_range in Hi. nia.
Qed.

(** ** The steps of the loop body *)

Lemma bind_inv {A B} (m : M A) (k : A -> M B) w r w' :
  (m ≫= k) w = (r, w') ->
  (exists a w1, m w = (Ok a, w1) /\ k a w1 = (r, w')) \/
  (exists e, m w = (Raise e, w') /\ r = Raise e).
Proof.
  rewrite bind_eq. destruct (m w) as [[a|e] w1]; [eauto|].
  intros H. inversion H. eauto.
Qed.

Lemma lift_inv {A} (r0 : result A) w r w' :
  lift r0 w = (r, w') -> r0 = r /\ w' = w.
Proof. unfold lift. by inversion 1. Qed.

(** Membership of a key in the list of the defaults. *)
Ltac in_defaults := apply list_elem_of_In; cbn; tauto.

Section Steps.

Variable E : externals.

Lemma image_open_inv path w r w' :
  image_open E path w = (r, w') ->
  w' = mk_world (w_rng w) (w_heap w) (w_trace w ++ [EvOpen path]) /\
  r = match pil_open E path with
      | Some img => Ok img
      | None => Raise (OSError path)
      end.
Proof.
  unfold image_open. rewrite bind_eq. cbn [log].
  destruct (pil_open E path); by inversion 1.
Qed.

Lemma image_open_Some path img w :
  pil_open E path = Some img ->
  image_open E path w =
    (Ok img, mk_world (w_rng w) (w_heap w) (w_trace w ++ [EvOpen path])).
Proof. intros H. unfold image_open. rewrite bind_eq. cbn [log]. by rewrite H. Qed.

Lemma image_resize_Ok img size :
  1 <= size.1 -> 1 <= size.2 ->
  image_resize E img size =
    Ok (mk_image (im_bands img) (im_dtype img) (Z.to_nat size.1, Z.to_nat size.2)
          (pil_resample E img (Z.to_nat size.1) (Z.to_nat size.2))).
Proof.
  intros H1 H2. unfold image_resize.
  destruct (Z.ltb_spec size.1 1); [lia|]. destruct (Z.ltb_spec size.2 1); [lia|].
  reflexivity.
Qed.

Lemma image_resize_inv img size r :
  image_resize E img size = r ->
  r = Raise (ValueError ResizeNonPositive) \/
  r = Ok (mk_image (im_bands img) (im_dtype img) (Z.to_nat size.1, Z.to_nat size.2)
            (pil_resample E img (Z.to_nat size.1) (Z.to_nat size.2))).
Proof. unfold image_resize. intros <-. destruct (_ || _); auto. Qed.

Lemma dict_getitem_inv l k w r w' :
  dict_getitem l k w = (r, w') ->
  w' = w /\
  r = match deref w l !! k with
      | Some v => Ok v
      | None => Raise (KeyError k)
      end.
Proof. unfold dict_getitem. destruct (deref w l !! k); by inversion 1. Qed.

Lemma compose_inv self w r w' :
  compose self w = (r, w') ->
  w' = w /\ ((exists t, r = Ok t) \/ (exists k, r = Raise (KeyError k))).
Proof.
  unfold compose. intros H.
  repeat
    (apply bind_inv in H as [(? & ? & Hs & H) | (? & Hs & ->)];
     apply dict_getitem_inv in Hs as [-> ?];
     [| split; [done|]; right; case_match; [discriminate | simplify_eq; by eexists] ]).
  inversion H. eauto.
Qed.

Lemma compose_ready self w :
  chain_ready w self -> exists t, compose self w = (Ok t, w).
Proof.
  intros Hready. unfold compose, dict_getitem.
  assert (Hk : forall k, k ∈ chain_keys ->
                 exists v, deref w (tfs_prb self) !! k = Some v).
  { intros k Hk. destruct (Hready k Hk) as [v Hv]. eauto. }
  destruct (Hk "HorizontalFlip") as [v1 H1]; [in_defaults|].
  destruct (Hk "RandomBrightnessContrast") as [v2 H2]; [in_defaults|].
  destruct (Hk "RotateLimit") as [v3 H3]; [in_defaults|].
  destruct (Hk "Rotate") as [v4 H4]; [in_defaults|].
  destruct (Hk "MotionBlur") as [v5 H5]; [in_defaults|].
  rewrite !bind_eq, H1, !bind_eq, H2, !bind_eq, H3, !bind_eq, H4, !bind_eq, H5.
  eexists. reflexivity.
Qed.

Lemma call_augment_images_inv image_arr mask_arr bg ext p w r w' :
  call_augment_images E image_arr mask_arr bg ext p w = (r, w') ->
  (exists rng', w' = mk_world rng' (w_heap w) (w_trace w ++ [EvBackgroundSwap])) /\
  ((exists a, r = Ok a) \/ r = Raise AugmentationError).
Proof.
  unfold call_augment_images.
  destruct (augment_images E _ _ _ _ _ _) as [[a|] rng']; inversion 1; eauto.
Qed.

Lemma call_transform_inv t image_arr mask_arr w r w' :
  call_transform E t image_arr mask_arr w = (r, w') ->
  exists o rng',
    albumentations E t image_arr mask_arr (w_rng w) = (o, rng') /\
    w' = mk_world rng' (w_heap w) (w_trace w ++ [EvTransform]) /\
    r = match o with Some p => Ok p | None => Raise AugmentationError end.
Proof.
  unfold call_transform.
  destruct (albumentations E _ _ _ _) as [[a|] rng']; inversion 1; eauto.
Qed.

End Steps.

(** ** One sample: [acquire] *)

Lemma opened_app (t t' : list event) : opened (t ++ t') = opened t ++ opened t'.
Proof. unfold opened. apply flat_map_app. Qed.

Lemma augmentation_calls_app (t t' : list event) :
  augmentation_calls (t ++ t') = augmentation_calls t ++ augmentation_calls t'.
Proof. unfold augmentation_calls. apply flat_map_app. Qed.

(** Splits a run of [m ≫= k] into the run of the step [m], of which [Hn]
    then states the result, and the run of what follows. *)
Ltac step_as H Hn :=
  let Hs := fresh "Hs" in
  let Hres := fresh "Hres" in
  apply bind_inv in H as [(? & ? & Hs & H) | (? & Hs & Hres)];
  [| first [ discriminate Hres | injection Hres as <- | subst ] ];
  first
    [ apply lift_inv in Hs as [Hn ->]
    | apply image_open_inv in Hs as [-> Hn]
    | apply compose_inv in Hs as [-> Hn]
    | apply dict_getitem_inv in Hs as [-> Hn]
    | apply call_augment_images_inv in Hs as [[? ->] Hn]
    | apply call_transform_inv in Hs as (? & ? & Hn & -> & ?) ].

Tactic Notation "step" hyp(H) "as" ident(Hn) := step_as H Hn.

(** Computes the files that a trace built from [++] opened. *)
Ltac solve_opened :=
  cbn [w_trace w_heap w_rng];
  rewrite ?opened_app; cbn [opened flat_map app];
  rewrite ?app_nil_r, <- ?app_assoc; reflexivity.

Lemma data_np_asarray_nonempty (img : pil_image) :
  (0 < (im_size img).1)%nat -> (0 < (im_size img).2)%nat ->
  data (np_asarray img) <> [].
Proof.
  unfold np_asarray. destruct (im_size img) as [w h]. cbn [fst snd data].
  intros Hw Hh. destruct h as [|h]; [lia|]. destruct w as [|w]; [lia|].
  destruct (Pos.to_nat (im_bands img)) as [|c] eqn:Hc; [lia|].
  cbn. discriminate.
Qed.

Section Acquire.

Variable E : externals.

Lemma sample_paths_Ok self i x :
  length (img_pths self) = length (msk_pths self) ->
  tuple_getitem (img_pths self) i = Ok x ->
  exists y, tuple_getitem (msk_pths self) i = Ok y /\ sample_paths self i = [x; y].
Proof.
  intros Hlen Hx.
  destruct (tuple_getitem_same_length _ (msk_pths self) _ _ Hlen Hx) as [y Hy].
  exists y. unfold sample_paths. by rewrite Hx, Hy.
Qed.

(** [acquire] opens the image and then the mask of its file index and
    no other file, and leaves the heap as it is. *)
Lemma acquire_trace self i w r w' :
  length (img_pths self) = length (msk_pths self) ->
  acquire E self i w = (r, w') ->
  exists l,
    opened (w_trace w') = opened (w_trace w) ++ l /\
    l `prefix_of` sample_paths self i /\
    ((exists arrs, r = Ok arrs) -> l = sample_paths self i) /\
    w_heap w' = w_heap w.
Proof.
  intros Hlen H. unfold acquire in H.
  step H as Himg; cycle 1.
  { exists []. rewrite app_nil_r. repeat split; [apply prefix_nil | by intros [? ?]]. }
  destruct (sample_paths_Ok self i _ Hlen Himg) as (y & Hy & Hpaths).
  rewrite Hpaths.
  assert (Hone : forall w0 : world,
             w_trace w0 = w_trace w ++ [EvOpen x] -> w_heap w0 = w_heap w ->
             forall e : exn, exists l,
               opened (w_trace w0) = opened (w_trace w) ++ l /\
               l `prefix_of` [x; y] /\
               ((exists arrs : ndarray * ndarray, Raise e = Ok arrs) -> l = [x; y]) /\
               w_heap w0 = w_heap w).
  { intros w0 Ht Hh e. exists [x]. rewrite Ht, opened_app.
    repeat split; [by exists [y] | by intros [? ?] | done]. }
  assert (Htwo : forall (w0 : world) (r0 : result (ndarray * ndarray)),
             opened (w_trace w0) = opened (w_trace w) ++ [x; y] ->
             w_heap w0 = w_heap w ->
             exists l,
               opened (w_trace w0) = opened (w_trace w) ++ l /\
               l `prefix_of` [x; y] /\
               ((exists arrs : ndarray * ndarray, r0 = Ok arrs) -> l = [x; y]) /\
               w_heap w0 = w_heap w).
  { intros w0 r0 Ht Hh. exists [x; y]. by rewrite Ht. }
  step H as Hopen1; [|by apply Hone].
  step H as Hmsk; [|by apply Hone].
  rewrite Hy in Hmsk. injection Hmsk as <-.
  step H as Hr1; [|apply Htwo; [solve_opened | done]].
  step H as Hr2; [|apply Htwo; [solve_opened | done]].
  step H as Hr3; [|apply Htwo; [solve_opened | done]].
  step H as Hchain; [|apply Htwo; [solve_opened | done]].
  destruct (transforms self).
  - destruct (bg_dir_pth self) as [bg|].
    + step H as Hp; [|apply Htwo; [solve_opened | done]].
      step H as Haug; [|apply Htwo; [solve_opened | done]].
      apply call_transform_inv in H as (? & ? & ? & -> & ?).
      apply Htwo; [solve_opened | done].
    + inversion H. apply Htwo; [solve_opened | done].
  - inversion H. apply Htwo; [solve_opened | done].
Qed.

(** With both paths of the file index in the tuples, [acquire] raises no
    [IndexError]. *)
Lemma acquire_no_IndexError self i w e w' x y :
  tuple_getitem (img_pths self) i = Ok x ->
  tuple_getitem (msk_pths self) i = Ok y ->
  acquire E self i w = (Raise e, w') -> e <> IndexError.
Proof.
  intros Hx Hy H. unfold acquire in H.
  step H as Himg; [|congruence].
  step H as Hopen1; [|case_match; by simplify_eq].
  step H as Hmsk; [|congruence].
  step H as Hopen2; [|case_match; by simplify_eq].
  step H as Hr1; [|destruct (image_resize_inv E _ _ _ Hr1); by simplify_eq].
  step H as Hr2; [|destruct (image_resize_inv E _ _ _ Hr2); by simplify_eq].
  step H as Hchain; [|destruct Hchain as [[? ?]|[? ?]]; by simplify_eq].
  destruct (transforms self).
  - destruct (bg_dir_pth self) as [bg|].
    + step H as Hp; [|case_match; by simplify_eq].
      step H as Haug; [|destruct Haug as [[? ?]|?]; by simplify_eq].
      apply call_transform_inv in H as (o & ? & ? & -> & Hr).
      destruct o; by simplify_eq.
    + by inversion H.
  - by inversion H.
Qed.

(** With augmentation enabled and no background directory, [acquire]
    never returns and calls no augmentation. *)
Lemma acquire_no_background self i w r w' :
  transforms self = true -> bg_dir_pth self = None ->
  acquire E self i w = (r, w') ->
  (forall arrs, r <> Ok arrs) /\
  augmentation_calls (w_trace w') = augmentation_calls (w_trace w).
Proof.
  intros Ht Hbg H. unfold acquire in H. rewrite Ht, Hbg in H.
  assert (Hcalls : forall t, augmentation_calls t = [] ->
            augmentation_calls (w_trace w ++ t) = augmentation_calls (w_trace w)).
  { intros t Ht0. by rewrite augmentation_calls_app, Ht0, app_nil_r. }
  step H as Himg; [|split; [done | by rewrite <- (Hcalls []), app_nil_r]].
  step H as Hopen1; [|split; [done | by apply Hcalls]].
  step H as Hmsk; [|split; [done | by apply Hcalls]].
  assert (Hcalls2 : forall p q,
            augmentation_calls ((w_trace w ++ [EvOpen p]) ++ [EvOpen q])
            = augmentation_calls (w_trace w)).
  { intros p q. rewrite <- app_assoc. by apply Hcalls. }
  step H as Hopen2; [|split; [done | apply Hcalls2]].
  step H as Hr1; [|split; [done | apply Hcalls2]].
  step H as Hr2; [|split; [done | apply Hcalls2]].
  step H as Hchain; [|split; [done | apply Hcalls2]].
  inversion H. split; [done | apply Hcalls2].
Qed.

Lemma chain_ready_heap w w0 self :
  w_heap w0 = w_heap w -> chain_ready w self -> chain_ready w0 self.
Proof. intros Hh Hr k Hk. unfold deref. rewrite Hh. by apply Hr. Qed.

(** When the two files of the sample load, that failure is the
    background-path [ValueError], raised right after opening them. *)
Lemma acquire_no_background_raises self i w x y image_img mask_img :
  transforms self = true -> bg_dir_pth self = None ->
  1 <= (res self).1 -> 1 <= (res self).2 -> chain_ready w self ->
  tuple_getitem (img_pths self) i = Ok x -> pil_open E x = Some image_img ->
  tuple_getitem (msk_pths self) i = Ok y -> pil_open E y = Some mask_img ->
  acquire E self i w = (Raise (ValueError BackgroundPathNone), after_open w x y).
Proof.
  intros Ht Hbg Hr1 Hr2 Hready Hx Hox Hy Hoy. unfold acquire.
  rewrite Hx. rewrite (bind_Ok _ _ _ x w) by reflexivity.
  rewrite (bind_Ok _ _ _ _ _ (image_open_Some E x _ _ Hox)).
  rewrite Hy. rewrite (bind_Ok _ _ _ y _) by reflexivity.
  rewrite (bind_Ok _ _ _ _ _ (image_open_Some E y _ _ Hoy)).
  rewrite !image_resize_Ok by done.
  rewrite (bind_Ok (lift (Ok _)) _ _ _ _ eq_refl).
  rewrite (bind_Ok (lift (Ok _)) _ _ _ _ eq_refl).
  match goal with
  | |- (compose self ≫= _) ?w0 = _ =>
      destruct (compose_ready self w0) as [t Hcomp];
        [by apply (chain_ready_heap w) |];
      rewrite (bind_Ok _ _ _ _ _ Hcomp)
  end.
  rewrite Ht, Hbg. unfold raise, after_open. cbn. by rewrite <- app_assoc.
Qed.

Lemma shape_np_asarray img :
  shape (np_asarray img) =
  if (Pos.to_nat (im_bands img) =? 1)%nat
  then [(im_size img).2; (im_size img).1]
  else [(im_size img).2; (im_size img).1; Pos.to_nat (im_bands img)].
Proof. unfold np_asarray. by destruct (im_size img). Qed.


(** Without augmentation the mask that reaches the check is the resized
    raster, which has at least one element. *)
Lemma acquire_mask_nonempty self i w image_arr mask_arr w' :
  1 <= (res self).1 -> 1 <= (res self).2 -> transforms self = false ->
  acquire E self i w = (Ok (image_arr, mask_arr), w') ->
  data mask_arr <> [].
Proof.
  intros Hres1 Hres2 Ht H. unfold acquire in H. rewrite Ht in H.
  step H as Himg. step H as Hopen1. step H as Hmsk. step H as Hopen2.
  step H as Hr1. step H as Hr2. step H as Hchain.
  rewrite image_resize_Ok in Hr2 by done. injection Hr2 as <-.
  inversion H. subst. apply data_np_asarray_nonempty; cbn; lia.
Qed.

End Acquire.

(** ** The order of array elements *)












(** ** float32 *)


Lemma round_half_even_le (n d M : Z) :
  0 < d -> n <= M * d -> round_half_even n d <= M.
Proof.
  intros Hd Hn. unfold round_half_even.
  assert (Hf : n / d <= M) by (apply Z.div_le_upper_bound; lia).
  pose proof (Z.mod_pos_bound n d Hd) as Hmod.
  pose proof (Z.div_mod n d ltac:(lia)) as Hdm.
  destruct (Z.eq_dec (n / d) M) as [Heq|Hne].
  - assert (n mod d = 0) by nia.
    replace (2 * (n mod d) ?= d) with Lt; [lia|].
    symmetry. apply Z.compare_lt_iff. lia.
  - destruct (2 * (n mod d) ?= d); [destruct (Z.even _)| |]; lia.
Qed.

Lemma round_half_even_nonneg (n d : Z) :
  0 < d -> 0 <= n -> 0 <= round_half_even n d.
Proof.
  intros Hd Hn. unfold round_half_even.
  assert (0 <= n / d) by (apply Z.div_pos; lia).
  destruct (2 * (n mod d) ?= d); [destruct (Z.even _)| |]; lia.
Qed.

Lemma exponent_le (n d : Z) : exponent n d <= Z.log2 n - Z.log2 d.
Proof.
  unfold exponent. destruct (scale n d _) as [N D]. destruct (D <=? N); lia.
Qed.

(** A value of at most [L <= 2 ^ 22] has an exponent below 23. *)
Lemma exponent_small (n d L : Z) :
  0 < n -> 0 < d -> n <= L * d -> L <= 2 ^ 22 -> exponent n d <= 22.
Proof.
  intros Hn Hd Hle HL. pose proof (exponent_le n d) as He.
  destruct (Z.le_gt_cases (Z.log2 n - Z.log2 d) 22) as [|Hbig]; [lia|]. exfalso.
  destruct (Z.log2_spec n Hn) as [Hn1 _]. destruct (Z.log2_spec d Hd) as [_ Hd2].
  pose proof (Z.log2_nonneg d) as Hd0.
  assert (Hpow : 2 ^ (Z.succ (Z.log2 d)) * 2 ^ 22 <= 2 ^ Z.log2 n).
  { rewrite <- Z.pow_add_r by lia. apply Z.pow_le_mono_r; lia. }
  assert (0 < 2 ^ 22) by lia.
  nia.
Qed.

Lemma round_f32_between (q : Q) (L : Z) :
  1 <= L <= 2 ^ 22 -> (0 <= q <= inject_Z L)%Q ->
  between 0 (inject_Z L) (round_f32 q).
Proof.
  intros HL [H0 H1]. destruct q as [n d]. unfold round_f32. cbn [Qnum Qden].
  unfold Qle in H0, H1. cbn in H0, H1.
  destruct n as [|n|n]; [| |lia].
  { cbn. split; [apply Qle_refl|]. change 0%Q with (inject_Z 0).
    rewrite <- Zle_Qle. lia. }
  unfold round_f32_pos.
  pose proof (exponent_small (Z.pos n) (Z.pos d) L ltac:(lia) ltac:(lia) ltac:(lia)
                ltac:(lia)) as He.
  set (k := Z.max (exponent (Z.pos n) (Z.pos d)) (-126) - 23).
  assert (Hk : k < 0) by lia.
  unfold scale. destruct (Z.leb_spec 0 k) as [|_]; [lia|].
  set (P := 2 ^ (- k)). assert (HP : 0 < P) by (apply Z.pow_pos_nonneg; lia).
  set (r := round_half_even (Z.pos n * P) (Z.pos d)).
  assert (Hr0 : 0 <= r) by (apply round_half_even_nonneg; lia).
  assert (Hr1 : r <= L * P) by (apply round_half_even_le; nia).
  cbn [between]. rewrite Qred_correct. unfold Qle. cbn [Qnum Qden inject_Z].
  rewrite Z2Pos.id by done. split; nia.
Qed.

Lemma f32_between (L : Z) (v : scalar) :
  1 <= L <= 2 ^ 22 -> between 0 (inject_Z L) v -> between 0 (inject_Z L) (f32 v).
Proof.
  intros HL Hv. destruct v as [q| | |]; try done. by apply round_f32_between.
Qed.

Lemma f32_div_255_between (v : scalar) :
  between 0 255 v -> between 0 1 (f32_div_255 v).
Proof.
  destruct v as [q| | |]; try done. intros [H0 H1].
  apply (round_f32_between (q / 255) 1); [lia|]. split.
  - apply Qle_shift_div_l; [done|]. by rewrite Qmult_0_l.
  - apply Qle_shift_div_r; [done|]. by rewrite Qmult_1_l.
Qed.

(** ** The bound check on the mask *)























(** ** Packaging of one sample *)



(** ** One sample: [load_sample] *)

Lemma package_Raise image_arr mask_arr e :
  package (image_arr, mask_arr) = Raise e -> exists v, e = ValueError v.
Proof.
  unfold package, validate_mask, np_max, np_min, transpose_012, transpose_120.
  cbn. intros H. repeat case_match; simplify_eq; by eexists.
Qed.

Section Batch.

Variable E : externals.

Lemma load_sample_inv self i w r w' :
  load_sample E self i w = (r, w') ->
  (exists arrs, acquire E self i w = (Ok arrs, w') /\ r = package arrs) \/
  (exists e, acquire E self i w = (Raise e, w') /\ r = Raise e).
Proof.
  unfold load_sample. intros H.
  apply bind_inv in H as [(arrs & w1 & Hacq & H) | (e & Hacq & ->)]; [|eauto].
  apply lift_inv in H as [<- ->]. eauto.
Qed.

Lemma load_sample_trace self i w r w' :
  length (img_pths self) = length (msk_pths self) ->
  load_sample E self i w = (r, w') ->
  exists l,
    opened (w_trace w') = opened (w_trace w) ++ l /\
    l `prefix_of` sample_paths self i /\
    ((exists arrs, r = Ok arrs) -> l = sample_paths self i) /\
    w_heap w' = w_heap w.
Proof.
  intros Hlen H.
  apply load_sample_inv in H as [(arrs & Hacq & ->) | (e & Hacq & ->)];
    destruct (acquire_trace E self i w _ w' Hlen Hacq) as (l & Ht & Hpre & Hfull & Hh);
    exists l; (split; [exact Ht|]); (split; [exact Hpre|]); (split; [|exact Hh]).
  - intros _. apply Hfull. by eexists.
  - by intros [? ?].
Qed.

Lemma load_sample_no_IndexError self i w e w' x y :
  tuple_getitem (img_pths self) i = Ok x ->
  tuple_getitem (msk_pths self) i = Ok y ->
  load_sample E self i w = (Raise e, w') -> e <> IndexError.
Proof.
  intros Hx Hy H.
  apply load_sample_inv in H as [([im mk] & Hacq & Hpk) | (e' & Hacq & Heq)].
  - symmetry in Hpk. by apply package_Raise in Hpk as [v ->].
  - injection Heq as ->. by eapply acquire_no_IndexError.
Qed.



(** ** The loop over the file indices *)

Lemma for_file_idx_cons_inv self i idxs il ml w r w' :
  for_file_idx E self (i :: idxs) il ml w = (r, w') ->
  (exists im mk w1,
     load_sample E self i w = (Ok (im, mk), w1) /\
     for_file_idx E self idxs (il ++ [im]) (ml ++ [mk]) w1 = (r, w')) \/
  (exists e, load_sample E self i w = (Raise e, w') /\ r = Raise e).
Proof.
  cbn [for_file_idx]. intros H.
  apply bind_inv in H as [([im mk] & w1 & Hs & H) | (e & Hs & ->)]; eauto 10.
Qed.


Lemma for_file_idx_trace self idxs il ml w r w' :
  length (img_pths self) = length (msk_pths self) ->
  for_file_idx E self idxs il ml w = (r, w') ->
  exists l,
    opened (w_trace w') = opened (w_trace w) ++ l /\
    l `prefix_of` flat_map (sample_paths self) idxs /\
    ((exists lists, r = Ok lists) -> l = flat_map (sample_paths self) idxs) /\
    w_heap w' = w_heap w.
Proof.
  intros Hlen. revert il ml w. induction idxs as [|i idxs IH]; intros il ml w H.
  - cbn in H. inversion H. exists []. by rewrite app_nil_r.
  - cbn [flat_map].
    apply for_file_idx_cons_inv in H as [(im & mk & w1 & Hs & H) | (e & Hs & ->)].
    + apply (load_sample_trace _ _ _ _ _ Hlen) in Hs as (l1 & Ht1 & _ & Hfull & Hh1).
      rewrite (Hfull ltac:(by eexists)) in Ht1.
      apply IH in H as (l2 & Ht2 & Hpre & Hfull2 & Hh2).
      exists (sample_paths self i ++ l2).
      rewrite Ht2, Ht1, <- app_assoc. split; [done|].
      split; [by apply prefix_app|].
      split; [|congruence]. intros Hok. by rewrite (Hfull2 Hok).
    + apply (load_sample_trace _ _ _ _ _ Hlen) in Hs as (l1 & Ht1 & Hpre & _ & Hh1).
      exists l1. split; [done|]. split; [by apply prefix_app_r|].
      split; [by intros [? ?] | done].
Qed.

Lemma for_file_idx_no_IndexError self idxs il ml w e w' :
  Forall (fun i => (exists x, tuple_getitem (img_pths self) i = Ok x) /\
                   (exists y, tuple_getitem (msk_pths self) i = Ok y)) idxs ->
  for_file_idx E self idxs il ml w = (Raise e, w') -> e <> IndexError.
Proof.
  intros Hall. revert il ml w.
  induction Hall as [|i idxs [[x Hx] [y Hy]] _ IH]; intros il ml w H.
  - by inversion H.
  - apply for_file_idx_cons_inv in H as [(im & mk & w1 & Hs & H) | (e' & Hs & Heq)].
    + by eapply IH.
    + injection Heq as ->. by eapply load_sample_no_IndexError.
Qed.

Lemma for_file_idx_no_background self idxs il ml w r w' :
  transforms self = true -> bg_dir_pth self = None ->
  for_file_idx E self idxs il ml w = (r, w') ->
  (forall lists, r = Ok lists -> idxs = [] /\ lists = (il, ml)) /\
  augmentation_calls (w_trace w') = augmentation_calls (w_trace w).
Proof.
  intros Ht Hbg H. destruct idxs as [|i idxs].
  - cbn in H. inversion H. split; [|done]. by intros ? [= <-].
  - apply for_file_idx_cons_inv in H as [(im & mk & w1 & Hs & H) | (e' & Hs & ->)].
    + apply load_sample_inv in Hs as [(arrs & Hacq & _) | (e & _ & ?)]; [|done].
      destruct (acquire_no_background E self i w _ _ Ht Hbg Hacq) as [Hno _].
      by destruct (Hno arrs).
    + split; [done|].
      apply load_sample_inv in Hs as [(arrs & Hacq & _) | (e & Hacq & _)];
        by destruct (acquire_no_background E self i w _ _ Ht Hbg Hacq).
Qed.

(** ** [__getitem__] *)

Lemma file_indices_cons self b :
  1 <= batch_size self ->
  file_indices self b = b :: py_range (b + 1) (b + batch_size self).
Proof. intros Hbs. unfold file_indices. apply py_range_cons. lia. Qed.

Lemma length_file_indices self b :
  length (file_indices self b) = Z.to_nat (batch_size self).
Proof. unfold file_indices. rewrite length_py_range. f_equal. lia. Qed.

Lemma getitem_inv self b w r w' :
  __getitem__ E self b w = (r, w') ->
  (exists il ml,
     for_file_idx E self (file_indices self b) [] [] w = (Ok (il, ml), w') /\
     r = match np_stack il with
         | Raise e => Raise e
         | Ok img_batch =>
             match np_stack ml with
             | Raise e => Raise e
             | Ok msk_batch => Ok (img_batch, msk_batch)
             end
         end) \/
  (exists e,
     for_file_idx E self (file_indices self b) [] [] w = (Raise e, w') /\
     r = Raise e).
Proof.
  unfold __getitem__. rewrite bind_eq.
  destruct (for_file_idx E self _ [] [] w) as [[[il ml]|e] w1];
    [|inversion 1; eauto].
  rewrite bind_eq. unfold lift at 1.
  destruct (np_stack il) as [ib|e1] eqn:Hil;
    [|inversion 1; left; exists il, ml; by rewrite Hil].
  rewrite bind_eq. unfold lift at 1.
  destruct (np_stack ml) as [mb|e2] eqn:Hml;
    inversion 1; left; exists il, ml; by rewrite Hil, Hml.
Qed.

(** When the first sample of the batch fails, the fetch fails with it. *)
Lemma getitem_first_raises self b w e w' :
  1 <= batch_size self ->
  load_sample E self b w = (Raise e, w') ->
  __getitem__ E self b w = (Raise e, w').
Proof.
  intros Hbs H. unfold __getitem__. rewrite file_indices_cons by done.
  cbn [for_file_idx]. rewrite !bind_eq, H. reflexivity.
Qed.

Lemma np_stack_Raise arrays e :
  np_stack arrays = Raise e -> exists v, e = ValueError v.
Proof. unfold np_stack. intros H. repeat case_match; simplify_eq; by eexists. Qed.

Lemma np_stack_Ok_inv arrays batch :
  np_stack arrays = Ok batch ->
  exists a rest,
    arrays = a :: rest /\ shape batch = length arrays :: shape a /\
    arr_dtype batch = arr_dtype a /\ data batch = concat (map data arrays).
Proof.
  unfold np_stack. destruct arrays as [|a rest]; [done|].
  destruct (forallb _ rest); [|done]. intros [= <-]. by exists a, rest.
Qed.

End Batch.

(** * The claims *)

(** The paths of every file index of a batch below [len] exist. *)
Lemma file_indices_paths (E : externals) (self : RailDataset) (b n : Z) :
  reachable E self -> 1 <= batch_size self -> __len__ self = Ok n -> 0 <= b < n ->
  Forall (fun i =>
            0 <= i < corpus_size self /\
            exists img_pth msk_pth,
              tuple_getitem (img_pths self) i = Ok img_pth /\
              tuple_getitem (msk_pths self) i = Ok msk_pth /\
              img_pths self !! Z.to_nat i = Some img_pth /\
              msk_pths self !! Z.to_nat i = Some msk_pth /\
              sample_paths self i = [img_pth; msk_pth])
    (file_indices self b).
Proof.
  intros Hreach Hbs Hlen Hb.
  destruct (reachable_inv E self Hreach) as (_ & [Hlens _] & _).
  eapply Forall_impl; [by eapply file_indices_in_bounds|].
  intros i Hi. split; [done|]. unfold corpus_size in Hi.
  destruct (tuple_getitem_Ok (img_pths self) i Hi) as (x & Hx & Hlx).
  destruct (tuple_getitem_Ok (msk_pths self) i) as (y & Hy & Hly); [by rewrite <- Hlens|].
  exists x, y. unfold sample_paths. by rewrite Hx, Hy.
Qed.

(** C4. For every constructed RailDataset with 1 <= batch_size <=
    corpus_size and every batch index b in [0, length()), every file index
    of the batch, b through b+batch_size-1, is at least 0 and strictly
    less than the corpus size, both path tuples have an entry there, and
    the fetch raises no IndexError. *)
Theorem C4_file_indices_in_bounds (E : externals) (self : RailDataset) (b n : Z) :
  reachable E self ->
  1 <= batch_size self <= corpus_size self ->
  __len__ self = Ok n -> 0 <= b < n ->
  Forall (fun i =>
            b <= i <= b + batch_size self - 1 /\
            0 <= i < corpus_size self /\
            (exists img_pth, tuple_getitem (img_pths self) i = Ok img_pth) /\
            (exists msk_pth, tuple_getitem (msk_pths self) i = Ok msk_pth))
    (file_indices self b) /\
  (forall w w', __getitem__ E self b w <> (Raise IndexError, w')).
Proof.
  intros Hreach [Hbs _] Hlen Hb.
  pose proof (file_indices_paths E self b n Hreach Hbs Hlen Hb) as Hpaths.
  split.
  - apply Forall_forall. intros i Hi. rewrite Forall_forall in Hpaths.
    destruct (Hpaths i Hi) as (Hrange & x & y & Hx & Hy & _).
    unfold file_indices in Hi. apply elem_of_py_range in Hi.
    split; [lia|]. split; [done|]. eauto.
  - intros w w' H.
    apply getitem_inv in H as [(il & ml & Hloop & Hr) | (e & Hloop & [= <-])].
    + destruct (np_stack il) as [ib|e1] eqn:Hil.
      * destruct (np_stack ml) as [mb|e2] eqn:Hml; [done|].
        apply np_stack_Raise in Hml as [v ->]. done.
      * apply np_stack_Raise in Hil as [v ->]. done.
    + eapply (for_file_idx_no_IndexError E self); [|exact Hloop|done].
      eapply Forall_impl; [exact Hpaths|].
      intros i (_ & x & y & Hx & Hy & _). eauto.
Qed.

(** C6. For every constructed RailDataset, length() equals
    floor(corpus_size / batch_size): it returns n exactly when n is that
    floor, which is the value of the floor division whenever batch_size
    is not 0 (no floor exists for batch_size 0, and the division raises).
    For a positive batch_size the n batches fit into the corpus and
    less than one batch is left over. *)
Theorem C6_len_is_floor (E : externals) (self : RailDataset) :
  reachable E self ->
  (forall n, __len__ self = Ok n <->
             floor_quotient (corpus_size self) (batch_size self) n) /\
  (batch_size self <> 0 ->
   __len__ self = Ok (corpus_size self / batch_size self)) /\
  (batch_size self = 0 -> __len__ self = Raise ZeroDivisionError) /\
  (0 < batch_size self ->
   exists n, __len__ self = Ok n /\ 0 <= n /\
             n * batch_size self <= corpus_size self
               < n * batch_size self + batch_size self).
Proof.
  intros _. split; [apply len_spec|].
  split. { intros Hne. apply len_spec. by apply floor_quotient_div. }
  split. { intros H0. unfold __len__. by rewrite H0. }
  intros Hpos. exists (corpus_size self / batch_size self).
  pose proof (floor_quotient_div (corpus_size self) (batch_size self)) as Hfl.
  split; [apply len_spec, Hfl; lia|].
  destruct Hfl as [[_ Hq]|[Hneg _]]; [lia| |lia].
  split; [|lia]. apply Z.div_pos; [unfold corpus_size|]; lia.
Qed.

(** C9. Every constructed RailDataset has an image-path tuple and a
    mask-path tuple of equal length with matching filename stems at
    every position, and on_epoch_end() returns and preserves this: the
    aligned (image path, mask path) pairs after the call are a
    permutation of the pairs before it. *)
Theorem C9_alignment_invariant (E : externals) (self : RailDataset) :
  reachable E self ->
  aligned self /\
  forall w, exists self' w',
    on_epoch_end self w = (Ok self', w') /\
    aligned self' /\
    sample_pairs self' ≡ₚ sample_pairs self.
Proof.
  intros Hreach. destruct (reachable_inv E self Hreach) as (Hne & Hal & _).
  split; [exact Hal|]. intros w.
  destruct (on_epoch_end_spec self w Hne Hal) as (s' & w' & Hrun & Hperm & Hal' & _).
  eauto.
Qed.

(** ** The dict after construction *)

Lemma tfs_defaults_lookup (k : string) (v : pyval) :
  (k, v) ∈ tfs_defaults ->
  (list_to_map tfs_defaults : gmap string pyval) !! k = Some v.
Proof.
  intros Hin. apply elem_of_list_to_map_1; [|done].
  apply (bool_decide_unpack _). by vm_compute.
Qed.

Lemma tfs_defaults_lookup_None (k : string) :
  k ∉ tfs_defaults.*1 ->
  (list_to_map tfs_defaults : gmap string pyval) !! k = None.
Proof. apply not_elem_of_list_to_map_1. Qed.

(** What a successful construction leaves at the location of its dict. *)
Lemma init_dict (E : externals) (a : init_args) (w : world)
    (self : RailDataset) (w' : world) (d : gmap string pyval) :
  let l := default tfs_prb_default (a_tfs_prb a) in
  w_heap w !! l = Some d ->
  __init__ E a w = (Ok self, w') ->
  tfs_prb self = l /\
  w_heap w' !! l = Some (d ∪ list_to_map tfs_defaults) /\
  (forall l', l' <> l -> w_heap w' !! l' = w_heap w !! l').
Proof.
  intros l Hd H.
  apply init_Ok_inv in H as (sh & _ & _ & _ & _ & _ & -> & Hderef & Hother & Hsome & _).
  fold l in Hderef, Hother, Hsome. split; [done|]. split; [|done].
  destruct Hsome as [d' Hd']; [by eexists|].
  unfold deref in Hderef. rewrite Hd, Hd' in Hderef.
  rewrite Hd'. f_equal. exact Hderef.
Qed.

(** The constructor leaves the dict with the keys that the chain reads,
    and the methods of the class do not touch the heap. *)
Lemma init_tfs_ready (E : externals) (a : init_args) (w : world)
    (self : RailDataset) (w' : world) :
  __init__ E a w = (Ok self, w') -> tfs_ready w' self.
Proof.
  intros H k Hk.
  apply init_Ok_inv in H as (sh & _ & _ & _ & _ & _ & -> & Hderef & _).
  cbn [tfs_prb]. rewrite Hderef. apply lookup_union_is_Some. right.
  apply list_elem_of_fmap in Hk as ([k' v] & -> & Hin).
  exists v. by apply tfs_defaults_lookup.
Qed.

Lemma getitem_heap (E : externals) (self : RailDataset) (b : Z) (w : world)
    (r : result (ndarray * ndarray)) (w' : world) :
  reachable E self -> __getitem__ E self b w = (r, w') -> w_heap w' = w_heap w.
Proof.
  intros Hreach H.
  destruct (reachable_inv E self Hreach) as (_ & [Hlens _] & _).
  apply getitem_inv in H as [(il & ml & Hloop & _) | (e & Hloop & _)];
    by destruct (for_file_idx_trace E self _ _ _ _ _ _ Hlens Hloop) as (? & _ & _ & _ & ?).
Qed.

(** C8. For every caller-supplied transform-probability mapping, after
    construction the stored mapping is the caller's dict object, and it
    assigns to each of the six recognized keys the caller's value when the
    caller supplied the key and the default otherwise; every
    caller-supplied key, recognized or not, is still present with its
    value, and no key other than these is present. *)
Theorem C8_defaults_merged (E : externals) (a : init_args) (w : world)
    (self : RailDataset) (w' : world) (l : loc) (d : gmap string pyval) :
  a_tfs_prb a = Some l -> w_heap w !! l = Some d ->
  __init__ E a w = (Ok self, w') ->
  exists d',
    tfs_prb self = l /\ w_heap w' !! l = Some d' /\
    (forall k v, (k, v) ∈ tfs_defaults -> d' !! k = Some (default v (d !! k))) /\
    (forall k v, d !! k = Some v -> d' !! k = Some v) /\
    (forall k, is_Some (d' !! k) <-> is_Some (d !! k) \/ k ∈ tfs_defaults.*1).
Proof.
  intros Ha Hd H.
  destruct (init_dict E a w self w' d) as (Hl & Hd' & _); [by rewrite Ha | done |].
  rewrite Ha in Hl, Hd'. cbn in Hl, Hd'.
  exists (d ∪ list_to_map tfs_defaults). split; [done|]. split; [done|].
  split.
  { intros k v Hin. apply tfs_defaults_lookup in Hin.
    destruct (d !! k) as [x|] eqn:Hk; cbn.
    - by apply lookup_union_Some_l.
    - by rewrite lookup_union_r. }
  split. { intros k v Hk. by apply lookup_union_Some_l. }
  intros k. rewrite lookup_union_is_Some. split.
  - intros [?|[v Hv]]; [by left|]. right.
    destruct (decide (k ∈ tfs_defaults.*1)) as [|Hnot]; [done|].
    rewrite tfs_defaults_lookup_None in Hv; done.
  - intros [?|Hin]; [by left|]. right.
    apply list_elem_of_fmap in Hin as ([k' v] & -> & Hin).
    exists v. by apply tfs_defaults_lookup.
Qed.

(** C10. Construction stores the reference of the caller's dict, or of
    the one default dict of the class when the argument is left out, and
    writes the missing default keys into that dict object in place:
    where a default key was missing the caller's dict has changed, and no
    other dict has.  Instances constructed without the argument hold the
    same dict object, so what is written through one is read through the
    other, also by a later construction. *)
Theorem C10_dict_shared_and_mutated (E : externals) (a : init_args) (w : world)
    (self : RailDataset) (w' : world) (d : gmap string pyval) :
  w_heap w !! default tfs_prb_default (a_tfs_prb a) = Some d ->
  __init__ E a w = (Ok self, w') ->
  (forall l, a_tfs_prb a = Some l -> tfs_prb self = l) /\
  (a_tfs_prb a = None -> tfs_prb self = tfs_prb_default) /\
  w_heap w' !! tfs_prb self = Some (d ∪ list_to_map tfs_defaults) /\
  (forall l', l' <> tfs_prb self -> w_heap w' !! l' = w_heap w !! l') /\
  (forall k, k ∈ tfs_defaults.*1 -> d !! k = None ->
     w_heap w' !! tfs_prb self <> w_heap w !! tfs_prb self) /\
  (forall a2 w2 self2 w2',
     a_tfs_prb a = None -> a_tfs_prb a2 = None ->
     __init__ E a2 w2 = (Ok self2, w2') ->
     tfs_prb self2 = tfs_prb self /\
     forall k v,
       deref w2 (tfs_prb self) !! k = Some v ->
       deref w2' (tfs_prb self2) !! k = Some v).
Proof.
  intros Hd H.
  destruct (init_dict E a w self w' d Hd H) as (Hl & Hd' & Hother).
  rewrite <- Hl in Hd', Hother, Hd.
  split. { intros l Ha. by rewrite Hl, Ha. }
  split. { intros Ha. by rewrite Hl, Ha. }
  split; [done|]. split; [done|].
  split.
  { intros k Hk Hnone. rewrite Hd', Hd. intros Heq.
    assert (Heq' : d ∪ list_to_map tfs_defaults = d) by congruence.
    apply list_elem_of_fmap in Hk as ([k' v] & -> & Hin).
    apply tfs_defaults_lookup in Hin.
    assert (Hk : (d ∪ list_to_map tfs_defaults) !! k' = Some v)
      by by rewrite lookup_union_r.
    rewrite Heq' in Hk. cbn in Hnone. congruence. }
  intros a2 w2 self2 w2' Ha Ha2 H2.
  apply init_Ok_inv in H2 as (sh & _ & _ & _ & _ & _ & -> & Hderef & _).
  rewrite Ha2 in Hderef. cbn in Hderef. cbn [tfs_prb].
  rewrite Ha2, Hl, Ha. cbn. split; [done|].
  intros k v Hk. rewrite Hderef. by apply lookup_union_Some_l.
Qed.

(** ** The count check of the constructor *)

(** The check of lines 83-89 compares the two tuples that line 76 unpacked
    from one list of pairs: it never fails, whatever the two directories
    hold. *)
Lemma init_never_AmountMismatch (E : externals) (a : init_args) (w : world)
    (e : exn) (w' : world) :
  __init__ E a w = (Raise e, w') ->
  forall n m, e <> ValueError (AmountMismatch n m).
Proof.
  intros H n m. unfold __init__ in H.
  apply bind_inv in H as [(sh & w1 & Hsh & H) | (e' & Hsh & _)]; cycle 1.
  { destruct (random_shuffle_spec
      (zip (sorted (glob E (path_join (a_imgs_pth a) ("*." +:+ a_img_ftype a))))
           (sorted (glob E (path_join (a_msks_pth a) ("*." +:+ a_msk_ftype a))))) w)
      as (? & ? & Hrun & _). congruence. }
  apply bind_inv in H as [([imgs msks] & w2 & Hun & H) | (e' & Hun & Heq)]; cycle 1.
  { apply lift_inv in Hun as [Hun _]. injection Heq as ->.
    destruct sh; cbn in Hun; by simplify_eq. }
  apply lift_inv in Hun as [Hun ->].
  apply unzip_assign_Ok_inv in Hun as (_ & -> & ->).
  destruct (_ || _); [by inversion H|].
  rewrite !length_fmap, Nat.eqb_refl in H. cbn [negb] in H.
  apply bind_inv in H as [([] & w3 & Hst & H) | (e' & Hst & Heq)]; cycle 1.
  { apply lift_inv in Hst as [Hst _]. injection Heq as ->.
    clear -Hst. induction (zip sh.*1 sh.*2) as [|[i k] l IH]; cbn in Hst; [done|].
    destruct (String.eqb _ _); [auto|]. by simplify_eq. }
  repeat
    (let w4 := fresh "w" in
     let Hs := fresh "Hset" in
     match type of H with
     | (set_if_absent ?l0 ?k ?v ≫= _) ?w0 = _ =>
         destruct (set_if_absent_spec l0 k v w0) as (w4 & Hs & _);
         rewrite (bind_Ok _ _ _ _ _ Hs) in H
     end).
  by inversion H.
Qed.

(** The constructor returns whenever the sorted image and mask paths,
    paired up to the shorter of the two lists, are at least one pair with
    equal stems and the resolution is positive: the numbers of images and
    of masks play no part. *)
Lemma init_returns (E : externals) (a : init_args) (w : world) :
  let pairs :=
    zip (sorted (glob E (path_join (a_imgs_pth a) ("*." +:+ a_img_ftype a))))
        (sorted (glob E (path_join (a_msks_pth a) ("*." +:+ a_msk_ftype a)))) in
  pairs <> [] ->
  Forall (fun p => stem p.1 = stem p.2) pairs ->
  1 <= (a_res a).1 -> 1 <= (a_res a).2 ->
  exists self w', __init__ E a w = (Ok self, w').
Proof.
  intros pairs Hne Hstems Hr1 Hr2. unfold __init__. fold pairs.
  destruct (random_shuffle_spec pairs w) as (sh & w1 & Hrun & Hperm & _).
  rewrite (bind_Ok _ _ _ _ _ Hrun).
  assert (Hsh : sh <> []).
  { intros ->. by apply Permutation_nil_l in Hperm. }
  destruct sh as [|p sh]; [done|].
  rewrite (bind_Ok (lift (unzip_assign (p :: sh))) _ w1 ((p :: sh).*1, (p :: sh).*2) w1)
    by reflexivity.
  destruct (Z.ltb_spec (a_res a).1 1); [lia|].
  destruct (Z.ltb_spec (a_res a).2 1); [lia|]. cbn [orb].
  rewrite !length_fmap, Nat.eqb_refl. cbn [negb].
  assert (Hcheck : check_stems (zip (p :: sh).*1 (p :: sh).*2) = Ok tt).
  { rewrite zip_fst_snd. apply check_stems_Ok. by rewrite Hperm. }
  rewrite (bind_Ok (lift (check_stems _)) _ w1 tt w1) by (unfold lift; by rewrite Hcheck).
  repeat
    (let w4 := fresh "w" in
     let Hs := fresh "Hset" in
     match goal with
     | |- exists _ _, (set_if_absent ?l0 ?k ?v ≫= _) ?w0 = _ =>
         destruct (set_if_absent_spec l0 k v w0) as (w4 & Hs & _);
         rewrite (bind_Ok _ _ _ _ _ Hs)
     end).
  eexists _, _. reflexivity.
Qed.

(** C2. Three images and two masks: the constructor returns an instance
    of the first two images with the two masks, where the claim asks for
    a ValueError. *)
Theorem C2_count_mismatch_accepted :
  length (glob Demo.fs "three/*.png") = 3%nat /\
  length (glob Demo.fs "two/*.png") = 2%nat /\
  exists self w',
    __init__ Demo.fs Demo.mismatch_args Demo.world0 = (Ok self, w') /\
    img_pths self = ["three/a.png"; "three/b.png"] /\
    msk_pths self = ["two/a.png"; "two/b.png"].
Proof.
  split; [reflexivity|]. split; [reflexivity|].
  eexists _, _. split; [vm_compute; reflexivity|]. split; reflexivity.
Qed.

(** * The claims on the small file system *)

(** Fetching batch 1 of that corpus raises no IndexError. *)
Lemma C4_witness :
  reachable Demo.fs Demo.plain_ds /\
  __len__ Demo.plain_ds = Ok 2 /\
  forall w w', __getitem__ Demo.fs Demo.plain_ds 1 w <> (Raise IndexError, w').
Proof.
  assert (Hreach : reachable Demo.fs Demo.plain_ds).
  { apply (reachable_init Demo.fs Demo.plain_args Demo.world0 _ Demo.plain_world).
    vm_compute. reflexivity. }
  split; [exact Hreach|]. split; [reflexivity|].
  destruct (C4_file_indices_in_bounds Demo.fs Demo.plain_ds 1 2) as (_ & Hsafe).
  - exact Hreach.
  - vm_compute. split; discriminate.
  - reflexivity.
  - lia.
  - exact Hsafe.
Defined.

(** Four pairs in batches of two are two batches. *)
Lemma C6_witness :
  reachable Demo.fs Demo.plain_ds /\
  corpus_size Demo.plain_ds = 4 /\ batch_size Demo.plain_ds = 2 /\
  __len__ Demo.plain_ds = Ok 2.
Proof.
  assert (Hreach : reachable Demo.fs Demo.plain_ds).
  { apply (reachable_init Demo.fs Demo.plain_args Demo.world0 _ Demo.plain_world).
    vm_compute. reflexivity. }
  split; [exact Hreach|]. split; [reflexivity|]. split; [reflexivity|].
  destruct (C6_len_is_floor Demo.fs Demo.plain_ds Hreach) as (_ & Hdiv & _).
  rewrite Hdiv; [reflexivity|]. simpl. lia.
Defined.

(** The corpus is aligned, and reshuffling it permutes its pairs. *)
Lemma C9_witness :
  reachable Demo.fs Demo.plain_ds /\
  aligned Demo.plain_ds /\
  exists self' w',
    on_epoch_end Demo.plain_ds Demo.plain_world = (Ok self', w') /\
    sample_pairs self' ≡ₚ sample_pairs Demo.plain_ds.
Proof.
  assert (Hreach : reachable Demo.fs Demo.plain_ds).
  { apply (reachable_init Demo.fs Demo.plain_args Demo.world0 _ Demo.plain_world).
    vm_compute. reflexivity. }
  split; [exact Hreach|].
  destruct (C9_alignment_invariant Demo.fs Demo.plain_ds Hreach) as (Hal & Hepoch).
  split; [exact Hal|].
  destruct (Hepoch Demo.plain_world) as (self' & w' & Hrun & _ & Hperm).
  exists self', w'. split; [exact Hrun | exact Hperm].
Defined.

(** The caller's dict keeps Rotate and Sharpen and gains the defaults. *)
Lemma C8_witness :
  a_tfs_prb Demo.caller_args = Some 2%positive /\
  w_heap Demo.world1 !! 2%positive = Some Demo.caller_dict /\
  exists d',
    w_heap Demo.caller_world !! 2%positive = Some d' /\
    d' !! "Rotate" = Some (PyFloat (1 # 4)) /\
    d' !! "MotionBlur" = Some (PyFloat (1 # 10)) /\
    d' !! "Sharpen" = Some (PyFloat (3 # 4)).
Proof.
  split; [reflexivity|]. split; [reflexivity|].
  destruct (C8_defaults_merged Demo.fs Demo.caller_args Demo.world1
              Demo.caller_ds Demo.caller_world 2%positive Demo.caller_dict)
    as (d' & _ & Hd' & Hdef & Hkeep & _).
  - reflexivity.
  - reflexivity.
  - vm_compute. reflexivity.
  - exists d'. split; [exact Hd'|].
    split; [apply (Hkeep "Rotate"); reflexivity|].
    split; [|apply (Hkeep "Sharpen"); reflexivity].
    rewrite (Hdef "MotionBlur" (PyFloat (1 # 10))); [reflexivity|].
    apply list_elem_of_In. simpl. tauto.
Defined.

(** A construction without the argument fills the default dict of the
    class in place. *)
Lemma C10_witness :
  w_heap Demo.world0 !! tfs_prb_default = Some ∅ /\
  tfs_prb Demo.plain_ds = tfs_prb_default /\
  w_heap Demo.plain_world !! tfs_prb_default = Some (list_to_map tfs_defaults) /\
  w_heap Demo.plain_world !! tfs_prb_default <> w_heap Demo.world0 !! tfs_prb_default.
Proof.
  split; [reflexivity|].
  destruct (C10_dict_shared_and_mutated Demo.fs Demo.plain_args Demo.world0
              Demo.plain_ds Demo.plain_world ∅)
    as (_ & Hdefault & Hheap & _ & Hchanged & _).
  - reflexivity.
  - vm_compute. reflexivity.
  - split; [apply Hdefault; reflexivity|].
    rewrite (Hdefault eq_refl) in Hheap, Hchanged.
    split.
    + rewrite Hheap. reflexivity.
    + apply (Hchanged "Rotate"); [apply list_elem_of_In; simpl; tauto | reflexivity].
Defined.

(** * Further properties *)

(** ** The constructor *)

Lemma random_shuffle_world {A} (x : list A) (w : world) :
  exists x',
    random_shuffle x w =
      (Ok x', mk_world (mk_rng (oracle (w_rng w))
                          (cursor (w_rng w) + (length x - 1)))
                (w_heap w) (w_trace w)) /\
    x' ≡ₚ x.
Proof. apply shuffle_from_spec. Qed.

Lemma check_stems_Raise (pairs : list (string * string)) (e : exn) :
  check_stems pairs = Raise e ->
  exists p, p ∈ pairs /\ stem p.1 <> stem p.2 /\
            e = ValueError (StemMismatch (stem p.1) (stem p.2)).
Proof.
  induction pairs as [|[i m] pairs IH]; cbn; [done|].
  destruct (String.eqb_spec (stem i) (stem m)) as [Heq|Hne].
  - intros H. destruct (IH H) as (p & Hp & Hs & He). exists p. split; [by right | done].
  - intros [= <-]. exists (i, m). split; [left | done].
Qed.

(** The outcomes of a constructor call that raises. *)
Lemma init_Raise_inv (E : externals) (a : init_args) (w : world)
    (e : exn) (w' : world) :
  __init__ E a w = (Raise e, w') ->
  w' = mk_world (mk_rng (oracle (w_rng w))
                   (cursor (w_rng w) + (length (discovered_pairs E a) - 1)))
         (w_heap w) (w_trace w) /\
  exists sh,
    sh ≡ₚ discovered_pairs E a /\
    ((sh = [] /\ e = ValueError UnpackExpected2Got0) \/
     (sh <> [] /\ ((a_res a).1 < 1 \/ (a_res a).2 < 1) /\
      e = ValueError (ResolutionTooSmall (a_res a))) \/
     (sh <> [] /\ 1 <= (a_res a).1 /\ 1 <= (a_res a).2 /\
      check_stems sh = Raise e)).
Proof.
  intros H. unfold __init__ in H. fold (discovered_pairs E a) in H.
  destruct (random_shuffle_world (discovered_pairs E a) w) as (sh & Hrun & Hperm).
  rewrite (bind_Ok _ _ _ _ _ Hrun) in H.
  destruct sh as [|p sh].
  { rewrite bind_eq in H. cbn in H. injection H as <- <-.
    split; [done|]. exists []. split; [done|]. by left. }
  rewrite (bind_Ok (lift (unzip_assign (p :: sh))) _ _ ((p :: sh).*1, (p :: sh).*2) _)
    in H by reflexivity.
  destruct (Z.ltb_spec (a_res a).1 1) as [Hr1|Hr1].
  { cbn in H. injection H as <- <-. split; [done|].
    exists (p :: sh). split; [done|]. right; left. split; [done|]. split; [by left|done]. }
  destruct (Z.ltb_spec (a_res a).2 1) as [Hr2|Hr2].
  { cbn in H. injection H as <- <-. split; [done|].
    exists (p :: sh). split; [done|]. right; left. split; [done|]. split; [by right|done]. }
  cbn [orb] in H. rewrite !length_fmap, Nat.eqb_refl in H. cbn [negb] in H.
  rewrite zip_fst_snd in H.
  destruct (check_stems (p :: sh)) as [[]|e'] eqn:Hcheck.
  - rewrite (bind_Ok (lift (Ok tt)) _ _ tt _) in H by reflexivity.
    repeat
      (let w4 := fresh "w" in
       let Hs := fresh "Hset" in
       match type of H with
       | (set_if_absent ?l0 ?k ?v ≫= _) ?w0 = _ =>
           destruct (set_if_absent_spec l0 k v w0) as (w4 & Hs & _);
           rewrite (bind_Ok _ _ _ _ _ Hs) in H
       end).
    by inversion H.
  - rewrite bind_eq in H. cbn in H. injection H as <- <-. split; [done|].
    exists (p :: sh). split; [done|]. right; right. done.
Qed.

(** X1. A constructor call returns an instance exactly when the two
    directories give at least one pair, the stems of every pair agree and
    both dimensions of the resolution are at least 1. *)
Theorem X1_init_returns_iff (E : externals) (a : init_args) (w : world) :
  (exists self w', __init__ E a w = (Ok self, w')) <->
  discovered_pairs E a <> [] /\
  Forall (fun p => stem p.1 = stem p.2) (discovered_pairs E a) /\
  1 <= (a_res a).1 /\ 1 <= (a_res a).2.
Proof.
  split.
  - intros (self & w' & H).
    apply init_Ok_inv in H as (sh & Hperm & Hne & Hstems & Hr1 & Hr2 & _).
    fold (discovered_pairs E a) in Hperm.
    split. { intros Hnil. rewrite Hnil in Hperm. by apply Permutation_nil_r in Hperm. }
    split; [|done]. rewrite <- Hperm. by apply check_stems_Ok.
  - intros (Hne & Hstems & Hr1 & Hr2). by apply init_returns.
Qed.

(** X2. When one of the two directories has no file of its extension, the
    constructor raises the ValueError of the unpacking of line 76, before
    it looks at the resolution, and changes nothing. *)
Theorem X2_init_empty_directory (E : externals) (a : init_args) (w : world) :
  glob E (path_join (a_imgs_pth a) ("*." +:+ a_img_ftype a)) = [] \/
  glob E (path_join (a_msks_pth a) ("*." +:+ a_msk_ftype a)) = [] ->
  __init__ E a w = (Raise (ValueError UnpackExpected2Got0), w).
Proof.
  intros Hempty.
  assert (Hnil : discovered_pairs E a = []).
  { unfold discovered_pairs. destruct Hempty as [-> | ->]; cbn; [done|].
    by destruct (sorted _). }
  unfold __init__. fold (discovered_pairs E a). rewrite Hnil. reflexivity.
Qed.


(** X4. With at least one pair found and a valid resolution, a pair whose
    image stem differs from its mask stem makes the constructor raise the
    ValueError of line 97 for such a pair, and no dict is written. *)
Theorem X4_init_stem_mismatch (E : externals) (a : init_args) (w : world) :
  1 <= (a_res a).1 -> 1 <= (a_res a).2 ->
  ~ Forall (fun p => stem p.1 = stem p.2) (discovered_pairs E a) ->
  exists p w',
    p ∈ discovered_pairs E a /\ stem p.1 <> stem p.2 /\
    __init__ E a w = (Raise (ValueError (StemMismatch (stem p.1) (stem p.2))), w') /\
    w_heap w' = w_heap w.
Proof.
  intros Hr1 Hr2 Hbad.
  destruct (__init__ E a w) as [[self|e] w'] eqn:H.
  - apply init_Ok_inv in H as (sh & Hperm & _ & Hstems & _).
    fold (discovered_pairs E a) in Hperm.
    destruct Hbad. rewrite <- Hperm. by apply check_stems_Ok.
  - apply init_Raise_inv in H as (-> & sh & Hperm & Hcase).
    destruct Hcase as [[-> _] | [(_ & ? & _) | (_ & _ & _ & Hcheck)]]; [|lia|].
    + apply Permutation.Permutation_nil in Hperm. rewrite Hperm in Hbad.
      by destruct Hbad.
    + apply check_stems_Raise in Hcheck as (p & Hp & Hs & ->).
      eexists p, _. rewrite <- Hperm. done.
Qed.

(** X5. The constructor opens no file and calls no augmentation, whatever
    its outcome; when it raises it leaves every dict as it was, and when it
    returns it has written to no dict but the one it stores. *)
Theorem X5_init_frame (E : externals) (a : init_args) (w : world)
    (r : result RailDataset) (w' : world) :
  __init__ E a w = (r, w') ->
  w_trace w' = w_trace w /\
  (forall e, r = Raise e -> w_heap w' = w_heap w) /\
  (forall self l, r = Ok self -> l <> tfs_prb self ->
     w_heap w' !! l = w_heap w !! l).
Proof.
  intros H. destruct r as [self|e].
  - apply init_Ok_inv in H as (sh & _ & _ & _ & _ & _ & -> & _ & Hother & _ & Ht).
    split; [done|]. split; [done|].
    intros self l [= <-] Hl. by apply Hother.
  - apply init_Raise_inv in H as (-> & _). done.
Qed.

(** X6. The pairs of a constructed instance are a permutation of the
    sorted image paths paired with the sorted mask paths, so the corpus
    size is the smaller of the two file counts, and every stored path was
    found in its directory. *)
Theorem X6_init_corpus (E : externals) (a : init_args) (w : world)
    (self : RailDataset) (w' : world) :
  __init__ E a w = (Ok self, w') ->
  sample_pairs self ≡ₚ discovered_pairs E a /\
  corpus_size self =
    Z.of_nat (length (glob E (path_join (a_imgs_pth a) ("*." +:+ a_img_ftype a))))
    `min`
    Z.of_nat (length (glob E (path_join (a_msks_pth a) ("*." +:+ a_msk_ftype a)))) /\
  (forall p, p ∈ img_pths self ->
     p ∈ glob E (path_join (a_imgs_pth a) ("*." +:+ a_img_ftype a))) /\
  (forall p, p ∈ msk_pths self ->
     p ∈ glob E (path_join (a_msks_pth a) ("*." +:+ a_msk_ftype a))).
Proof.
  intros H.
  apply init_Ok_inv in H as (sh & Hperm & _ & _ & _ & _ & -> & _).
  fold (discovered_pairs E a) in Hperm.
  unfold sample_pairs, corpus_size. cbn [img_pths msk_pths].
  rewrite zip_fst_snd. split; [done|].
  split.
  { rewrite length_fmap, Hperm. unfold discovered_pairs.
    rewrite length_zip, !length_sorted. lia. }
  split; intros p Hp; apply list_elem_of_fmap in Hp as ([i m] & -> & Hin);
    rewrite Hperm in Hin; unfold discovered_pairs in Hin.
  - apply elem_of_zip_l in Hin. by rewrite sorted_Permutation in Hin.
  - apply elem_of_zip_r in Hin. by rewrite sorted_Permutation in Hin.
Qed.

(** X7. Constructing a second instance on the dict of a first one writes
    nothing: the defaults are filled in once. *)
Theorem X7_init_defaults_once (E : externals) (a1 a2 : init_args) (w : world)
    (self1 self2 : RailDataset) (w1 w2 : world) :
  is_Some (w_heap w !! default tfs_prb_default (a_tfs_prb a1)) ->
  __init__ E a1 w = (Ok self1, w1) ->
  a_tfs_prb a2 = Some (tfs_prb self1) ->
  __init__ E a2 w1 = (Ok self2, w2) ->
  tfs_prb self2 = tfs_prb self1 /\ w_heap w2 = w_heap w1.
Proof.
  intros [d Hd] H1 Ha2 H2.
  destruct (init_dict E a1 w self1 w1 d Hd H1) as (Hl1 & Hd1 & _).
  rewrite <- Hl1 in Hd1.
  destruct (init_dict E a2 w1 self2 w2 (d ∪ list_to_map tfs_defaults)) as (Hl2 & Hd2 & Hother2);
    [by rewrite Ha2 | done |].
  rewrite Ha2 in Hl2, Hd2, Hother2. cbn in Hl2, Hd2, Hother2.
  split; [done|]. apply map_eq. intros l.
  destruct (decide (l = tfs_prb self1)) as [->|Hne]; [|by apply Hother2].
  rewrite Hd2, Hd1. f_equal.
  rewrite <- (assoc_L (∪)). f_equal; apply (idemp_L (∪)).
Qed.

(** ** The reshuffle *)

Lemma on_epoch_end_attrs (self : RailDataset) (w : world) (self' : RailDataset)
    (w' : world) :
  on_epoch_end self w = (Ok self', w') ->
  (imgs_pth self', msks_pth self', img_ftype self', msk_ftype self') =
  (imgs_pth self, msks_pth self, img_ftype self, msk_ftype self).
Proof.
  unfold on_epoch_end. intros H.
  apply bind_inv in H as [(sh & w1 & _ & H) | (? & _ & ?)]; [|done].
  apply bind_inv in H as [([a b] & w2 & _ & H) | (? & _ & ?)]; [|done].
  by inversion H.
Qed.

(** X8. on_epoch_end() on a constructed instance returns and keeps the
    number of batches, the corpus size, the file indices of every batch
    and every attribute other than the two path tuples, and touches
    neither a dict nor a file. *)
Theorem X8_on_epoch_end_keeps_length (E : externals) (self : RailDataset) (w : world) :
  reachable E self ->
  exists self' w',
    on_epoch_end self w = (Ok self', w') /\
    __len__ self' = __len__ self /\
    corpus_size self' = corpus_size self /\
    (forall b, file_indices self' b = file_indices self b) /\
    (imgs_pth self', msks_pth self', bg_dir_pth self', res self', img_ftype self',
     msk_ftype self', batch_size self', transforms self', tfs_prb self')
      = (imgs_pth self, msks_pth self, bg_dir_pth self, res self, img_ftype self,
         msk_ftype self, batch_size self, transforms self, tfs_prb self) /\
    w_heap w' = w_heap w /\ w_trace w' = w_trace w.
Proof.
  intros Hreach. destruct (reachable_inv E self Hreach) as (Hne & Hal & _).
  destruct (on_epoch_end_spec self w Hne Hal)
    as (s' & w' & Hrun & Hperm & [Hlen' _] & _ & Hres & Hbs & Ht & Hbg & Htfs & Hh & Htr).
  exists s', w'. split; [done|].
  assert (Hsize : length (img_pths s') = length (img_pths self)).
  { apply Permutation_length in Hperm. unfold sample_pairs in Hperm.
    rewrite !length_zip in Hperm. destruct Hal as [Hlen _]. lia. }
  split. { unfold __len__. by rewrite Hbs, Hsize. }
  split. { unfold corpus_size. by rewrite Hsize. }
  split. { intros b. unfold file_indices. by rewrite Hbs. }
  split; [|done].
  pose proof (on_epoch_end_attrs self w s' w' Hrun) as Hattrs.
  injection Hattrs as -> -> -> ->. by rewrite Hres, Hbs, Ht, Hbg, Htfs.
Qed.

(** ** Fetching a batch *)

(** X10. With a batch size of 0 or less the loop of a fetch runs over no
    file index, and the fetch raises the ValueError of np.stack on an
    empty list; nothing is opened and the state is as before. *)
Theorem X10_getitem_empty_batch (E : externals) (self : RailDataset) (b : Z) (w : world) :
  batch_size self <= 0 ->
  file_indices self b = [] /\
  __getitem__ E self b w = (Raise (ValueError StackEmpty), w).
Proof.
  intros Hbs.
  assert (Hnil : file_indices self b = []) by (apply py_range_nil; lia).
  split; [done|]. unfold __getitem__. by rewrite Hnil.
Qed.

Section Plain.

Variable E : externals.

(** Without augmentation [acquire] only opens files. *)
Lemma acquire_plain self i w r w' :
  transforms self = false ->
  acquire E self i w = (r, w') ->
  w_rng w' = w_rng w /\ w_heap w' = w_heap w /\
  augmentation_calls (w_trace w') = augmentation_calls (w_trace w).
Proof.
  intros Ht H. unfold acquire in H. rewrite Ht in H.
  assert (Hcalls : forall t, augmentation_calls t = [] ->
            augmentation_calls (w_trace w ++ t) = augmentation_calls (w_trace w)).
  { intros t Ht0. by rewrite augmentation_calls_app, Ht0, app_nil_r. }
  assert (Hcalls2 : forall p q,
            augmentation_calls ((w_trace w ++ [EvOpen p]) ++ [EvOpen q])
            = augmentation_calls (w_trace w)).
  { intros p q. rewrite <- app_assoc. by apply Hcalls. }
  step H as Himg; [|done].
  step H as Hopen1; [|repeat split; by apply Hcalls].
  step H as Hmsk; [|repeat split; by apply Hcalls].
  step H as Hopen2; [|repeat split; apply Hcalls2].
  step H as Hr1; [|repeat split; apply Hcalls2].
  step H as Hr2; [|repeat split; apply Hcalls2].
  step H as Hchain; [|repeat split; apply Hcalls2].
  inversion H. repeat split; apply Hcalls2.
Qed.

Lemma for_file_idx_plain self idxs il ml w r w' :
  transforms self = false ->
  for_file_idx E self idxs il ml w = (r, w') ->
  w_rng w' = w_rng w /\ w_heap w' = w_heap w /\
  augmentation_calls (w_trace w') = augmentation_calls (w_trace w).
Proof.
  intros Ht. revert il ml w. induction idxs as [|i idxs IH]; intros il ml w H.
  - by inversion H.
  - apply for_file_idx_cons_inv in H as [(im & mk & w1 & Hs & H) | (e & Hs & ->)].
    + apply IH in H as (-> & -> & ->).
      apply load_sample_inv in Hs as [(arrs & Hacq & _) | (e & _ & ?)]; [|done].
      by apply acquire_plain in Hacq.
    + apply load_sample_inv in Hs as [(arrs & Hacq & _) | (e' & Hacq & _)];
        by apply acquire_plain in Hacq.
Qed.

End Plain.

(** X11. With augmentation disabled a fetch, whatever its outcome, calls
    neither the background swap nor the transform chain, draws no random
    number and writes no dict. *)
Theorem X11_getitem_without_augmentation
    (E : externals) (self : RailDataset) (b : Z) (w : world)
    (r : result (ndarray * ndarray)) (w' : world) :
  transforms self = false ->
  __getitem__ E self b w = (r, w') ->
  augmentation_calls (w_trace w') = augmentation_calls (w_trace w) /\
  w_rng w' = w_rng w /\ w_heap w' = w_heap w.
Proof.
  intros Ht H.
  apply getitem_inv in H as [(il & ml & Hloop & _) | (e & Hloop & _)];
    by apply (for_file_idx_plain E self _ _ _ _ _ _ Ht) in Hloop as (? & ? & ?).
Qed.

Lemma tuple_getitem_out {A} (t : list A) (i : Z) :
  Z.of_nat (length t) <= i \/ i < - Z.of_nat (length t) ->
  tuple_getitem t i = Raise IndexError.
Proof.
  intros Hi. unfold tuple_getitem.
  destruct (Z.ltb_spec i 0).
  - destruct (Z.ltb_spec (i + Z.of_nat (length t)) 0); [done | lia].
  - destruct (Z.ltb_spec i 0); [lia|].
    destruct (Z.leb_spec (Z.of_nat (length t)) i); [done | lia].
Qed.

Lemma tuple_getitem_wrap {A} (t : list A) (i : Z) :
  - Z.of_nat (length t) <= i < Z.of_nat (length t) ->
  exists x, tuple_getitem t i = Ok x /\
            t !! Z.to_nat (i `mod` Z.of_nat (length t)) = Some x.
Proof.
  intros Hi. destruct (Z.ltb_spec i 0) as [Hneg|Hpos].
  - replace (i `mod` Z.of_nat (length t)) with (i + Z.of_nat (length t)).
    2: { apply (Z.mod_unique _ _ (-1)); lia. }
    unfold tuple_getitem. destruct (Z.ltb_spec i 0); [|lia].
    destruct (Z.ltb_spec (i + Z.of_nat (length t)) 0); [lia|].
    destruct (Z.leb_spec (Z.of_nat (length t)) (i + Z.of_nat (length t))); [lia|]. cbn.
    destruct (lookup_lt_is_Some_2 t (Z.to_nat (i + Z.of_nat (length t)))) as [x Hx]; [lia|].
    rewrite Hx. eauto.
  - rewrite Z.mod_small by lia. apply tuple_getitem_Ok. lia.
Qed.

(** X12. With a batch size of at least 1, a batch index at or beyond the
    corpus size, or below its negative, makes the fetch raise IndexError
    at its first file index, before any file is opened. *)
Theorem X12_getitem_index_out_of_range
    (E : externals) (self : RailDataset) (b : Z) (w : world) :
  1 <= batch_size self ->
  corpus_size self <= b \/ b < - corpus_size self ->
  __getitem__ E self b w = (Raise IndexError, w).
Proof.
  intros Hbs Hb. apply getitem_first_raises; [done|].
  unfold load_sample, acquire.
  rewrite (tuple_getitem_out (img_pths self) b Hb). reflexivity.
Qed.

(** X13. Negative file indices count from the end, as on any tuple: when
    every file index of the batch lies between minus the corpus size and
    the corpus size, the index i selects the image and the mask at position
    i mod corpus_size, and the fetch raises no IndexError. *)
Theorem X13_getitem_negative_indices_wrap
    (E : externals) (self : RailDataset) (b : Z) :
  reachable E self ->
  - corpus_size self <= b -> b + batch_size self <= corpus_size self ->
  Forall (fun i => exists img_pth msk_pth,
            img_pths self !! Z.to_nat (i `mod` corpus_size self) = Some img_pth /\
            msk_pths self !! Z.to_nat (i `mod` corpus_size self) = Some msk_pth /\
            sample_paths self i = [img_pth; msk_pth])
    (file_indices self b) /\
  (forall w w', __getitem__ E self b w <> (Raise IndexError, w')).
Proof.
  intros Hreach Hlo Hhi.
  destruct (reachable_inv E self Hreach) as (_ & [Hlens _] & _).
  assert (Hall : Forall (fun i => exists img_pth msk_pth,
            tuple_getitem (img_pths self) i = Ok img_pth /\
            tuple_getitem (msk_pths self) i = Ok msk_pth /\
            img_pths self !! Z.to_nat (i `mod` corpus_size self) = Some img_pth /\
            msk_pths self !! Z.to_nat (i `mod` corpus_size self) = Some msk_pth)
          (file_indices self b)).
  { apply Forall_forall. intros i Hi. apply elem_of_py_range in Hi.
    unfold corpus_size in *.
    destruct (tuple_getitem_wrap (img_pths self) i) as (x & Hx & Hlx); [lia|].
    destruct (tuple_getitem_wrap (msk_pths self) i) as (y & Hy & Hly);
      [rewrite <- Hlens; lia|].
    rewrite <- Hlens in Hly. eauto 10. }
  split.
  - eapply Forall_impl; [exact Hall|].
    intros i (x & y & Hx & Hy & Hlx & Hly). exists x, y.
    unfold sample_paths. by rewrite Hx, Hy.
  - intros w w' H.
    apply getitem_inv in H as [(il & ml & Hloop & Hr) | (e & Hloop & [= <-])].
    + destruct (np_stack il) as [ib|e1] eqn:Hil.
      * destruct (np_stack ml) as [mb|e2] eqn:Hml; [done|].
        apply np_stack_Raise in Hml as [v ->]. done.
      * apply np_stack_Raise in Hil as [v ->]. done.
    + eapply (for_file_idx_no_IndexError E self); [|exact Hloop|done].
      eapply Forall_impl; [exact Hall|].
      intros i (x & y & Hx & Hy & _). eauto.
Qed.

Lemma dict_getitem_Some l k v w :
  deref w l !! k = Some v -> dict_getitem l k w = (Ok v, w).
Proof. intros H. unfold dict_getitem. by rewrite H. Qed.

Lemma dict_getitem_None l k w :
  deref w l !! k = None -> dict_getitem l k w = (Raise (KeyError k), w).
Proof. intros H. unfold dict_getitem. by rewrite H. Qed.

(** Reading the chain's keys raises KeyError for the first one that the
    dict does not hold. *)
Lemma compose_missing_key (self : RailDataset) (w : world) :
  (exists k, k ∈ chain_keys /\ deref w (tfs_prb self) !! k = None) ->
  exists k, k ∈ chain_keys /\ deref w (tfs_prb self) !! k = None /\
            compose self w = (Raise (KeyError k), w).
Proof.
  intros (k0 & Hk0 & Hnone). unfold compose.
  assert (Hin : forall k, In k chain_keys -> k ∈ chain_keys)
    by (intros k; apply list_elem_of_In).
  destruct (deref w (tfs_prb self) !! "HorizontalFlip") as [v1|] eqn:H1; cycle 1.
  { exists "HorizontalFlip". split; [apply Hin; cbn; tauto|]. split; [done|].
    by rewrite (bind_Raise _ _ _ _ _ (dict_getitem_None _ _ _ H1)). }
  rewrite (bind_Ok _ _ _ _ _ (dict_getitem_Some _ _ _ _ H1)).
  destruct (deref w (tfs_prb self) !! "RandomBrightnessContrast") as [v2|] eqn:H2; cycle 1.
  { exists "RandomBrightnessContrast". split; [apply Hin; cbn; tauto|]. split; [done|].
    by rewrite (bind_Raise _ _ _ _ _ (dict_getitem_None _ _ _ H2)). }
  rewrite (bind_Ok _ _ _ _ _ (dict_getitem_Some _ _ _ _ H2)).
  destruct (deref w (tfs_prb self) !! "RotateLimit") as [v3|] eqn:H3; cycle 1.
  { exists "RotateLimit". split; [apply Hin; cbn; tauto|]. split; [done|].
    by rewrite (bind_Raise _ _ _ _ _ (dict_getitem_None _ _ _ H3)). }
  rewrite (bind_Ok _ _ _ _ _ (dict_getitem_Some _ _ _ _ H3)).
  destruct (deref w (tfs_prb self) !! "Rotate") as [v4|] eqn:H4; cycle 1.
  { exists "Rotate". split; [apply Hin; cbn; tauto|]. split; [done|].
    by rewrite (bind_Raise _ _ _ _ _ (dict_getitem_None _ _ _ H4)). }
  rewrite (bind_Ok _ _ _ _ _ (dict_getitem_Some _ _ _ _ H4)).
  destruct (deref w (tfs_prb self) !! "MotionBlur") as [v5|] eqn:H5; cycle 1.
  { exists "MotionBlur". split; [apply Hin; cbn; tauto|]. split; [done|].
    by rewrite (bind_Raise _ _ _ _ _ (dict_getitem_None _ _ _ H5)). }
  apply list_elem_of_In in Hk0. cbn in Hk0.
  destruct Hk0 as [<-|[<-|[<-|[<-|[<-|[]]]]]]; congruence.
Qed.

(** X14. The chain is built for every sample, with or without
    augmentation: when the dict of the instance has lost one of the five
    keys that the chain reads, a fetch whose first two files load raises
    KeyError for the first missing key, right after opening them. *)
Theorem X14_getitem_missing_key
    (E : externals) (self : RailDataset) (b : Z) (w : world)
    (img_pth msk_pth : string) (image_img mask_img : pil_image) :
  1 <= batch_size self -> 1 <= (res self).1 -> 1 <= (res self).2 ->
  tuple_getitem (img_pths self) b = Ok img_pth ->
  pil_open E img_pth = Some image_img ->
  tuple_getitem (msk_pths self) b = Ok msk_pth ->
  pil_open E msk_pth = Some mask_img ->
  (exists k, k ∈ chain_keys /\ deref w (tfs_prb self) !! k = None) ->
  exists k,
    k ∈ chain_keys /\ deref w (tfs_prb self) !! k = None /\
    __getitem__ E self b w = (Raise (KeyError k), after_open w img_pth msk_pth).
Proof.
  intros Hbs Hr1 Hr2 Hx Hox Hy Hoy Hmiss.
  destruct (compose_missing_key self (after_open w img_pth msk_pth)) as (k & Hk & Hnone & Hc).
  { destruct Hmiss as (k & Hk & Hnone). by exists k. }
  exists k. split; [done|]. split; [done|].
  apply getitem_first_raises; [done|].
  assert (Hacq : acquire E self b w =
                 (Raise (KeyError k), after_open w img_pth msk_pth)).
  { unfold acquire.
    rewrite Hx. rewrite (bind_Ok _ _ _ img_pth w) by reflexivity.
    rewrite (bind_Ok _ _ _ _ _ (image_open_Some E img_pth _ _ Hox)).
    rewrite Hy. rewrite (bind_Ok _ _ _ msk_pth _) by reflexivity.
    rewrite (bind_Ok _ _ _ _ _ (image_open_Some E msk_pth _ _ Hoy)).
    rewrite !image_resize_Ok by done.
    rewrite (bind_Ok (lift (Ok _)) _ _ _ _ eq_refl).
    rewrite (bind_Ok (lift (Ok _)) _ _ _ _ eq_refl).
    unfold after_open in Hc |- *. cbn [w_rng w_heap w_trace] in *.
    rewrite <- app_assoc. cbn [app].
    by rewrite (bind_Raise _ _ _ _ _ Hc). }
  unfold load_sample. by rewrite (bind_Raise _ _ _ _ _ Hacq).
Qed.

(** The chain that [compose] builds depends on the heap only. *)
Lemma compose_heap self w1 w2 :
  w_heap w1 = w_heap w2 -> (compose self w1).1 = (compose self w2).1.
Proof.
  intros Hh.
  assert (Hd : deref w1 (tfs_prb self) = deref w2 (tfs_prb self))
    by (unfold deref; by rewrite Hh).
  unfold compose.
  repeat
    match goal with
    | |- ((dict_getitem ?l ?k ≫= _) w1).1 = _ =>
        let v := fresh "v" in
        let Hk := fresh "Hk" in
        destruct (deref w1 l !! k) as [v|] eqn:Hk;
        [ rewrite (bind_Ok _ _ w1 _ _ (dict_getitem_Some l k v w1 Hk));
          rewrite Hd in Hk;
          rewrite (bind_Ok _ _ w2 _ _ (dict_getitem_Some l k v w2 Hk))
        | rewrite (bind_Raise _ _ w1 _ _ (dict_getitem_None l k w1 Hk));
          rewrite Hd in Hk;
          rewrite (bind_Raise _ _ w2 _ _ (dict_getitem_None l k w2 Hk));
          reflexivity ]
    end.
  reflexivity.
Qed.

(** Two runs of one step returned the same value. *)
Ltac same_result :=
  repeat match goal with
  | H1 : ?t = Ok ?a, H2 : ?t = Ok ?b |- _ =>
      assert (b = a) by congruence; subst b; clear H2
  | H1 : Ok ?a = ?t, H2 : Ok ?b = ?t |- _ =>
      assert (b = a) by congruence; subst b; clear H2
  end.

Section Indep.
Variable E : externals.

Lemma acquire_plain_indep self i w1 w2 :
  transforms self = false -> w_heap w1 = w_heap w2 ->
  (acquire E self i w1).1 = (acquire E self i w2).1.
Proof.
  intros Ht Hh.
  destruct (acquire E self i w1) as [r1 w1'] eqn:H1.
  destruct (acquire E self i w2) as [r2 w2'] eqn:H2.
  unfold acquire in H1, H2. rewrite Ht in H1, H2. cbn [fst].
  step H1 as Ha1; step H2 as Ha2; try congruence. same_result.
  step H1 as Hb1; step H2 as Hb2; try congruence. same_result.
  step H1 as Hc1; step H2 as Hc2; try congruence. same_result.
  step H1 as Hd1; step H2 as Hd2; try congruence. same_result.
  step H1 as He1; step H2 as He2; try congruence. same_result.
  step H1 as Hf1; step H2 as Hf2; try congruence. same_result.
  match type of H1 with
  | (compose self ≫= _) ?wa = _ =>
      match type of H2 with
      | (compose self ≫= _) ?wb = _ =>
          pose proof (compose_heap self wa wb Hh) as Hc
      end
  end.
  apply bind_inv in H1 as [(t1 & wa & Hs1 & H1) | (e1 & Hs1 & ->)];
    apply bind_inv in H2 as [(t2 & wb & Hs2 & H2) | (e2 & Hs2 & ->)];
    rewrite Hs1, Hs2 in Hc; cbn in Hc; try congruence.
  inversion H1. inversion H2. reflexivity.
Qed.

Lemma load_sample_plain_indep self i w1 w2 :
  transforms self = false -> w_heap w1 = w_heap w2 ->
  (load_sample E self i w1).1 = (load_sample E self i w2).1.
Proof.
  intros Ht Hh. pose proof (acquire_plain_indep self i w1 w2 Ht Hh) as Hacq.
  unfold load_sample. rewrite !bind_eq.
  destruct (acquire E self i w1) as [[a1|e1] w1'],
           (acquire E self i w2) as [[a2|e2] w2']; cbn in *; congruence.
Qed.

Lemma for_file_idx_plain_indep self idxs il ml w1 w2 :
  transforms self = false -> w_heap w1 = w_heap w2 ->
  (for_file_idx E self idxs il ml w1).1 = (for_file_idx E self idxs il ml w2).1.
Proof.
  intros Ht. revert il ml w1 w2.
  induction idxs as [|i idxs IH]; intros il ml w1 w2 Hh; [done|].
  cbn [for_file_idx]. rewrite !bind_eq.
  pose proof (load_sample_plain_indep self i w1 w2 Ht Hh) as Hs.
  destruct (load_sample E self i w1) as [[[im1 mk1]|e1] w1'] eqn:H1,
           (load_sample E self i w2) as [[[im2 mk2]|e2] w2'] eqn:H2;
    cbn in Hs |- *; try congruence.
  injection Hs as -> ->. apply IH.
  apply load_sample_inv in H1 as [(? & Ha1 & _) | (? & ? & ?)]; [|done].
  apply load_sample_inv in H2 as [(? & Ha2 & _) | (? & ? & ?)]; [|done].
  apply (acquire_plain E) in Ha1 as (_ & -> & _); [|done].
  apply (acquire_plain E) in Ha2 as (_ & -> & _); done.
Qed.

End Indep.

(** X21. With augmentation disabled, what a fetch returns or raises does
    not depend on the state of the random module nor on what was fetched
    before: two fetches of one batch under the same dicts have the same
    outcome. *)
Theorem X21_getitem_without_augmentation_repeatable
    (E : externals) (self : RailDataset) (b : Z) (w1 w2 : world) :
  transforms self = false -> w_heap w1 = w_heap w2 ->
  (__getitem__ E self b w1).1 = (__getitem__ E self b w2).1.
Proof.
  intros Ht Hh. unfold __getitem__. rewrite !bind_eq.
  pose proof (for_file_idx_plain_indep E self (file_indices self b) [] [] w1 w2 Ht Hh)
    as Hloop.
  destruct (for_file_idx E self _ [] [] w1) as [[[il1 ml1]|e1] w1'],
           (for_file_idx E self _ [] [] w2) as [[[il2 ml2]|e2] w2'];
    cbn in Hloop |- *; try congruence.
  injection Hloop as -> ->.
  rewrite !bind_eq. unfold lift.
  destruct (np_stack il2); [|done]. rewrite !bind_eq.
  by destruct (np_stack ml2).
Qed.

(** ** Packaging *)

(** Running over rows and columns is running over the flat positions. *)
Lemma bind_seq_flatten {B} (f : nat -> list B) (d1 d2 : nat) :
  (seq 0 d1 ≫= fun i => seq 0 d2 ≫= fun j => f (i * d2 + j)%nat)
  = seq 0 (d1 * d2) ≫= f.
Proof.
  induction d1 as [|d1 IH]; [done|].
  rewrite seq_S, bind_app, IH. cbn [Nat.add].
  replace (S d1 * d2)%nat with (d1 * d2 + d2)%nat by lia.
  rewrite seq_app, bind_app. f_equal.
  rewrite bind_cons. cbn [mbind list_bind]. rewrite app_nil_r.
  rewrite Nat.add_0_l, <- (Nat.add_0_r (d1 * d2)) at 1.
  rewrite <- (fmap_add_seq (d1 * d2) 0 d2), list_fmap_bind. reflexivity.
Qed.

Lemma bind_lookup_all {A} (l : list A) :
  seq 0 (length l) ≫= (fun p => option_list (l !! p)) = l.
Proof.
  induction l as [|a l IH]; [done|].
  cbn [length seq]. rewrite bind_cons. cbn [lookup list_lookup option_list app].
  f_equal. rewrite <- fmap_S_seq, list_fmap_bind. exact IH.
Qed.

Lemma length_bind_const {A B} (f : A -> list B) (k : nat) (l : list A) :
  (forall x, length (f x) = k) -> length (l ≫= f) = (length l * k)%nat.
Proof.
  intros Hf. induction l as [|x l IH]; [done|].
  rewrite bind_cons, length_app, Hf, IH. cbn. lia.
Qed.

Lemma length_data_np_asarray (img : pil_image) :
  length (data (np_asarray img)) =
  ((im_size img).2 * ((im_size img).1 * Pos.to_nat (im_bands img)))%nat.
Proof.
  unfold np_asarray. destruct (im_size img) as [w h]. cbn [data fst snd].
  rewrite (length_bind_const _ (w * Pos.to_nat (im_bands img))), length_seq; [done|].
  intros y. rewrite (length_bind_const _ (Pos.to_nat (im_bands img))), length_seq; [done|].
  intros x. rewrite (length_bind_const _ 1%nat), length_seq; [lia|done].
Qed.

(** Moving the leading axis of length 1 to the end keeps the elements in
    their order. *)
Lemma transpose_120_expand_dims_data (m : ndarray) (d1 d2 : nat) :
  shape m = [d1; d2] -> length (data m) = (d1 * d2)%nat ->
  transpose_120 (astype_float32 (np_expand_dims0 m)) =
    Ok (mk_ndarray [d1; d2; 1%nat] Float32 (map f32 (data m))).
Proof.
  intros Hs Hlen. unfold transpose_120, astype_float32, np_expand_dims0. cbn.
  rewrite Hs. do 2 f_equal.
  transitivity (seq 0 (d1 * d2) ≫= (fun p => option_list (map f32 (data m) !! p))).
  - rewrite <- bind_seq_flatten.
    apply list_bind_ext; [|done]. intros i.
    apply list_bind_ext; [|done]. intros j.
    by rewrite app_nil_r.
  - rewrite <- Hlen, <- (length_map f32). apply bind_lookup_all.
Qed.

(** What a packaging that returns has done. *)
Lemma package_Ok_data (image_arr mask_arr img_trans mask_out : ndarray) (h w : nat) :
  shape mask_arr = [h; w] -> length (data mask_arr) = (h * w)%nat ->
  package (image_arr, mask_arr) = Ok (img_trans, mask_out) ->
  img_trans =
    mk_ndarray (shape image_arr) Float32
      (map (fun v => f32_div_255 (f32 v)) (data image_arr)) /\
  mask_out = mk_ndarray [h; w; 1%nat] Float32 (map f32 (data mask_arr)).
Proof.
  intros Hs Hlen. unfold package.
  destruct (validate_mask mask_arr) as [[]|e]; [|done].
  rewrite (transpose_120_expand_dims_data mask_arr h w Hs Hlen).
  unfold transpose_012, div_255, astype_float32. cbn [shape arr_dtype data].
  rewrite map_map.
  destruct (shape image_arr) as [|a0 [|a1 [|a2 [|a3 ?]]]]; try done.
  by intros [= <- <-].
Qed.

(** Values that are float32 already stay as they are. *)
Lemma map_f32_exact (l : list scalar) :
  Forall (fun v => f32 v = v) l -> map f32 l = l.
Proof. induction 1 as [|v l Hv _ IH]; [done|]. cbn. by rewrite Hv, IH. Qed.

Lemma package_Ok_axes image_arr mask_arr out :
  package (image_arr, mask_arr) = Ok out ->
  length (shape image_arr) = 3%nat /\ length (shape mask_arr) = 2%nat.
Proof.
  unfold package, transpose_012, transpose_120, astype_float32, np_expand_dims0,
    div_255. cbn [shape].
  destruct (validate_mask mask_arr) as [[]|e]; [|done].
  destruct (shape image_arr) as [|a0 [|a1 [|a2 [|a3 ?]]]]; try done.
  by destruct (shape mask_arr) as [|b0 [|b1 [|b2 ?]]].
Qed.

(** X15. The packaging of a sample returns exactly when the mask passes
    the bound check, the image array has three axes and the mask array has
    two; a grey-level image or a mask with a channel axis makes it raise. *)
Theorem X15_package_returns_iff (image_arr mask_arr : ndarray) :
  (exists out, package (image_arr, mask_arr) = Ok out) <->
  validate_mask mask_arr = Ok tt /\
  length (shape image_arr) = 3%nat /\ length (shape mask_arr) = 2%nat.
Proof.
  unfold package, transpose_012, transpose_120, astype_float32, np_expand_dims0,
    div_255. cbn [shape].
  destruct (validate_mask mask_arr) as [[]|e]; cycle 1.
  { split; [by intros [? ?] | by intros [? _]]. }
  destruct (shape image_arr) as [|a0 [|a1 [|a2 [|a3 ?]]]];
    try (split; [by intros [? ?] | by intros (_ & ? & _)]).
  destruct (shape mask_arr) as [|b0 [|b1 [|b2 ?]]];
    try (split; [by intros [? ?] | by intros (_ & _ & ?)]).
  split; [done | intros _; by eexists].
Qed.

(** X16. What the packaging returns: the image with its shape, every
    value converted to float32 and then divided by 255 in float32 (each
    step rounds to the nearest float32); the mask with a last axis of
    length 1 added and its values converted to float32, in their order,
    so that a mask of float32 values keeps them unchanged. *)
Theorem X16_package_result (image_arr mask_arr img_trans mask_out : ndarray)
    (h w : nat) :
  shape mask_arr = [h; w] -> length (data mask_arr) = (h * w)%nat ->
  package (image_arr, mask_arr) = Ok (img_trans, mask_out) ->
  img_trans =
    mk_ndarray (shape image_arr) Float32
      (map (fun v => f32_div_255 (f32 v)) (data image_arr)) /\
  mask_out = mk_ndarray [h; w; 1%nat] Float32 (map f32 (data mask_arr)) /\
  (Forall (fun v => f32 v = v) (data mask_arr) -> data mask_out = data mask_arr).
Proof.
  intros Hs Hlen Hp.
  destruct (package_Ok_data _ _ _ _ h w Hs Hlen Hp) as [Himg Hmsk].
  split; [exact Himg|]. split; [exact Hmsk|].
  intros Hexact. rewrite Hmsk. cbn [data]. by apply map_f32_exact.
Qed.

(** ** What a fetch returns *)

Section Returned.

Variable E : externals.

(** The trace of a sample that [acquire] returns. *)
Lemma acquire_Ok_trace self i w arrs w' :
  acquire E self i w = (Ok arrs, w') ->
  w_trace w' = w_trace w ++ sample_events self i.
Proof.
  intros H. unfold acquire in H. unfold sample_events, sample_paths.
  step H as Himg. step H as Hopen1. step H as Hmsk. step H as Hopen2.
  step H as Hr1. step H as Hr2. step H as Hchain.
  rewrite Himg, Hmsk. cbn [map].
  destruct (transforms self).
  - destruct (bg_dir_pth self) as [bg|]; [|by inversion H].
    step H as Hp. step H as Haug.
    apply call_transform_inv in H as (o & ? & _ & -> & _).
    cbn [w_trace]. by rewrite <- !app_assoc.
  - inversion H. cbn [w_trace]. by rewrite <- !app_assoc.
Qed.

(** Without augmentation [acquire] returns the arrays of the two files. *)
Lemma acquire_plain_Ok self i w image_arr mask_arr w' :
  transforms self = false ->
  acquire E self i w = (Ok (image_arr, mask_arr), w') ->
  exists img_pth msk_pth,
    sample_paths self i = [img_pth; msk_pth] /\
    raster E self img_pth = Some image_arr /\
    raster E self msk_pth = Some mask_arr.
Proof.
  intros Ht H. unfold acquire in H. rewrite Ht in H.
  step H as Himg. step H as Hopen1. step H as Hmsk. step H as Hopen2.
  step H as Hr1. step H as Hr2. step H as Hchain.
  inversion H; subst. eexists _, _. unfold sample_paths, raster.
  rewrite Himg, Hmsk. split; [done|].
  destruct (pil_open E _) in Hopen1 |- *; [|done]. injection Hopen1 as <-.
  destruct (pil_open E _) in Hopen2 |- *; [|done]. injection Hopen2 as <-.
  by rewrite Hr1, Hr2.
Qed.

(** A loop that returns has loaded every sample of its indices, in order,
    and appended what it loaded. *)
Lemma for_file_idx_Ok_inv self idxs il ml w il' ml' w' :
  for_file_idx E self idxs il ml w = (Ok (il', ml'), w') ->
  exists outs,
    il' = il ++ outs.*1 /\ ml' = ml ++ outs.*2 /\
    Forall2 (fun i out => exists w0 w1, load_sample E self i w0 = (Ok out, w1))
      idxs outs.
Proof.
  revert il ml w. induction idxs as [|i idxs IH]; intros il ml w H.
  - cbn in H. inversion H. exists []. by rewrite !app_nil_r.
  - apply for_file_idx_cons_inv in H as [(im & mk & w1 & Hs & H) | (e & _ & ?)]; [|done].
    apply IH in H as (outs & -> & -> & Hall).
    exists ((im, mk) :: outs). rewrite <- !app_assoc. cbn.
    split; [done|]. split; [done|]. constructor; [eauto | done].
Qed.

Lemma for_file_idx_Ok_trace self idxs il ml w lists w' :
  for_file_idx E self idxs il ml w = (Ok lists, w') ->
  w_trace w' = w_trace w ++ flat_map (sample_events self) idxs.
Proof.
  revert il ml w. induction idxs as [|i idxs IH]; intros il ml w H.
  - cbn in H. inversion H. by rewrite app_nil_r.
  - apply for_file_idx_cons_inv in H as [(im & mk & w1 & Hs & H) | (e & _ & ?)]; [|done].
    apply IH in H as ->.
    apply load_sample_inv in Hs as [(arrs & Hacq & _) | (e & _ & ?)]; [|done].
    apply acquire_Ok_trace in Hacq as ->. cbn [flat_map]. by rewrite <- app_assoc.
Qed.

End Returned.

(** X19. A fetch that returns has, for each file index of the batch in
    order, opened the image, opened the mask and then, with augmentation
    only, called the background swap and the transform chain once each;
    nothing else was opened or called. *)
Theorem X19_getitem_trace (E : externals) (self : RailDataset) (b : Z) (w : world)
    (batch : ndarray * ndarray) (w' : world) :
  __getitem__ E self b w = (Ok batch, w') ->
  w_trace w' = w_trace w ++ flat_map (sample_events self) (file_indices self b) /\
  Forall (fun i => exists img_pth msk_pth,
            sample_events self i =
              [EvOpen img_pth; EvOpen msk_pth] ++
              (if transforms self then [EvBackgroundSwap; EvTransform] else []))
    (file_indices self b).
Proof.
  intros H.
  apply getitem_inv in H as [(il & ml & Hloop & _) | (e & _ & ?)]; [|done].
  split; [by eapply for_file_idx_Ok_trace|].
  apply for_file_idx_Ok_inv in Hloop as (outs & _ & _ & Hall).
  apply Forall_forall. intros i Hi.
  apply list_elem_of_lookup in Hi as [n Hn].
  destruct (Forall2_lookup_l _ _ _ _ _ Hall Hn) as (out & _ & w0 & w1 & Hs).
  apply load_sample_inv in Hs as [([ia ma] & Hacq & _) | (e & _ & ?)]; [|done].
  unfold sample_events, sample_paths. unfold acquire in Hacq.
  step Hacq as Himg. step Hacq as Hopen1. step Hacq as Hmsk.
  rewrite Himg, Hmsk. eauto.
Qed.

(** ** Batches without augmentation *)

Section PlainBatch.

Variable E : externals.
Variable self : RailDataset.
Hypothesis Hplain : transforms self = false.

Let rows := Z.to_nat (res self).2.
Let cols := Z.to_nat (res self).1.

(** The array of a file: its shape and the number of its values. *)
Lemma raster_Some path arr :
  raster E self path = Some arr ->
  exists bands : nat,
    (1 <= bands)%nat /\
    shape arr = (if (bands =? 1)%nat then [rows; cols] else [rows; cols; bands]) /\
    length (data arr) = (rows * (cols * bands))%nat.
Proof.
  unfold raster. destruct (pil_open E path) as [img|]; [|done].
  unfold image_resize. destruct (_ || _); [done|]. intros [= <-].
  exists (Pos.to_nat (im_bands img)). split; [lia|].
  by rewrite shape_np_asarray, length_data_np_asarray.
Qed.

(** One packaged sample, without augmentation. *)
Lemma load_sample_plain_Ok i w0 im mk w1 :
  load_sample E self i w0 = (Ok (im, mk), w1) ->
  exists c : nat,
    (2 <= c)%nat /\
    im = mk_ndarray [rows; cols; c] Float32
           (map (fun v => f32_div_255 (f32 v)) (image_values E self i)) /\
    mk = mk_ndarray [rows; cols; 1%nat] Float32 (map f32 (mask_values E self i)).
Proof.
  intros H.
  apply load_sample_inv in H as [([ia ma] & Hacq & Hp) | (e & _ & ?)]; [|done].
  symmetry in Hp.
  apply acquire_plain_Ok in Hacq as (x & y & Hpaths & Hx & Hy); [|done].
  unfold image_values, mask_values. rewrite Hpaths, Hx, Hy. cbn [from_option].
  destruct (package_Ok_axes _ _ _ Hp) as [Hia Hma].
  apply raster_Some in Hx as (c & Hc & Hsx & _).
  apply raster_Some in Hy as (c' & Hc' & Hsy & Hly).
  destruct (Nat.eqb_spec c 1) as [->|Hne]; [by rewrite Hsx in Hia|].
  destruct (Nat.eqb_spec c' 1) as [->|Hne']; [|by rewrite Hsy in Hma].
  rewrite Nat.mul_1_r in Hly.
  destruct (package_Ok_data ia ma im mk rows cols Hsy Hly Hp) as [-> ->].
  exists c. rewrite Hsx. split; [lia|done].
Qed.

Lemma concat_fmap_flat_map {A B} (f : A -> list B) (l : list A) :
  concat (f <$> l) = flat_map f l.
Proof. induction l as [|a l IH]; [done|]. cbn. by rewrite IH. Qed.

(** The two lists of a loop that returns, without augmentation. *)
Lemma for_file_idx_plain_Ok idxs w il ml w' :
  for_file_idx E self idxs [] [] w = (Ok (il, ml), w') ->
  length il = length idxs /\
  Forall (fun im => exists c : nat,
            (2 <= c)%nat /\ shape im = [rows; cols; c] /\ arr_dtype im = Float32) il /\
  concat (map data il) =
    flat_map (fun i => map (fun v => f32_div_255 (f32 v)) (image_values E self i))
      idxs /\
  concat (map data ml) = flat_map (fun i => map f32 (mask_values E self i)) idxs.
Proof.
  intros H. apply for_file_idx_Ok_inv in H as (outs & -> & -> & Hall).
  cbn [app]. clear w w'.
  induction Hall as [|i [im mk] idxs outs (w0 & w1 & Hs) Hall IH].
  - by repeat split.
  - destruct IH as (Hlen & Hsh & Hdi & Hdm).
    apply load_sample_plain_Ok in Hs as (c & Hc & -> & ->).
    cbn [fmap list_fmap fst snd length map concat flat_map data].
    rewrite <- Hdi, <- Hdm. repeat split; [by f_equal|].
    constructor; [by exists c|done].
Qed.

End PlainBatch.

(** X17. Without augmentation a fetch that returns gives an image batch
    of shape (batch size, rows of the resolution, columns of the
    resolution, channels) with at least two channels and element type
    float32; the positions of the batch are at least one. *)
Theorem X17_getitem_image_batch_channels_last (E : externals) (self : RailDataset)
    (b : Z) (w : world) (img_batch msk_batch : ndarray) (w' : world) :
  transforms self = false ->
  __getitem__ E self b w = (Ok (img_batch, msk_batch), w') ->
  1 <= batch_size self /\
  arr_dtype img_batch = Float32 /\
  exists c : nat,
    (2 <= c)%nat /\
    shape img_batch =
      [Z.to_nat (batch_size self); Z.to_nat (res self).2; Z.to_nat (res self).1; c].
Proof.
  intros Ht H.
  apply getitem_inv in H as [(il & ml & Hloop & Hr) | (e & _ & ?)]; [|done].
  destruct (np_stack il) as [ib|] eqn:Hil; [|done].
  destruct (np_stack ml) as [mb|] eqn:Hml; [|done].
  injection Hr as <- <-.
  apply for_file_idx_plain_Ok in Hloop as (Hlen & Hsh & _); [|done].
  apply np_stack_Ok_inv in Hil as (a & rest & -> & Hs & Hd & _).
  rewrite length_file_indices in Hlen.
  apply Forall_cons in Hsh as [(c & Hc & Ha & Hda) _].
  split; [cbn in Hlen; lia|]. split; [congruence|].
  exists c. split; [done|]. by rewrite Hs, Hlen, Ha.
Qed.

(** X20. Without augmentation a fetch that returns gives the files as
    they resample: the values of the image batch are, sample after sample
    of the batch, the values of the resized image, each converted to
    float32 and divided by 255 in float32; the values of the mask batch
    are the values of the resized masks converted to float32, which
    leaves masks of float32 values unchanged. *)
Theorem X20_getitem_values (E : externals) (self : RailDataset)
    (b : Z) (w : world) (img_batch msk_batch : ndarray) (w' : world) :
  transforms self = false ->
  __getitem__ E self b w = (Ok (img_batch, msk_batch), w') ->
  data img_batch =
    flat_map (fun i => map (fun v => f32_div_255 (f32 v)) (image_values E self i))
      (file_indices self b) /\
  data msk_batch =
    flat_map (fun i => map f32 (mask_values E self i)) (file_indices self b) /\
  (Forall (fun i => Forall (fun v => f32 v = v) (mask_values E self i))
     (file_indices self b) ->
   data msk_batch = flat_map (mask_values E self) (file_indices self b)).
Proof.
  intros Ht H.
  apply getitem_inv in H as [(il & ml & Hloop & Hr) | (e & _ & ?)]; [|done].
  destruct (np_stack il) as [ib|] eqn:Hil; [|done].
  destruct (np_stack ml) as [mb|] eqn:Hml; [|done].
  injection Hr as <- <-.
  apply for_file_idx_plain_Ok in Hloop as (_ & _ & Hdi & Hdm); [|done].
  apply np_stack_Ok_inv in Hil as (? & ? & _ & _ & _ & ->).
  apply np_stack_Ok_inv in Hml as (? & ? & _ & _ & _ & ->).
  split; [done|]. split; [done|].
  intros Hexact. rewrite Hdm. clear -Hexact.
  induction Hexact as [|i idxs Hi _ IH]; [done|].
  cbn [flat_map]. by rewrite IH, (map_f32_exact _ Hi).
Qed.

(** The values of a file of 8 bits lie between 0 and 255. *)
Lemma raster_8bit (E : externals) (self : RailDataset) (path : string) (arr : ndarray) :
  pixels_8bit E -> raster E self path = Some arr ->
  Forall (between 0 255) (data arr).
Proof.
  intros H8. unfold raster. destruct (pil_open E path) as [img|] eqn:Hopen; [|done].
  unfold image_resize. destruct (_ || _); [done|]. intros [= <-].
  unfold np_asarray. cbn [im_size im_bands im_pixel data].
  apply Forall_forall. intros q Hq.
  apply list_elem_of_bind in Hq as (py & Hq & Hy).
  apply list_elem_of_bind in Hq as (px & Hq & Hx).
  apply list_elem_of_bind in Hq as (pc & Hq & Hc).
  apply list_elem_of_singleton in Hq as ->.
  apply elem_of_seq in Hy, Hx, Hc.
  apply (H8 path img Hopen); lia.
Qed.

(** X18. When every file resamples to values of 8 bits, a fetch without
    augmentation that returns gives an image batch with every value
    between 0 and 1. *)
Theorem X18_getitem_image_values_scaled (E : externals) (self : RailDataset)
    (b : Z) (w : world) (img_batch msk_batch : ndarray) (w' : world) :
  pixels_8bit E -> transforms self = false ->
  __getitem__ E self b w = (Ok (img_batch, msk_batch), w') ->
  Forall (between 0 1) (data img_batch).
Proof.
  intros H8 Ht H.
  apply getitem_inv in H as [(il & ml & Hloop & Hr) | (e & _ & ?)]; [|done].
  destruct (np_stack il) as [ib|] eqn:Hil; [|done].
  destruct (np_stack ml) as [mb|] eqn:Hml; [|done].
  injection Hr as <- <-.
  apply for_file_idx_plain_Ok in Hloop as (_ & _ & Hdi & _); [|done].
  apply np_stack_Ok_inv in Hil as (? & ? & _ & _ & _ & ->).
  rewrite Hdi. apply Forall_forall. intros q Hq.
  apply list_elem_of_In, in_flat_map in Hq as (i & _ & Hq).
  apply list_elem_of_In, list_elem_of_fmap in Hq as (p & -> & Hp).
  assert (Hrange : between 0 255 p).
  { unfold image_values in Hp.
    destruct (sample_paths self i) as [|ipth [|mpth [|? ?]]]; try by apply elem_of_nil in Hp.
    destruct (raster E self ipth) as [arr|] eqn:Hx; [|by apply elem_of_nil in Hp].
    cbn in Hp. pose proof (raster_8bit E self ipth arr H8 Hx) as Hall.
    rewrite Forall_forall in Hall. by apply Hall. }
  apply f32_div_255_between. by apply (f32_between 255).
Qed.

(** ** An epoch *)

(** X9. The batches 0 .. len - 1 of one epoch read exactly the positions
    0 .. len + batch size - 2 of the path tuples, which all exist; the
    pairs stored after them are read by no batch of the epoch. *)
Theorem X9_epoch_positions (self : RailDataset) (n i : Z) :
  1 <= batch_size self -> __len__ self = Ok n ->
  ((exists b, 0 <= b < n /\ i ∈ file_indices self b) <->
   1 <= n /\ 0 <= i < n + batch_size self - 1) /\
  (1 <= n -> n + batch_size self - 1 <= corpus_size self).
Proof.
  intros Hbs Hlen. apply len_spec in Hlen as [[_ Hq]|[Hneg _]]; [|lia].
  split; [split|].
  - intros (b & Hb & Hi). apply elem_of_py_range in Hi. lia.
  - intros [Hn Hi]. exists (Z.min i (n - 1)). split; [lia|].
    apply elem_of_py_range. lia.
  - intros Hn. nia.
Qed.

(** * The claims on the batches *)

(** ** The loop, sample after sample *)

Section Loop.

Variable E : externals.

Lemma for_file_idx_loads self idxs il ml w il' ml' w' :
  for_file_idx E self idxs il ml w = (Ok (il', ml'), w') <->
  exists outs,
    loads E self idxs w outs w' /\ il' = il ++ outs.*1 /\ ml' = ml ++ outs.*2.
Proof.
  revert il ml w. induction idxs as [|i idxs IH]; intros il ml w.
  - cbn [for_file_idx]. split.
    + intros H. inversion H; subst. exists []. cbn. rewrite !app_nil_r.
      split; [constructor | done].
    + intros (outs & Hl & -> & ->). inversion Hl; subst. cbn. by rewrite !app_nil_r.
  - split.
    + intros H.
      apply for_file_idx_cons_inv in H as [(im & mk & w1 & Hs & H) | (e & _ & ?)];
        [|done].
      apply IH in H as (outs & Hl & -> & ->). exists ((im, mk) :: outs).
      rewrite <- !app_assoc. split; [by econstructor | done].
    + intros (outs & Hl & -> & ->).
      inversion Hl as [|? ? ? [im mk] w1 outs' ? Hs Hl']; subst.
      cbn [for_file_idx]. rewrite (bind_Ok _ _ _ _ _ Hs). apply IH.
      exists outs'. cbn. by rewrite <- !app_assoc.
Qed.

Lemma for_file_idx_raises self pre i post il ml w outs w1 e w2 :
  loads E self pre w outs w1 ->
  load_sample E self i w1 = (Raise e, w2) ->
  for_file_idx E self (pre ++ i :: post) il ml w = (Raise e, w2).
Proof.
  intros Hl Hs. revert il ml.
  induction Hl as [w|j idxs w [im mk] w0 outs w1 Hj Hl IH]; intros il ml.
  - cbn [app for_file_idx]. by rewrite (bind_Raise _ _ _ _ _ Hs).
  - cbn [app for_file_idx]. rewrite (bind_Ok _ _ _ _ _ Hj). by apply IH.
Qed.

Lemma loads_Forall2 self idxs w outs w' :
  loads E self idxs w outs w' ->
  Forall2 (fun i out => exists w0 w1, load_sample E self i w0 = (Ok out, w1))
    idxs outs.
Proof. induction 1; constructor; eauto. Qed.

(** A fetch returns exactly when the loop body succeeds on each file
    index of the batch in turn; the batch stacks what the body returned. *)
Lemma getitem_Ok_iff self b w batch w' :
  __getitem__ E self b w = (Ok batch, w') <->
  exists outs,
    loads E self (file_indices self b) w outs w' /\
    np_stack outs.*1 = Ok batch.1 /\ np_stack outs.*2 = Ok batch.2.
Proof.
  split.
  - intros H.
    apply getitem_inv in H as [(il & ml & Hloop & Hr) | (e & _ & ?)]; [|done].
    apply for_file_idx_loads in Hloop as (outs & Hl & -> & ->). cbn [app] in Hr.
    exists outs. split; [done|].
    destruct (np_stack outs.*1) as [ib|]; [|done].
    destruct (np_stack outs.*2) as [mb|]; [|done].
    by injection Hr as ->.
  - intros (outs & Hl & Hi & Hm).
    assert (Hloop : for_file_idx E self (file_indices self b) [] [] w =
                    (Ok (outs.*1, outs.*2), w')).
    { apply for_file_idx_loads. by exists outs. }
    unfold __getitem__. rewrite (bind_Ok _ _ _ _ _ Hloop).
    rewrite !bind_eq. unfold lift. rewrite Hi, !bind_eq, Hm.
    by destruct batch.
Qed.

(** A fetch raises what the loop body raises at the first file index
    where it fails. *)
Lemma getitem_raises_at self b w pre i post outs w1 e w2 :
  file_indices self b = pre ++ i :: post ->
  loads E self pre w outs w1 ->
  load_sample E self i w1 = (Raise e, w2) ->
  __getitem__ E self b w = (Raise e, w2).
Proof.
  intros Hidx Hl Hs. unfold __getitem__. rewrite Hidx.
  by rewrite (bind_Raise _ _ _ _ _ (for_file_idx_raises _ _ _ _ _ _ _ _ _ _ _ Hl Hs)).
Qed.

(** [acquire] opens the image of its file index before anything can
    fail, once the index is in the tuple. *)
Lemma acquire_opens_first self i w r w' x :
  tuple_getitem (img_pths self) i = Ok x ->
  acquire E self i w = (r, w') ->
  exists l, opened (w_trace w') = opened (w_trace w) ++ x :: l.
Proof.
  intros Hx H. unfold acquire in H. rewrite Hx in H.
  rewrite (bind_Ok (lift (Ok x)) _ w x w eq_refl) in H.
  assert (Hone : forall w0 : world,
             w_trace w0 = w_trace w ++ [EvOpen x] ->
             exists l, opened (w_trace w0) = opened (w_trace w) ++ x :: l).
  { intros w0 Ht. exists []. rewrite Ht, opened_app. reflexivity. }
  assert (Htwo : forall (w0 : world) (y : string),
             opened (w_trace w0) = opened (w_trace w) ++ [x; y] ->
             exists l, opened (w_trace w0) = opened (w_trace w) ++ x :: l).
  { intros w0 y Ht. by exists [y]. }
  step H as Hopen1; [|by apply Hone].
  step H as Hmsk; [|by apply Hone].
  step H as Hr1; [|eapply Htwo; solve_opened].
  step H as Hr2; [|eapply Htwo; solve_opened].
  step H as Hr3; [|eapply Htwo; solve_opened].
  step H as Hchain; [|eapply Htwo; solve_opened].
  destruct (transforms self).
  - destruct (bg_dir_pth self) as [bg|].
    + step H as Hp; [|eapply Htwo; solve_opened].
      step H as Haug; [|eapply Htwo; solve_opened].
      apply call_transform_inv in H as (? & ? & ? & -> & ?).
      eapply Htwo; solve_opened.
    + inversion H. eapply Htwo; solve_opened.
  - inversion H. eapply Htwo; solve_opened.
Qed.

Lemma getitem_opens_first self b w r w' x :
  1 <= batch_size self ->
  length (img_pths self) = length (msk_pths self) ->
  tuple_getitem (img_pths self) b = Ok x ->
  __getitem__ E self b w = (r, w') ->
  exists l, opened (w_trace w') = opened (w_trace w) ++ x :: l.
Proof.
  intros Hbs Hlen Hx H.
  assert (Hloop : exists r0, for_file_idx E self (file_indices self b) [] [] w = (r0, w')).
  { apply getitem_inv in H as [(il & ml & Hloop & _) | (e & Hloop & _)]; eauto. }
  destruct Hloop as [r0 Hloop]. rewrite file_indices_cons in Hloop by done.
  apply for_file_idx_cons_inv in Hloop as [(im & mk & w1 & Hs & Hrest) | (e & Hs & _)].
  - apply load_sample_inv in Hs as [(arrs & Hacq & _) | (e & _ & ?)]; [|done].
    destruct (acquire_opens_first _ _ _ _ _ _ Hx Hacq) as [l1 Hl1].
    destruct (for_file_idx_trace E self _ _ _ _ _ _ Hlen Hrest) as (l2 & Hl2 & _).
    exists (l1 ++ l2). by rewrite Hl2, Hl1, <- app_assoc.
  - apply load_sample_inv in Hs as [(arrs & Hacq & _) | (e' & Hacq & _)];
      by apply (acquire_opens_first _ _ _ _ _ _ Hx Hacq).
Qed.



End Loop.

(** C1. For every constructed RailDataset with batch_size >= 1 and every
    batch index b in [0, length()), the batch b selects exactly the file
    indices b, b+1, ..., b+batch_size-1.  These are the indices the loop
    runs over and each has an image and a mask path.  Every fetch opens
    the image of index b first and then the files of these indices in
    this order, no other file, and all of them when it returns.  The fetch
    returns exactly when the loop body succeeds on b, b+1, ...,
    b+batch_size-1 in turn, with the stack of what the body returned, and
    it raises what the body raises at the first of these indices where
    it fails.  The indices are not b*batch_size .. b*batch_size +
    batch_size - 1 (for b >= 1 and batch_size > 1), and the batches b and
    b+1 share the indices b+1 .. b+batch_size-1 when batch_size > 1. *)
Theorem C1_batch_selects_overlapping_indices
    (E : externals) (self : RailDataset) (b n : Z) :
  reachable E self -> 1 <= batch_size self -> __len__ self = Ok n -> 0 <= b < n ->
  file_indices self b =
    map (fun k => b + Z.of_nat k) (seq 0 (Z.to_nat (batch_size self))) /\
  (forall i, i ∈ file_indices self b <-> b <= i <= b + batch_size self - 1) /\
  Forall (fun i => exists img_pth msk_pth,
            img_pths self !! Z.to_nat i = Some img_pth /\
            msk_pths self !! Z.to_nat i = Some msk_pth /\
            sample_paths self i = [img_pth; msk_pth])
    (file_indices self b) /\
  (forall w r w',
     __getitem__ E self b w = (r, w') ->
     exists img_pth l,
       img_pths self !! Z.to_nat b = Some img_pth /\
       opened (w_trace w') = opened (w_trace w) ++ img_pth :: l /\
       img_pth :: l `prefix_of` flat_map (sample_paths self) (file_indices self b) /\
       ((exists batch, r = Ok batch) ->
        img_pth :: l = flat_map (sample_paths self) (file_indices self b))) /\
  (forall w batch w',
     __getitem__ E self b w = (Ok batch, w') <->
     exists outs,
       loads E self (file_indices self b) w outs w' /\
       np_stack outs.*1 = Ok batch.1 /\ np_stack outs.*2 = Ok batch.2) /\
  (forall w pre i post outs w1 e w2,
     file_indices self b = pre ++ i :: post ->
     loads E self pre w outs w1 ->
     load_sample E self i w1 = (Raise e, w2) ->
     __getitem__ E self b w = (Raise e, w2)) /\
  (1 < batch_size self -> 1 <= b ->
   file_indices self b <>
     py_range (b * batch_size self) (b * batch_size self + batch_size self)) /\
  (1 < batch_size self ->
   forall i, b + 1 <= i <= b + batch_size self - 1 ->
     i ∈ file_indices self b /\ i ∈ file_indices self (b + 1)).
Proof.
  intros Hreach Hbs Hlen Hb.
  destruct (reachable_inv E self Hreach) as (_ & [Hlens _] & _).
  pose proof (file_indices_paths E self b n Hreach Hbs Hlen Hb) as Hpaths.
  split.
  { unfold file_indices, py_range. do 3 f_equal. lia. }
  split.
  { intros i. unfold file_indices. rewrite elem_of_py_range. lia. }
  split.
  { eapply Forall_impl; [exact Hpaths|].
    intros i (_ & x & y & _ & _ & Hx & Hy & Hp). eauto. }
  split.
  { intros w r w' H.
    rewrite file_indices_cons in Hpaths by done.
    apply Forall_cons in Hpaths as [(_ & x & y & Hx & _ & Hlx & _) _].
    destruct (getitem_opens_first E self b w r w' x Hbs Hlens Hx H) as [l0 Hl0].
    exists x, l0. split; [done|]. split; [done|].
    apply getitem_inv in H as [(il & ml & Hloop & Hr) | (e & Hloop & ->)];
      destruct (for_file_idx_trace E self _ _ _ _ _ _ Hlens Hloop)
        as (l & Ht & Hpre & Hfull & _);
      rewrite Ht in Hl0; apply app_inv_head in Hl0; subst l;
      (split; [exact Hpre|]).
    - intros _. apply Hfull. by eexists.
    - by intros [? ?]. }
  split; [intros w batch w'; apply getitem_Ok_iff|].
  split; [intros w pre i post outs w1 e w2; apply getitem_raises_at|].
  split.
  { intros Hbs1 Hb1. rewrite file_indices_cons by lia.
    rewrite (py_range_cons (b * batch_size self)) by lia.
    intros Heq. injection Heq as Heq _. nia. }
  intros Hbs1 i Hi. unfold file_indices. rewrite !elem_of_py_range. lia.
Qed.



(** C7 (amended). For every RailDataset constructed with augmentation
    enabled and no background directory, no get_batch call returns a
    batch and none applies an augmentation; when the image and the mask
    of the first file index of the batch load (and batch_size >= 1, and
    the dict still holds the five keys that the chain reads), the call
    fails with the validation error of the missing background path,
    raised right after these two files were opened. *)
Theorem C7_no_background_fails
    (E : externals) (self : RailDataset) (b : Z) (w : world) :
  reachable E self -> transforms self = true -> bg_dir_pth self = None ->
  (forall r w',
     __getitem__ E self b w = (r, w') ->
     (forall batch, r <> Ok batch) /\
     augmentation_calls (w_trace w') = augmentation_calls (w_trace w)) /\
  (forall img_pth msk_pth image_img mask_img,
     1 <= batch_size self -> chain_ready w self ->
     tuple_getitem (img_pths self) b = Ok img_pth ->
     pil_open E img_pth = Some image_img ->
     tuple_getitem (msk_pths self) b = Ok msk_pth ->
     pil_open E msk_pth = Some mask_img ->
     __getitem__ E self b w =
       (Raise (ValueError BackgroundPathNone), after_open w img_pth msk_pth)).
Proof.
  intros Hreach Ht Hbg.
  destruct (reachable_inv E self Hreach) as (_ & _ & Hr1 & Hr2).
  split.
  - intros r w' H.
    apply getitem_inv in H as [(il & ml & Hloop & Hr) | (e & Hloop & ->)];
      destruct (for_file_idx_no_background E self _ _ _ _ _ _ Ht Hbg Hloop)
        as [Hempty Hcalls]; (split; [|exact Hcalls]); [|done].
    destruct (Hempty _ eq_refl) as [_ Heq]. injection Heq as -> ->. subst r.
    intros batch. cbn. done.
  - intros x y im mk Hbs Hready Hx Hox Hy Hoy.
    apply getitem_first_raises; [done|].
    unfold load_sample.
    by rewrite (bind_Raise _ _ _ _ _
                  (acquire_no_background_raises E self b w x y im mk
                     Ht Hbg Hr1 Hr2 Hready Hx Hox Hy Hoy)).
Qed.

(** ** The properties on the small file system *)

Lemma plain_reachable : reachable Demo.fs Demo.plain_ds.
Proof.
  apply (reachable_init Demo.fs Demo.plain_args Demo.world0 _ Demo.plain_world).
  vm_compute. reflexivity.
Qed.

Lemma X2_witness :
  glob Demo.fs (path_join "void" ("*." +:+ "png")) = [] /\
  __init__ Demo.fs Demo.empty_args Demo.world0 =
    (Raise (ValueError UnpackExpected2Got0), Demo.world0).
Proof.
  split; [reflexivity|].
  apply (X2_init_empty_directory Demo.fs Demo.empty_args Demo.world0).
  left. reflexivity.
Defined.


Lemma X4_witness :
  ~ Forall (fun p => stem p.1 = stem p.2) (discovered_pairs Demo.fs Demo.stems_args) /\
  exists p w',
    p ∈ discovered_pairs Demo.fs Demo.stems_args /\ stem p.1 <> stem p.2 /\
    __init__ Demo.fs Demo.stems_args Demo.world0 =
      (Raise (ValueError (StemMismatch (stem p.1) (stem p.2))), w') /\
    w_heap w' = w_heap Demo.world0.
Proof.
  assert (Hstems : ~ Forall (fun p => stem p.1 = stem p.2)
                     (discovered_pairs Demo.fs Demo.stems_args)).
  { assert (Hp : discovered_pairs Demo.fs Demo.stems_args =
                 [("imgs/0.png", "two/a.png"); ("imgs/1.png", "two/b.png")])
      by (vm_compute; reflexivity).
    rewrite Hp. intros H. apply Forall_inv in H. vm_compute in H. discriminate. }
  split; [exact Hstems|].
  apply (X4_init_stem_mismatch Demo.fs Demo.stems_args Demo.world0).
  - simpl. lia.
  - simpl. lia.
  - exact Hstems.
Defined.

Lemma X5_witness :
  __init__ Demo.fs Demo.plain_args Demo.world0 = (Ok Demo.plain_ds, Demo.plain_world) /\
  w_trace Demo.plain_world = w_trace Demo.world0 /\
  (forall l, l <> tfs_prb Demo.plain_ds ->
     w_heap Demo.plain_world !! l = w_heap Demo.world0 !! l).
Proof.
  assert (Hrun : __init__ Demo.fs Demo.plain_args Demo.world0 =
                 (Ok Demo.plain_ds, Demo.plain_world))
    by (vm_compute; reflexivity).
  split; [exact Hrun|].
  destruct (X5_init_frame Demo.fs Demo.plain_args Demo.world0 _ _ Hrun)
    as (Htrace & _ & Hheap).
  split; [exact Htrace|].
  intros l Hl. apply (Hheap Demo.plain_ds l eq_refl Hl).
Defined.

Lemma X6_witness :
  __init__ Demo.fs Demo.plain_args Demo.world0 = (Ok Demo.plain_ds, Demo.plain_world) /\
  sample_pairs Demo.plain_ds ≡ₚ discovered_pairs Demo.fs Demo.plain_args /\
  corpus_size Demo.plain_ds = 4.
Proof.
  assert (Hrun : __init__ Demo.fs Demo.plain_args Demo.world0 =
                 (Ok Demo.plain_ds, Demo.plain_world))
    by (vm_compute; reflexivity).
  split; [exact Hrun|].
  destruct (X6_init_corpus Demo.fs Demo.plain_args Demo.world0 _ _ Hrun)
    as (Hperm & Hsize & _).
  split; [exact Hperm|]. rewrite Hsize. reflexivity.
Defined.

Lemma X7_witness :
  is_Some (w_heap Demo.world0 !! tfs_prb_default) /\
  __init__ Demo.fs Demo.plain_args Demo.world0 = (Ok Demo.plain_ds, Demo.plain_world) /\
  __init__ Demo.fs Demo.shared_args Demo.plain_world =
    (Ok Demo.shared_ds, Demo.shared_world) /\
  tfs_prb Demo.shared_ds = tfs_prb Demo.plain_ds /\
  w_heap Demo.shared_world = w_heap Demo.plain_world.
Proof.
  assert (Hsome : is_Some (w_heap Demo.world0 !! tfs_prb_default))
    by (exists ∅; reflexivity).
  assert (Hrun1 : __init__ Demo.fs Demo.plain_args Demo.world0 =
                  (Ok Demo.plain_ds, Demo.plain_world))
    by (vm_compute; reflexivity).
  assert (Hrun2 : __init__ Demo.fs Demo.shared_args Demo.plain_world =
                  (Ok Demo.shared_ds, Demo.shared_world))
    by (vm_compute; reflexivity).
  split; [exact Hsome|]. split; [exact Hrun1|]. split; [exact Hrun2|].
  apply (X7_init_defaults_once Demo.fs Demo.plain_args Demo.shared_args Demo.world0
           Demo.plain_ds Demo.shared_ds Demo.plain_world Demo.shared_world
           Hsome Hrun1 eq_refl Hrun2).
Defined.

Lemma X8_witness :
  reachable Demo.fs Demo.plain_ds /\
  exists self' w',
    on_epoch_end Demo.plain_ds Demo.plain_world = (Ok self', w') /\
    __len__ self' = Ok 2 /\ corpus_size self' = 4.
Proof.
  split; [exact plain_reachable|].
  destruct (X8_on_epoch_end_keeps_length Demo.fs Demo.plain_ds Demo.plain_world
              plain_reachable)
    as (self' & w' & Hrun & Hlen & Hsize & _).
  exists self', w'. split; [exact Hrun|].
  split; [rewrite Hlen; reflexivity | rewrite Hsize; reflexivity].
Defined.

Lemma X10_witness :
  batch_size Demo.zero_ds <= 0 /\
  file_indices Demo.zero_ds 0 = [] /\
  __getitem__ Demo.fs Demo.zero_ds 0 Demo.zero_world =
    (Raise (ValueError StackEmpty), Demo.zero_world).
Proof.
  assert (Hbs : batch_size Demo.zero_ds <= 0) by (simpl; lia).
  split; [exact Hbs|].
  apply (X10_getitem_empty_batch Demo.fs Demo.zero_ds 0 Demo.zero_world Hbs).
Defined.

Lemma X11_witness :
  transforms Demo.plain_ds = false /\
  augmentation_calls (w_trace (__getitem__ Demo.fs Demo.plain_ds 0 Demo.plain_world).2) =
    augmentation_calls (w_trace Demo.plain_world) /\
  w_rng (__getitem__ Demo.fs Demo.plain_ds 0 Demo.plain_world).2 = w_rng Demo.plain_world /\
  w_heap (__getitem__ Demo.fs Demo.plain_ds 0 Demo.plain_world).2 = w_heap Demo.plain_world.
Proof.
  split; [reflexivity|].
  apply (X11_getitem_without_augmentation Demo.fs Demo.plain_ds 0 Demo.plain_world
           (__getitem__ Demo.fs Demo.plain_ds 0 Demo.plain_world).1
           (__getitem__ Demo.fs Demo.plain_ds 0 Demo.plain_world).2).
  - reflexivity.
  - apply surjective_pairing.
Defined.

Lemma X12_witness :
  1 <= batch_size Demo.plain_ds /\ corpus_size Demo.plain_ds <= 4 /\
  __getitem__ Demo.fs Demo.plain_ds 4 Demo.plain_world = (Raise IndexError, Demo.plain_world).
Proof.
  assert (Hbs : 1 <= batch_size Demo.plain_ds) by (simpl; lia).
  assert (Hb : corpus_size Demo.plain_ds <= 4) by (vm_compute; discriminate).
  split; [exact Hbs|]. split; [exact Hb|].
  apply (X12_getitem_index_out_of_range Demo.fs Demo.plain_ds 4 Demo.plain_world Hbs).
  left. exact Hb.
Defined.

Lemma X13_witness :
  reachable Demo.fs Demo.plain_ds /\
  - corpus_size Demo.plain_ds <= -2 /\ -2 + batch_size Demo.plain_ds <= corpus_size Demo.plain_ds /\
  Forall (fun i => exists img_pth msk_pth,
            img_pths Demo.plain_ds !! Z.to_nat (i `mod` 4) = Some img_pth /\
            msk_pths Demo.plain_ds !! Z.to_nat (i `mod` 4) = Some msk_pth /\
            sample_paths Demo.plain_ds i = [img_pth; msk_pth])
    (file_indices Demo.plain_ds (-2)).
Proof.
  assert (H1 : - corpus_size Demo.plain_ds <= -2) by (vm_compute; discriminate).
  assert (H2 : -2 + batch_size Demo.plain_ds <= corpus_size Demo.plain_ds)
    by (vm_compute; discriminate).
  split; [exact plain_reachable|]. split; [exact H1|]. split; [exact H2|].
  exact (proj1 (X13_getitem_negative_indices_wrap Demo.fs Demo.plain_ds (-2)
                  plain_reachable H1 H2)).
Defined.

Lemma X14_witness :
  tuple_getitem (img_pths Demo.plain_ds) 0 = Ok "imgs/0.png" /\
  tuple_getitem (msk_pths Demo.plain_ds) 0 = Ok "msks/0.png" /\
  deref Demo.world0 (tfs_prb Demo.plain_ds) !! "Rotate" = None /\
  exists k,
    k ∈ chain_keys /\ deref Demo.world0 (tfs_prb Demo.plain_ds) !! k = None /\
    __getitem__ Demo.fs Demo.plain_ds 0 Demo.world0 =
      (Raise (KeyError k), after_open Demo.world0 "imgs/0.png" "msks/0.png").
Proof.
  split; [reflexivity|]. split; [reflexivity|]. split; [reflexivity|].
  apply (X14_getitem_missing_key Demo.fs Demo.plain_ds 0 Demo.world0
           "imgs/0.png" "msks/0.png" Demo.rgb_image Demo.binary_mask).
  - simpl. lia.
  - simpl. lia.
  - simpl. lia.
  - reflexivity.
  - reflexivity.
  - reflexivity.
  - reflexivity.
  - exists "Rotate". split; [|reflexivity].
    apply list_elem_of_In. simpl. tauto.
Defined.

Lemma X16_witness :
  shape (np_asarray Demo.binary_mask) = [2%nat; 3%nat] /\
  length (data (np_asarray Demo.binary_mask)) = (2 * 3)%nat /\
  Forall (fun v => f32 v = v) (data (np_asarray Demo.binary_mask)) /\
  match package (np_asarray Demo.rgb_image, np_asarray Demo.binary_mask) with
  | Ok (img_trans, mask_out) =>
      img_trans =
        mk_ndarray [2%nat; 3%nat; 3%nat] Float32
          (map (fun v => f32_div_255 (f32 v)) (data (np_asarray Demo.rgb_image))) /\
      mask_out =
        mk_ndarray [2%nat; 3%nat; 1%nat] Float32
          (map f32 (data (np_asarray Demo.binary_mask))) /\
      data mask_out = data (np_asarray Demo.binary_mask)
  | Raise _ => False
  end.
Proof.
  assert (Hexact : Forall (fun v => f32 v = v) (data (np_asarray Demo.binary_mask))).
  { apply Forall_forall. intros v Hv. apply list_elem_of_In in Hv.
    vm_compute in Hv. intuition (subst; vm_compute; reflexivity). }
  split; [reflexivity|]. split; [reflexivity|]. split; [exact Hexact|].
  destruct (package (np_asarray Demo.rgb_image, np_asarray Demo.binary_mask))
    as [[img_trans mask_out]|e] eqn:Hp.
  - destruct (X16_package_result (np_asarray Demo.rgb_image)
                (np_asarray Demo.binary_mask) img_trans mask_out 2 3
                eq_refl eq_refl Hp) as (Himg & Hmsk & Hsame).
    split; [exact Himg|]. split; [exact Hmsk | exact (Hsame Hexact)].
  - vm_compute in Hp. discriminate.
Defined.

(** Every raster of the file system has the size (3, 2), at which the
    instances fetch it: [resize] copies it and applies no filter. *)
Lemma demo_resize_copies (path : string) (img : pil_image) :
  pil_open Demo.fs_nan path = Some img ->
  im_size img = (3%nat, 2%nat) /\
  pil_resample Demo.fs_nan img 3 2 = im_pixel img.
Proof.
  intros Hopen.
  assert (Hsize : im_size img = (3%nat, 2%nat)).
  { cbn in Hopen. unfold Demo.nan_open, Demo.demo_open in Hopen.
    repeat match type of Hopen with
           | (if ?c then _ else _) = _ => destruct c
           end; by simplify_eq. }
  split; [exact Hsize|]. cbn [pil_resample Demo.fs_nan]. unfold Demo.demo_resample.
  rewrite Hsize. by rewrite bool_decide_eq_true_2.
Qed.

(** Every raster of the file system holds values of 8 bits. *)
Lemma demo_pixels_8bit : pixels_8bit Demo.fs.
Proof.
  assert (Hdiv : forall x w k : nat,
             (0 < k)%nat -> (x < w)%nat -> (x * k / w < k)%nat).
  { intros x w k Hk Hx. apply Nat.Div0.div_lt_upper_bound. nia. }
  intros path img Hopen w h x y c Hx Hy Hc.
  assert (Himg : img = Demo.rgb_image \/ img = Demo.binary_mask \/
                 img = Demo.mask_with_2 \/ img = Demo.mask_with_half).
  { cbn in Hopen. unfold Demo.demo_open in Hopen.
    repeat match type of Hopen with
           | (if ?c then _ else _) = _ => destruct c
           end; simplify_eq; tauto. }
  cbn [pil_resample Demo.fs]. unfold Demo.demo_resample.
  assert (Hpos : forall x' y' : nat, (x' < 3)%nat -> (y' < 2)%nat ->
                   between 0 255 (im_pixel img x' y' c)).
  { intros x' y' Hx' Hy'.
    destruct Himg as [-> | [-> | [-> | ->]]];
      cbn [im_pixel im_bands Demo.rgb_image Demo.binary_mask Demo.mask_with_2
             Demo.mask_with_half between] in *.
    - split.
      + change 0%Q with (inject_Z 0). rewrite <- Zle_Qle. lia.
      + change 255%Q with (inject_Z 255). rewrite <- Zle_Qle. lia.
    - pose proof (Nat.mod_upper_bound (x' + y') 2 ltac:(lia)).
      split.
      + change 0%Q with (inject_Z 0). rewrite <- Zle_Qle. lia.
      + change 255%Q with (inject_Z 255). rewrite <- Zle_Qle. lia.
    - destruct (_ =? _)%nat; split; by vm_compute.
    - destruct (_ =? _)%nat; split; by vm_compute. }
  assert (Hsize : im_size img = (3%nat, 2%nat)).
  { by destruct Himg as [-> | [-> | [-> | ->]]]. }
  rewrite Hsize. destruct (bool_decide _) eqn:Hcopy.
  - apply bool_decide_eq_true in Hcopy. injection Hcopy as -> ->. by apply Hpos.
  - cbn [fst snd]. apply Hpos; apply Hdiv; lia.
Qed.

Lemma X17_witness :
  transforms Demo.plain_ds = false /\
  arr_dtype Demo.plain_batch.1 = Float32 /\
  exists c : nat, (2 <= c)%nat /\ shape Demo.plain_batch.1 = [2%nat; 2%nat; 3%nat; c].
Proof.
  split; [reflexivity|].
  destruct (X17_getitem_image_batch_channels_last Demo.fs Demo.plain_ds 0
              Demo.plain_world Demo.plain_batch.1 Demo.plain_batch.2
              (__getitem__ Demo.fs Demo.plain_ds 0 Demo.plain_world).2)
    as (_ & Hd & Hs).
  - reflexivity.
  - vm_compute. reflexivity.
  - split; [exact Hd | exact Hs].
Defined.

Lemma X18_witness :
  pixels_8bit Demo.fs /\ transforms Demo.plain_ds = false /\
  Forall (between 0 1) (data Demo.plain_batch.1).
Proof.
  split; [exact demo_pixels_8bit|]. split; [reflexivity|].
  apply (X18_getitem_image_values_scaled Demo.fs Demo.plain_ds 0
           Demo.plain_world Demo.plain_batch.1 Demo.plain_batch.2
           (__getitem__ Demo.fs Demo.plain_ds 0 Demo.plain_world).2).
  - exact demo_pixels_8bit.
  - reflexivity.
  - vm_compute. reflexivity.
Defined.

Lemma X19_witness :
  (__getitem__ Demo.fs Demo.plain_ds 0 Demo.plain_world).1 = Ok Demo.plain_batch /\
  w_trace (__getitem__ Demo.fs Demo.plain_ds 0 Demo.plain_world).2 =
    w_trace Demo.plain_world ++
    [EvOpen "imgs/0.png"; EvOpen "msks/0.png"; EvOpen "imgs/2.png"; EvOpen "msks/2.png"].
Proof.
  split; [vm_compute; reflexivity|].
  destruct (X19_getitem_trace Demo.fs Demo.plain_ds 0 Demo.plain_world
              Demo.plain_batch
              (__getitem__ Demo.fs Demo.plain_ds 0 Demo.plain_world).2)
    as (Htrace & _).
  - vm_compute. reflexivity.
  - rewrite Htrace. reflexivity.
Defined.

(** The first value of the second pixel of batch 0 is 7 / 255 in float32. *)
Lemma X20_witness :
  transforms Demo.plain_ds = false /\
  image_values Demo.fs Demo.plain_ds 0 !! 1%nat = Some (Num 7) /\
  data Demo.plain_batch.1 !! 1%nat = Some (Num (14737633 # 536870912)) /\
  data Demo.plain_batch.1 =
    flat_map (fun i => map (fun v => f32_div_255 (f32 v))
                         (image_values Demo.fs Demo.plain_ds i)) [0; 1] /\
  data Demo.plain_batch.2 = flat_map (mask_values Demo.fs Demo.plain_ds) [0; 1].
Proof.
  split; [reflexivity|]. split; [reflexivity|]. split; [reflexivity|].
  destruct (X20_getitem_values Demo.fs Demo.plain_ds 0
              Demo.plain_world Demo.plain_batch.1 Demo.plain_batch.2
              (__getitem__ Demo.fs Demo.plain_ds 0 Demo.plain_world).2)
    as (Himg & _ & Hmsk).
  - reflexivity.
  - vm_compute. reflexivity.
  - split; [exact Himg|]. apply Hmsk.
    change (file_indices Demo.plain_ds 0) with [0; 1].
    repeat (constructor;
            [apply Forall_forall; intros v Hv; apply list_elem_of_In in Hv;
             vm_compute in Hv; intuition (subst; vm_compute; reflexivity)|]).
    constructor.
Defined.

Lemma X21_witness :
  transforms Demo.plain_ds = false /\
  w_heap Demo.plain_world = w_heap Demo.later_world /\
  (__getitem__ Demo.fs Demo.plain_ds 0 Demo.plain_world).1 =
  (__getitem__ Demo.fs Demo.plain_ds 0 Demo.later_world).1.
Proof.
  split; [reflexivity|]. split; [reflexivity|].
  apply (X21_getitem_without_augmentation_repeatable Demo.fs Demo.plain_ds 0
           Demo.plain_world Demo.later_world); reflexivity.
Defined.

Lemma X9_witness :
  1 <= batch_size Demo.plain_ds /\ __len__ Demo.plain_ds = Ok 2 /\
  ((exists b, 0 <= b < 2 /\ 3 ∈ file_indices Demo.plain_ds b) <->
   1 <= 2 /\ 0 <= 3 < 2 + batch_size Demo.plain_ds - 1) /\
  (1 <= 2 -> 2 + batch_size Demo.plain_ds - 1 <= corpus_size Demo.plain_ds).
Proof.
  assert (Hbs : 1 <= batch_size Demo.plain_ds) by (simpl; lia).
  split; [exact Hbs|]. split; [reflexivity|].
  apply (X9_epoch_positions Demo.plain_ds 2 3 Hbs eq_refl).
Defined.

(** ** The claims on the batches, on the small file system *)

(** Batch 1 of four pairs in batches of two is the file indices 1 and 2:
    the fetch returns and has opened the files at the positions 1 and 2
    of the path tuples, which batch 0 and batch 2 share with it. *)
Lemma C1_witness :
  reachable Demo.fs Demo.plain_ds /\
  __len__ Demo.plain_ds = Ok 2 /\
  file_indices Demo.plain_ds 1 = [1; 2] /\
  img_pths Demo.plain_ds = ["imgs/0.png"; "imgs/2.png"; "imgs/3.png"; "imgs/1.png"] /\
  __getitem__ Demo.fs Demo.plain_ds 1 Demo.plain_world =
    (Ok Demo.plain_batch1, (__getitem__ Demo.fs Demo.plain_ds 1 Demo.plain_world).2) /\
  opened (w_trace (__getitem__ Demo.fs Demo.plain_ds 1 Demo.plain_world).2) =
    opened (w_trace Demo.plain_world) ++
    ["imgs/2.png"; "msks/2.png"; "imgs/3.png"; "msks/3.png"].
Proof.
  assert (Hrun : __getitem__ Demo.fs Demo.plain_ds 1 Demo.plain_world =
                 (Ok Demo.plain_batch1,
                  (__getitem__ Demo.fs Demo.plain_ds 1 Demo.plain_world).2))
    by (vm_compute; reflexivity).
  split; [exact plain_reachable|]. split; [reflexivity|].
  destruct (C1_batch_selects_overlapping_indices Demo.fs Demo.plain_ds 1 2)
    as (Hidx & _ & _ & Hopened & _).
  - exact plain_reachable.
  - simpl. lia.
  - reflexivity.
  - lia.
  - split; [rewrite Hidx; reflexivity|]. split; [reflexivity|].
    split; [exact Hrun|].
    destruct (Hopened _ _ _ Hrun) as (x & l & _ & Htrace & _ & Hfull).
    rewrite Htrace, (Hfull (ex_intro _ _ eq_refl)). reflexivity.
Defined.





(** With augmentation on and no background directory, fetching batch 0
    raises the background-path error after opening the first pair, also
    when the dict has lost its entry "BackgroundSwap". *)
Lemma C7_witness :
  reachable Demo.fs Demo.nobg_ds /\
  transforms Demo.nobg_ds = true /\ bg_dir_pth Demo.nobg_ds = None /\
  chain_ready Demo.noswap_world Demo.nobg_ds /\
  deref Demo.noswap_world (tfs_prb Demo.nobg_ds) !! "BackgroundSwap" = None /\
  __getitem__ Demo.fs Demo.nobg_ds 0 Demo.noswap_world =
    (Raise (ValueError BackgroundPathNone),
     after_open Demo.noswap_world "imgs/0.png" "msks/0.png").
Proof.
  assert (Hreach : reachable Demo.fs Demo.nobg_ds).
  { apply (reachable_init Demo.fs Demo.nobg_args Demo.world0 _ Demo.nobg_world).
    vm_compute. reflexivity. }
  assert (Hready : chain_ready Demo.noswap_world Demo.nobg_ds).
  { intros k Hk. apply (bool_decide_unpack _).
    apply list_elem_of_In in Hk. simpl in Hk.
    repeat (destruct Hk as [<-|Hk]; [vm_compute; reflexivity|]). destruct Hk. }
  split; [exact Hreach|]. split; [reflexivity|]. split; [reflexivity|].
  split; [exact Hready|]. split; [vm_compute; reflexivity|].
  destruct (C7_no_background_fails Demo.fs Demo.nobg_ds 0 Demo.noswap_world
              Hreach eq_refl eq_refl) as (_ & Hraise).
  apply (Hraise "imgs/0.png" "msks/0.png" Demo.rgb_image Demo.binary_mask).
  - simpl. lia.
  - exact Hready.
  - reflexivity.
  - reflexivity.
  - reflexivity.
  - reflexivity.
Defined.

(** C7, as stated, fails: with augmentation enabled and no background
    directory, fetching batch 0 of a corpus whose first image file does
    not decode raises the error of the decoder, not a ValueError. *)
Lemma C7_counterexample :
  reachable Demo.fs Demo.corrupt_ds /\
  transforms Demo.corrupt_ds = true /\ bg_dir_pth Demo.corrupt_ds = None /\
  __len__ Demo.corrupt_ds = Ok 1 /\
  (__getitem__ Demo.fs Demo.corrupt_ds 0 Demo.corrupt_world).1 =
    Raise (OSError "corrupt/a.png") /\
  forall v, (__getitem__ Demo.fs Demo.corrupt_ds 0 Demo.corrupt_world).1 <>
            Raise (ValueError v).
Proof.
  split.
  { apply (reachable_init Demo.fs Demo.corrupt_args Demo.world0 _ Demo.corrupt_world).
    vm_compute. reflexivity. }
  split; [reflexivity|]. split; [reflexivity|]. split; [reflexivity|].
  assert (Hrun : (__getitem__ Demo.fs Demo.corrupt_ds 0 Demo.corrupt_world).1 =
                 Raise (OSError "corrupt/a.png")) by (vm_compute; reflexivity).
  split; [exact Hrun|]. intros v. rewrite Hrun. discriminate.
Qed.
